(** * init: the service supervisor and the property service

    A shallow embedding of [init/service.cpp] (class [Service]) and of the
    property service ([PropertySet], [HandlePropertySet], [AsyncRestorecon],
    [SocketConnection]), followed by the properties established about them.

    Conventions.
    - [unsigned flags_] is a [Z]; [~mask] on the [int] flag constants is
      [Z.lnot] and its conversion to [unsigned] is written out ([to_unsigned]).
    - Every system call, library call or callback whose result the code
      consults is answered by an oracle record ([Env], [PropertyPlatform],
      [SocketOracle]); every externally visible action is appended to a trace.
    - A function that may not come back to its caller ([LOG(FATAL)], the
      forked child) returns an [Outcome]. *)

From Stdlib Require Import ZArith Bool List String Ascii Lia.
From stdpp Require Import base gmap strings list pretty.

Local Open Scope string_scope.
Local Open Scope list_scope.
Local Open Scope Z_scope.

(** ** Flag words *)

(** Modelled from the spec: [service.h], which defines the [SVC_*] masks, is
    not among the sources.  The specification (section 3) describes the flags
    as independent bits of one bitset; each mask below is a distinct single
    bit of an [unsigned int]. *)
Definition SVC_DISABLED : Z := 0x001.
Definition SVC_ONESHOT : Z := 0x002.
Definition SVC_RUNNING : Z := 0x004.
Definition SVC_RESTARTING : Z := 0x008.
Definition SVC_CONSOLE : Z := 0x010.
Definition SVC_CRITICAL : Z := 0x020.
Definition SVC_RESET : Z := 0x040.
Definition SVC_RC_DISABLED : Z := 0x080.
Definition SVC_RESTART : Z := 0x100.
Definition SVC_DISABLED_START : Z := 0x200.
Definition SVC_EXEC : Z := 0x400.
Definition SVC_TEMPORARY : Z := 0x1000.

(** Linux signal numbers used by the supervisor. *)
Definition SIGKILL : Z := 9.
Definition SIGTERM : Z := 15.

(** Conversion of an [int] to [unsigned int] (32 bits). *)
Definition to_unsigned (x : Z) : Z := x mod 2 ^ 32.

(** [flags_ |= m] *)
Definition flag_set (f m : Z) : Z := Z.lor f m.

(** [flags_ &= ~m]: [~m] is a negative [int], converted to [unsigned]. *)
Definition flag_clear (f m : Z) : Z := Z.land f (to_unsigned (Z.lnot m)).

(** The truth value of [flags_ & m]. *)
Definition has (f m : Z) : bool := negb (Z.land f m =? 0).

(** A mask that is one bit of an [unsigned int]. *)
Definition single_bit (b : Z) : Prop := exists k, 0 <= k < 32 /\ b = 2 ^ k.

(** A flag word that fits the 32 bits of an [unsigned int]. *)
Definition in_unsigned (f : Z) : Prop := 0 <= f < 2 ^ 32.

(** ** The service object *)

Record Service := mkService {
  name_ : string;
  flags_ : Z;
  pid_ : Z;
  crash_count_ : Z;             (* int; its increment is taken without overflow *)
  time_started_ : Z;            (* boot_clock, nanoseconds *)
  time_crashed_ : Z;            (* boot_clock, nanoseconds *)
  start_order_ : Z;
  process_cgroup_empty_ : bool;
  pre_apexd_ : bool;
  post_data_ : bool;
  running_at_post_data_reset_ : bool;
  updatable_ : bool;            (* is_updatable() *)
  uid_ : Z;                     (* proc_attr_.uid *)
  console_ : string;            (* proc_attr_.console *)
  seclabel_ : string;
  namespace_flags_ : Z;         (* namespaces_.flags *)
  oom_score_adjust_ : Z;
  use_memcg_ : bool;            (* any of the memory controls is configured *)
  args_ : list string
}.

Definition set_flags (f : Z) (s : Service) : Service :=
  mkService (name_ s) f (pid_ s) (crash_count_ s) (time_started_ s) (time_crashed_ s)
    (start_order_ s) (process_cgroup_empty_ s) (pre_apexd_ s) (post_data_ s)
    (running_at_post_data_reset_ s) (updatable_ s) (uid_ s) (console_ s) (seclabel_ s)
    (namespace_flags_ s) (oom_score_adjust_ s) (use_memcg_ s) (args_ s).

Definition set_pid (p : Z) (s : Service) : Service :=
  mkService (name_ s) (flags_ s) p (crash_count_ s) (time_started_ s) (time_crashed_ s)
    (start_order_ s) (process_cgroup_empty_ s) (pre_apexd_ s) (post_data_ s)
    (running_at_post_data_reset_ s) (updatable_ s) (uid_ s) (console_ s) (seclabel_ s)
    (namespace_flags_ s) (oom_score_adjust_ s) (use_memcg_ s) (args_ s).

Definition set_crash_count (c : Z) (s : Service) : Service :=
  mkService (name_ s) (flags_ s) (pid_ s) c (time_started_ s) (time_crashed_ s)
    (start_order_ s) (process_cgroup_empty_ s) (pre_apexd_ s) (post_data_ s)
    (running_at_post_data_reset_ s) (updatable_ s) (uid_ s) (console_ s) (seclabel_ s)
    (namespace_flags_ s) (oom_score_adjust_ s) (use_memcg_ s) (args_ s).

Definition set_time_started (t : Z) (s : Service) : Service :=
  mkService (name_ s) (flags_ s) (pid_ s) (crash_count_ s) t (time_crashed_ s)
    (start_order_ s) (process_cgroup_empty_ s) (pre_apexd_ s) (post_data_ s)
    (running_at_post_data_reset_ s) (updatable_ s) (uid_ s) (console_ s) (seclabel_ s)
    (namespace_flags_ s) (oom_score_adjust_ s) (use_memcg_ s) (args_ s).

Definition set_time_crashed (t : Z) (s : Service) : Service :=
  mkService (name_ s) (flags_ s) (pid_ s) (crash_count_ s) (time_started_ s) t
    (start_order_ s) (process_cgroup_empty_ s) (pre_apexd_ s) (post_data_ s)
    (running_at_post_data_reset_ s) (updatable_ s) (uid_ s) (console_ s) (seclabel_ s)
    (namespace_flags_ s) (oom_score_adjust_ s) (use_memcg_ s) (args_ s).

Definition set_start_order (o : Z) (s : Service) : Service :=
  mkService (name_ s) (flags_ s) (pid_ s) (crash_count_ s) (time_started_ s) (time_crashed_ s)
    o (process_cgroup_empty_ s) (pre_apexd_ s) (post_data_ s)
    (running_at_post_data_reset_ s) (updatable_ s) (uid_ s) (console_ s) (seclabel_ s)
    (namespace_flags_ s) (oom_score_adjust_ s) (use_memcg_ s) (args_ s).

Definition set_process_cgroup_empty (b : bool) (s : Service) : Service :=
  mkService (name_ s) (flags_ s) (pid_ s) (crash_count_ s) (time_started_ s) (time_crashed_ s)
    (start_order_ s) b (pre_apexd_ s) (post_data_ s)
    (running_at_post_data_reset_ s) (updatable_ s) (uid_ s) (console_ s) (seclabel_ s)
    (namespace_flags_ s) (oom_score_adjust_ s) (use_memcg_ s) (args_ s).

Definition set_pre_apexd (b : bool) (s : Service) : Service :=
  mkService (name_ s) (flags_ s) (pid_ s) (crash_count_ s) (time_started_ s) (time_crashed_ s)
    (start_order_ s) (process_cgroup_empty_ s) b (post_data_ s)
    (running_at_post_data_reset_ s) (updatable_ s) (uid_ s) (console_ s) (seclabel_ s)
    (namespace_flags_ s) (oom_score_adjust_ s) (use_memcg_ s) (args_ s).

Definition set_post_data (b : bool) (s : Service) : Service :=
  mkService (name_ s) (flags_ s) (pid_ s) (crash_count_ s) (time_started_ s) (time_crashed_ s)
    (start_order_ s) (process_cgroup_empty_ s) (pre_apexd_ s) b
    (running_at_post_data_reset_ s) (updatable_ s) (uid_ s) (console_ s) (seclabel_ s)
    (namespace_flags_ s) (oom_score_adjust_ s) (use_memcg_ s) (args_ s).

Definition set_running_at_post_data_reset (b : bool) (s : Service) : Service :=
  mkService (name_ s) (flags_ s) (pid_ s) (crash_count_ s) (time_started_ s) (time_crashed_ s)
    (start_order_ s) (process_cgroup_empty_ s) (pre_apexd_ s) (post_data_ s)
    b (updatable_ s) (uid_ s) (console_ s) (seclabel_ s)
    (namespace_flags_ s) (oom_score_adjust_ s) (use_memcg_ s) (args_ s).

Definition set_console (c : string) (s : Service) : Service :=
  mkService (name_ s) (flags_ s) (pid_ s) (crash_count_ s) (time_started_ s) (time_crashed_ s)
    (start_order_ s) (process_cgroup_empty_ s) (pre_apexd_ s) (post_data_ s)
    (running_at_post_data_reset_ s) (updatable_ s) (uid_ s) c (seclabel_ s)
    (namespace_flags_ s) (oom_score_adjust_ s) (use_memcg_ s) (args_ s).

(** ** Observable actions and oracle answers *)

Inductive Event :=
| EvKillProcessGroup (uid pid signal : Z)       (* killProcessGroup *)
| EvKillProcessGroupOnce (uid pid signal : Z)   (* killProcessGroupOnce *)
| EvPropertySet (name value : string)           (* property_set(name, value) *)
| EvDelayService (name : string)                (* ServiceList::DelayService *)
| EvCleanDescriptors                            (* DescriptorInfo::Clean on each *)
| EvReapCallbacks                               (* every f(siginfo) *)
| EvOnRestart                                   (* onrestart_.ExecuteAllCommands() *)
| EvFork                                        (* fork() *)
| EvClone (flags : Z)                           (* clone(.., flags | SIGCHLD, ..) *)
| EvWriteOomScoreAdj (pid adj : Z)
| EvCreateProcessGroup (uid pid : Z) (use_memcg : bool)
| EvLogFatal (name : string).                   (* LOG(FATAL): init aborts *)

(** What the operating system and the rest of init answer during one call. *)
Record Env := mkEnv {
  services_updated : bool;        (* ServiceList::IsServicesUpdated() *)
  is_post_data : bool;            (* ServiceList::IsPostData() *)
  open_console_ret : Z;           (* open(console, O_RDWR | O_CLOEXEC) *)
  stat_ret : Z;                   (* stat(args_[0]) *)
  getcon_ret : option string;     (* getcon: None when it returns -1 *)
  getfilecon_ret : option string; (* getfilecon: None when it returns -1 *)
  compute_create_ret : Z * string;(* security_compute_create: rc and new_con *)
  runtime_apex_ready : bool;      (* IsRuntimeApexReady() *)
  fork_ret : Z;                   (* fork() or clone() *)
  now : Z;                        (* boot_clock::now(), nanoseconds *)
  kill_ret : Z;                   (* killProcessGroup / killProcessGroupOnce *)
  boottime_unset : bool;          (* GetProperty("ro.boottime.<name>", "").empty() *)
  boot_completed : bool;          (* GetBoolProperty("sys.boot_completed", false) *)
  is_apex_updatable : bool        (* ApexProperties::updatable().value_or(false) *)
}.

(** The service together with the two static members of the class and the
    trace of actions performed so far (oldest first). *)
Record World := mkWorld {
  svc : Service;
  next_start_order_ : Z;
  is_exec_service_running_ : bool;
  trace : list Event
}.

Definition emit (e : Event) (w : World) : World :=
  mkWorld (svc w) (next_start_order_ w) (is_exec_service_running_ w) (trace w ++ [e]).

Definition upd (f : Service -> Service) (w : World) : World :=
  mkWorld (f (svc w)) (next_start_order_ w) (is_exec_service_running_ w) (trace w).

Definition flags (w : World) : Z := flags_ (svc w).

Inductive StartError :=
| ErrDelayed          (* updatable service queued until APEX configs are loaded *)
| ErrNotUpdated       (* ExecStart of an updatable service before that *)
| ErrConsole
| ErrStat
| ErrContext (msg : string)
| ErrFork.

Inductive Result := Ok | Err (e : StartError).

Inductive Outcome :=
| Returned (r : Result) (w : World)   (* back in the caller *)
| Aborted (w : World)                 (* LOG(FATAL) *)
| InChild (w : World).                (* the forked child; it execs or exits *)

(** ** service.cpp *)

(** [default_console] is declared outside [service.cpp]. *)
Definition default_console : string := "/dev/console".
Definition four_minutes : Z := 240 * 1000000000.

Definition NotifyStateChange (e : Env) (new_state : string) (w : World) : World :=
  if has (flags w) SVC_TEMPORARY then w
  else
    let w1 := emit (EvPropertySet ("init.svc." +:+ name_ (svc w)) new_state) w in
    if String.eqb new_state "running" then
      let start_ns := time_started_ (svc w) mod 2 ^ 64 in
      if boottime_unset e
      then emit (EvPropertySet ("ro.boottime." +:+ name_ (svc w)) (pretty start_ns)) w1
      else w1
    else w1.

Definition KillProcessGroup (e : Env) (signal : Z) (w : World) : World :=
  if process_cgroup_empty_ (svc w) then w
  else
    let w1 :=
      if signal =? SIGTERM
      then emit (EvKillProcessGroupOnce (uid_ (svc w)) (pid_ (svc w)) signal) w
      else emit (EvKillProcessGroup (uid_ (svc w)) (pid_ (svc w)) signal) w in
    if kill_ret e =? 0 then upd (set_process_cgroup_empty true) w1 else w1.

(** Modelled from the spec: [UnSetExec] is an inline member of [service.h],
    which is not among the sources.  The specification says that [Reap]
    clears [EXEC]; the process-wide mark that an exec service is running
    ([is_exec_service_running_], set by [ExecStart]) is dropped with it. *)
Definition UnSetExec (w : World) : World :=
  mkWorld (set_flags (flag_clear (flags w) SVC_EXEC) (svc w))
          (next_start_order_ w) false (trace w).

Definition StopOrReset (e : Env) (how : Z) (w : World) : World :=
  let w := upd (set_flags (flag_clear (flags w) (Z.lor SVC_RESTARTING SVC_DISABLED_START))) w in
  let how :=
    if negb (how =? SVC_DISABLED) && negb (how =? SVC_RESET) && negb (how =? SVC_RESTART)
    then SVC_DISABLED else how in
  let w :=
    if how =? SVC_RESET
    then upd (set_flags (flag_set (flags w)
                (if has (flags w) SVC_RC_DISABLED then SVC_DISABLED else SVC_RESET))) w
    else upd (set_flags (flag_set (flags w) how)) w in
  let w :=
    if how =? SVC_RESTART
    then upd (set_flags (flag_clear (flags w) (Z.lor SVC_DISABLED SVC_RESET))) w
    else upd (set_flags (flag_clear (flags w) SVC_RESTART)) w in
  if negb (pid_ (svc w) =? 0)
  then NotifyStateChange e "stopping" (KillProcessGroup e SIGKILL w)
  else NotifyStateChange e "stopped" w.

(** Lines 259-288 of [Reap]: the crash policy.  [inl] is the fatal abort. *)
Definition Reap_crash_policy (e : Env) (w : World) : World + World :=
  let is_process_updatable := negb (pre_apexd_ (svc w)) && is_apex_updatable e in
  if (has (flags w) SVC_CRITICAL || is_process_updatable) && negb (has (flags w) SVC_RESTART)
  then
    if (now e <? time_crashed_ (svc w) + four_minutes) || negb (boot_completed e)
    then
      let w := upd (set_crash_count (crash_count_ (svc w) + 1)) w in
      if crash_count_ (svc w) >? 4
      then
        if has (flags w) SVC_CRITICAL
        then inl (emit (EvLogFatal (name_ (svc w))) w)
        else inr (emit (EvPropertySet "ro.init.updatable_crashing" "1") w)
      else inr w
    else inr (upd (set_crash_count 1) (upd (set_time_crashed (now e)) w))
  else inr w.

Definition Reap (e : Env) (w : World) : Outcome :=
  let w :=
    if negb (has (flags w) SVC_ONESHOT) || has (flags w) SVC_RESTART
    then KillProcessGroup e SIGKILL w else w in
  let w := emit EvCleanDescriptors w in
  let w := emit EvReapCallbacks w in
  let w := if has (flags w) SVC_EXEC then UnSetExec w else w in
  if has (flags w) SVC_TEMPORARY then Returned Ok w
  else
    let w := upd (set_pid 0) w in
    let w := upd (set_flags (flag_clear (flags w) SVC_RUNNING)) w in
    let w := upd (set_start_order 0) w in
    let w :=
      if has (flags w) SVC_ONESHOT && negb (has (flags w) SVC_RESTART)
         && negb (has (flags w) SVC_RESET)
      then upd (set_flags (flag_set (flags w) SVC_DISABLED)) w else w in
    if has (flags w) (Z.lor SVC_DISABLED SVC_RESET)
    then Returned Ok (NotifyStateChange e "stopped" w)
    else
      match Reap_crash_policy e w with
      | inl w => Aborted w
      | inr w =>
          let w := upd (set_flags (flag_clear (flags w) SVC_RESTART)) w in
          let w := upd (set_flags (flag_set (flags w) SVC_RESTARTING)) w in
          let w := emit EvOnRestart w in
          Returned Ok (NotifyStateChange e "restarting" w)
      end.

Definition ComputeContextFromExecutable (e : Env) : string + string :=
  match getcon_ret e with
  | None => inr "Could not get security context"
  | Some mycon =>
      match getfilecon_ret e with
      | None => inr "Could not get file context"
      | Some filecon =>
          let rc := fst (compute_create_ret e) in
          let computed_context := if rc =? 0 then snd (compute_create_ret e) else "" in
          if (rc =? 0) && String.eqb computed_context mycon
          then inr "incorrect label or no domain transition"
          else if rc <? 0 then inr "Could not get process context"
          else inl computed_context
      end
  end.

(** The parent's side of [Start] from the [fork] on (lines 404-508).  The
    memory-control calls that follow a successful [createProcessGroup] only
    write to the new cgroup and are folded into that event. *)
Definition Start_fork (e : Env) (w : World) : Outcome :=
  let w :=
    if negb (namespace_flags_ (svc w) =? 0)
    then emit (EvClone (namespace_flags_ (svc w))) w else emit EvFork w in
  let pid := fork_ret e in
  if pid =? 0 then InChild w
  else if pid <? 0 then Returned (Err ErrFork) (upd (set_pid 0) w)
  else
    let w :=
      if negb (oom_score_adjust_ (svc w) =? -1000)
      then emit (EvWriteOomScoreAdj pid (oom_score_adjust_ (svc w))) w else w in
    let w := upd (set_time_started (now e)) w in
    let w := upd (set_pid pid) w in
    let w := upd (set_flags (flag_set (flags w) SVC_RUNNING)) w in
    let w := mkWorld (set_start_order (next_start_order_ w) (svc w))
                     ((next_start_order_ w + 1) mod 2 ^ 64)
                     (is_exec_service_running_ w) (trace w) in
    let w := upd (set_process_cgroup_empty false) w in
    let w := emit (EvCreateProcessGroup (uid_ (svc w)) (pid_ (svc w)) (use_memcg_ (svc w))) w in
    Returned Ok (NotifyStateChange e "running" w).

Definition Start (e : Env) (w : World) : Outcome :=
  if updatable_ (svc w) && negb (services_updated e)
  then Returned (Err ErrDelayed) (emit (EvDelayService (name_ (svc w))) w)
  else
    let disabled := has (flags w) (Z.lor SVC_DISABLED SVC_RESET) in
    let w := upd (set_flags (flag_clear (flags w)
               (Z.lor (Z.lor (Z.lor (Z.lor SVC_DISABLED SVC_RESTARTING) SVC_RESET) SVC_RESTART)
                      SVC_DISABLED_START))) w in
    if has (flags w) SVC_RUNNING
    then
      Returned Ok (if has (flags w) SVC_ONESHOT && disabled
                   then upd (set_flags (flag_set (flags w) SVC_RESTART)) w else w)
    else
      let needs_console := has (flags w) SVC_CONSOLE in
      let w :=
        if needs_console && String.eqb (console_ (svc w)) ""
        then upd (set_console default_console) w else w in
      if needs_console && (open_console_ret e <? 0)
      then Returned (Err ErrConsole) (upd (set_flags (flag_set (flags w) SVC_DISABLED)) w)
      else if stat_ret e =? -1
      then Returned (Err ErrStat) (upd (set_flags (flag_set (flags w) SVC_DISABLED)) w)
      else
        match (if negb (String.eqb (seclabel_ (svc w)) "")
               then inl (seclabel_ (svc w)) else ComputeContextFromExecutable e) with
        | inr msg => Returned (Err (ErrContext msg)) w
        | inl scon =>
            let w :=
              if negb (runtime_apex_ready e) && negb (pre_apexd_ (svc w))
              then upd (set_pre_apexd true) w else w in
            let w := upd (set_post_data (is_post_data e)) w in
            Start_fork e w
        end.

Definition ExecStart (e : Env) (w : World) : Outcome :=
  if updatable_ (svc w) && negb (services_updated e)
  then Returned (Err ErrNotUpdated) w
  else
    let w := upd (set_flags (flag_set (flags w) SVC_ONESHOT)) w in
    match Start e w with
    | Returned Ok w =>
        let w := upd (set_flags (flag_set (flags w) SVC_EXEC)) w in
        Returned Ok (mkWorld (svc w) (next_start_order_ w) true (trace w))
    | o => o
    end.

Definition StartIfNotDisabled (e : Env) (w : World) : Outcome :=
  if negb (has (flags w) SVC_DISABLED) then Start e w
  else Returned Ok (upd (set_flags (flag_set (flags w) SVC_DISABLED_START)) w).

Definition Enable (e : Env) (w : World) : Outcome :=
  let w := upd (set_flags (flag_clear (flags w) (Z.lor SVC_DISABLED SVC_RC_DISABLED))) w in
  if has (flags w) SVC_DISABLED_START then Start e w else Returned Ok w.

Definition Reset (e : Env) (w : World) : World := StopOrReset e SVC_RESET w.

Definition ResetIfPostData (e : Env) (w : World) : World :=
  if post_data_ (svc w)
  then
    let w :=
      if has (flags w) SVC_RUNNING
      then upd (set_running_at_post_data_reset true) w else w in
    StopOrReset e SVC_RESET w
  else w.

Definition StartIfPostData (e : Env) (w : World) : Outcome :=
  if running_at_post_data_reset_ (svc w) then Start e w else Returned Ok w.

Definition Stop (e : Env) (w : World) : World := StopOrReset e SVC_DISABLED w.

Definition Terminate (e : Env) (w : World) : World :=
  let w := upd (set_flags (flag_clear (flags w) (Z.lor SVC_RESTARTING SVC_DISABLED_START))) w in
  let w := upd (set_flags (flag_set (flags w) SVC_DISABLED)) w in
  if negb (pid_ (svc w) =? 0)
  then NotifyStateChange e "stopping" (KillProcessGroup e SIGTERM w)
  else w.

Definition Timeout (e : Env) (w : World) : World :=
  if negb (pid_ (svc w) =? 0)
  then NotifyStateChange e "stopping" (KillProcessGroup e SIGKILL w)
  else w.

(** [Restart] logs and drops the error of a failed [Start]. *)
Definition Restart (e : Env) (w : World) : Outcome :=
  if has (flags w) SVC_RUNNING then Returned Ok (StopOrReset e SVC_RESTART w)
  else if negb (has (flags w) SVC_RESTARTING)
  then match Start e w with
       | Returned _ w => Returned Ok w
       | o => o
       end
  else Returned Ok w.

Arguments has : simpl never.
Arguments flag_set : simpl never.
Arguments flag_clear : simpl never.

(** ** Vocabulary of the statements *)

(** The state property of a service, [init.svc.<name> = st]. *)
Definition state_property (w : World) (st : string) : Event :=
  EvPropertySet ("init.svc." +:+ name_ (svc w)) st.

(** What [NotifyStateChange] publishes for a state other than "running". *)
Definition publish (w : World) (st : string) : list Event :=
  if has (flags w) SVC_TEMPORARY then [] else [state_property w st].

(** What [KillProcessGroup] sends for a signal other than SIGTERM. *)
Definition kill_events (w : World) (signal : Z) : list Event :=
  if process_cgroup_empty_ (svc w) then []
  else [EvKillProcessGroup (uid_ (svc w)) (pid_ (svc w)) signal].

(** The world an operation leaves behind, however it ended. *)
Definition final_world (o : Outcome) : World :=
  match o with
  | Returned _ w => w
  | Aborted w => w
  | InChild w => w
  end.

(** ** Concrete services and answers used in examples *)

Definition sample_service (f pid : Z) : Service :=
  mkService "svc" f pid 0 0 0 0 false false false false false 0 ""
            "u:r:svc:s0" 0 (-1000) false ["/system/bin/svc"].

Definition sample_env : Env :=
  mkEnv true false 3 0 (Some "u:r:init:s0") (Some "u:object_r:svc_exec:s0")
        (0, "u:r:svc:s0") true 100 1000 0 false true false.

Definition sample_world (f pid : Z) : World :=
  mkWorld (sample_service f pid) 1 false [].

(** ** Reap in two parts, and the crash accounting *)

(** Reap up to the TEMPORARY test (lines 227-239). *)
Definition Reap_prologue (e : Env) (w : World) : World :=
  let w :=
    if negb (has (flags w) SVC_ONESHOT) || has (flags w) SVC_RESTART
    then KillProcessGroup e SIGKILL w else w in
  let w := emit EvCleanDescriptors w in
  let w := emit EvReapCallbacks w in
  if has (flags w) SVC_EXEC then UnSetExec w else w.

(** The tests at the entry of [Reap] under which control reaches the crash
    policy with its guard open. *)
Definition crash_policy_runs (e : Env) (w : World) : bool :=
  negb (has (flags w) SVC_TEMPORARY) && negb (has (flags w) SVC_ONESHOT)
  && negb (has (flags w) SVC_DISABLED) && negb (has (flags w) SVC_RESET)
  && negb (has (flags w) SVC_RESTART)
  && (has (flags w) SVC_CRITICAL || (negb (pre_apexd_ (svc w)) && is_apex_updatable e)).

(** [now < time_crashed_ + 4min || !boot_completed] *)
Definition in_crash_window (e : Env) (w : World) : bool :=
  (now e <? time_crashed_ (svc w) + four_minutes) || negb (boot_completed e).

(** The guard of the crash policy (line 269). *)
Definition crash_guard (e : Env) (w : World) : bool :=
  (has (flags w) SVC_CRITICAL || (negb (pre_apexd_ (svc w)) && is_apex_updatable e))
  && negb (has (flags w) SVC_RESTART).

(** The crash accounting over consecutive exits of the service: what the
    crash policy does to [crash_count_] and [time_crashed_] on each of them. *)
Fixpoint crashes (es : list Env) (w : World) : World + World :=
  match es with
  | [] => inr w
  | e :: es' =>
      match Reap_crash_policy e w with
      | inl a => inl a
      | inr w' => crashes es' w'
      end
  end.


(** ** Lifecycle *)

(** The nine-argument constructor: [pid_], [crash_count_] and [start_order_]
    start at 0 and [oom_score_adjust_] at -1000; the members it does not
    mention take the default of their type. *)
Definition new_Service (name : string) (flags uid : Z) (namespace_flags : Z)
    (seclabel : string) (args : list string) : Service :=
  mkService name flags 0 0 0 0 0 false false false false false uid ""
            seclabel namespace_flags (-1000) false args.

(** A service as the parser or [MakeTemporaryOneshotService] hands it to the
    supervisor: no process yet, and not marked running. *)
Definition initial (w : World) : Prop :=
  pid_ (svc w) = 0 /\ has (flags w) SVC_RUNNING = false.

Inductive Op :=
| OpStart | OpExecStart | OpStartIfNotDisabled | OpEnable
| OpReset | OpResetIfPostData | OpStartIfPostData
| OpStop | OpTerminate | OpTimeout | OpRestart
| OpStopOrReset (how : Z)
| OpReap.

Definition run_op (op : Op) (e : Env) (w : World) : Outcome :=
  match op with
  | OpStart => Start e w
  | OpExecStart => ExecStart e w
  | OpStartIfNotDisabled => StartIfNotDisabled e w
  | OpEnable => Enable e w
  | OpReset => Returned Ok (Reset e w)
  | OpResetIfPostData => Returned Ok (ResetIfPostData e w)
  | OpStartIfPostData => StartIfPostData e w
  | OpStop => Returned Ok (Stop e w)
  | OpTerminate => Returned Ok (Terminate e w)
  | OpTimeout => Returned Ok (Timeout e w)
  | OpRestart => Restart e w
  | OpStopOrReset how => Returned Ok (StopOrReset e how w)
  | OpReap => Reap e w
  end.

(** The states of a service between lifecycle operations, whatever the
    operating system answers and whichever way each operation ends. *)
Inductive reachable : World -> Prop :=
| reach_initial (w : World) : initial w -> reachable w
| reach_step (w : World) (op : Op) (e : Env) :
    reachable w -> reachable (final_world (run_op op e w)).

(** [RUNNING] is set exactly when a pid is recorded, and pids are positive. *)
Definition running_iff_pid (w : World) : Prop :=
  (has (flags w) SVC_RUNNING = true <-> pid_ (svc w) <> 0) /\ 0 <= pid_ (svc w).

(** An operation that touches neither RUNNING nor the pid. *)
Definition keeps (w w' : World) : Prop :=
  has (flags w') SVC_RUNNING = has (flags w) SVC_RUNNING /\ pid_ (svc w') = pid_ (svc w).

(** An operation that keeps them, or drops the pid and RUNNING together, or
    records a positive pid and sets RUNNING. *)
Definition moves (w w' : World) : Prop :=
  keeps w w'
  \/ (has (flags w') SVC_RUNNING = false /\ pid_ (svc w') = 0)
  \/ (has (flags w') SVC_RUNNING = true /\ 0 < pid_ (svc w')).

(** ** The property service: platform interface *)

(** Result codes of the property protocol ([PROP_SUCCESS], [PROP_ERROR_*]). *)
Inductive PropResult :=
| PROP_SUCCESS
| PROP_ERROR_READ_CMD
| PROP_ERROR_READ_DATA
| PROP_ERROR_INVALID_CMD
| PROP_ERROR_INVALID_NAME
| PROP_ERROR_INVALID_VALUE
| PROP_ERROR_PERMISSION_DENIED
| PROP_ERROR_SET_FAILED
| PROP_ERROR_READ_ONLY_PROPERTY
| PROP_ERROR_HANDLE_CONTROL_MESSAGE.

Definition PropResult_eqb (a b : PropResult) : bool :=
  match a, b with
  | PROP_SUCCESS, PROP_SUCCESS
  | PROP_ERROR_READ_CMD, PROP_ERROR_READ_CMD
  | PROP_ERROR_READ_DATA, PROP_ERROR_READ_DATA
  | PROP_ERROR_INVALID_CMD, PROP_ERROR_INVALID_CMD
  | PROP_ERROR_INVALID_NAME, PROP_ERROR_INVALID_NAME
  | PROP_ERROR_INVALID_VALUE, PROP_ERROR_INVALID_VALUE
  | PROP_ERROR_PERMISSION_DENIED, PROP_ERROR_PERMISSION_DENIED
  | PROP_ERROR_SET_FAILED, PROP_ERROR_SET_FAILED
  | PROP_ERROR_READ_ONLY_PROPERTY, PROP_ERROR_READ_ONLY_PROPERTY
  | PROP_ERROR_HANDLE_CONTROL_MESSAGE, PROP_ERROR_HANDLE_CONTROL_MESSAGE => true
  | _, _ => false
  end.

Record ucred := mkUcred { cr_pid : Z; cr_uid : Z; cr_gid : Z }.

(** [PropertyMessage], the tagged union carried on the internal socket. *)
Inductive PropertyMessage :=
| ChangedMessage (name value : string)
| ControlMessage (msg name : string) (pid : Z) (fd : option Z).

(** The functions and data the property service takes from the rest of the
    platform (init's [util.cpp], the property-info area, SELinux, bionic's
    property area, the internal socket).  None of them is among the sources;
    the service is modelled for every implementation of this interface. *)
Class PropertyPlatform := {
  IsLegalPropertyName : string -> bool;
  IsLegalPropertyValue : string -> string -> bool;
  (* property_info_area->GetPropertyInfo: target context and type, if any *)
  GetPropertyInfo : string -> option string * option string;
  (* selinux_check_access(source, target, class, perm, _) == 0 *)
  selinux_check_access : string -> string -> string -> string -> bool;
  CheckType : option string -> string -> bool;
  (* __system_property_add(...) >= 0, in a given property area *)
  system_property_add_ok : gmap string string -> string -> string -> bool;
  SelinuxGetVendorAndroidVersion : Z;
  (* SendMessage(init_socket, m) succeeded *)
  SendMessage_ok : PropertyMessage -> bool
}.

Definition ANDROID_API_Q : Z := 29.

(** Modelled from the spec: [kRestoreconProperty] is declared outside the
    sources; section 4.4 names the property. *)
Definition kRestoreconProperty : string := "selinux.restorecon_recursive".

(** ** The property service: state and actions *)

Inductive PEvent :=
| PvWritePersistentProperty (name value : string)
| PvSendMessage (m : PropertyMessage)       (* SendMessage(init_socket, m) *)
| PvRelease (fd : Z)                        (* socket->Release() *)
| PvClose (fd : Z)
| PvLogPowerctl (value : string) (pid : Z)
| PvSpawnRestoreconThread                   (* std::thread{ThreadFunction}.detach() *)
| PvRestorecon (path : string)              (* selinux_android_restorecon(path, RECURSE) *)
| PvSetProperty (name value : string).      (* android::base::SetProperty *)

Record PropertyServer := mkServer {
  store : gmap string string;          (* the property area *)
  persistent_properties_loaded : bool;
  accept_messages : bool;
  paths_ : list string;                (* AsyncRestorecon::paths_, front first *)
  thread_started_ : bool;              (* AsyncRestorecon::thread_started_ *)
  ptrace : list PEvent
}.

Definition pemit (ev : PEvent) (s : PropertyServer) : PropertyServer :=
  mkServer (store s) (persistent_properties_loaded s) (accept_messages s)
           (paths_ s) (thread_started_ s) (ptrace s ++ [ev]).

Definition set_store (m : gmap string string) (s : PropertyServer) : PropertyServer :=
  mkServer m (persistent_properties_loaded s) (accept_messages s)
           (paths_ s) (thread_started_ s) (ptrace s).

(** A [std::string] is a [string]; [s.c_str() + n] read back as a string
    stops at the first NUL. *)
Fixpoint c_str (s : string) : string :=
  match s with
  | EmptyString => EmptyString
  | String c s' => if Ascii.eqb c zero then EmptyString else String c (c_str s')
  end.

Fixpoint skip (n : nat) (s : string) : string :=
  match n, s with
  | O, _ => s
  | S n', String _ s' => skip n' s'
  | S _, EmptyString => EmptyString
  end.

Fixpoint no_nul (s : string) : bool :=
  match s with
  | EmptyString => true
  | String c s' => negb (Ascii.eqb c zero) && no_nul s'
  end.

Definition StartsWith (s p : string) : bool := String.prefix p s.

Section PropertyService.
Context `{P : PropertyPlatform}.

Definition SendPropertyChanged (name value : string) (s : PropertyServer) : PropertyServer :=
  pemit (PvSendMessage (ChangedMessage name value)) s.

Definition PropertySet (name value : string) (s : PropertyServer)
  : PropResult * PropertyServer :=
  if negb (IsLegalPropertyName name) then (PROP_ERROR_INVALID_NAME, s)
  else if negb (IsLegalPropertyValue name value) then (PROP_ERROR_INVALID_VALUE, s)
  else
    let stored :=
      match store s !! name with
      | Some _ =>
          if StartsWith name "ro." then inl PROP_ERROR_READ_ONLY_PROPERTY
          else inr (set_store (<[name := value]> (store s)) s)
      | None =>
          if system_property_add_ok (store s) name value
          then inr (set_store (<[name := value]> (store s)) s)
          else inl PROP_ERROR_SET_FAILED
      end in
    match stored with
    | inl err => (err, s)
    | inr s =>
        let s :=
          if persistent_properties_loaded s && StartsWith name "persist."
          then pemit (PvWritePersistentProperty name value) s else s in
        let s := if accept_messages s then SendPropertyChanged name value s else s in
        (PROP_SUCCESS, s)
    end.

(** [AsyncRestorecon::TriggerRestorecon] *)
Definition TriggerRestorecon (path : string) (s : PropertyServer) : PropertyServer :=
  let s := mkServer (store s) (persistent_properties_loaded s) (accept_messages s)
                    (paths_ s ++ [path]) (thread_started_ s) (ptrace s) in
  if negb (thread_started_ s)
  then pemit PvSpawnRestoreconThread
         (mkServer (store s) (persistent_properties_loaded s) (accept_messages s)
                   (paths_ s) true (ptrace s))
  else s.

(** The actions of [AsyncRestorecon::ThreadFunction] on the paths it pops,
    in order: the restorecon of a path, then the property write. *)
Fixpoint ThreadFunction_actions (paths : list string) : list PEvent :=
  match paths with
  | [] => []
  | path :: rest =>
      PvRestorecon path :: PvSetProperty kRestoreconProperty path
        :: ThreadFunction_actions rest
  end.

(** [AsyncRestorecon::ThreadFunction], run on the queue as it stands: it
    drains the queue and clears [thread_started_]. *)
Definition ThreadFunction (s : PropertyServer) : PropertyServer :=
  mkServer (store s) (persistent_properties_loaded s) (accept_messages s)
           [] false (ptrace s ++ ThreadFunction_actions (paths_ s)).

(** [socket] is [None] for a null [SocketConnection*], else its descriptor. *)
Definition SendControlMessage (msg name : string) (pid : Z) (socket : option Z)
    (s : PropertyServer) : PropResult * PropertyServer :=
  if negb (accept_messages s) then (PROP_ERROR_HANDLE_CONTROL_MESSAGE, s)
  else
    let fd :=
      match socket with
      | Some sfd => if SelinuxGetVendorAndroidVersion >? ANDROID_API_Q then Some sfd else None
      | None => None
      end in
    let s := match fd with Some n => pemit (PvRelease n) s | None => s end in
    let m := ControlMessage msg name pid fd in
    let s := pemit (PvSendMessage m) s in
    if negb (SendMessage_ok m)
    then (PROP_ERROR_HANDLE_CONTROL_MESSAGE,
          match fd with Some n => pemit (PvClose n) s | None => s end)
    else (PROP_SUCCESS, s).

Definition CheckMacPerms (target_context : option string) (source_context : string) : bool :=
  match target_context with
  | None => false
  | Some t => selinux_check_access source_context t "property_service" "set"
  end.

Definition CheckControlPropertyPerms (name value source_context : string) : bool :=
  if (String.eqb name "ctl.start" || String.eqb name "ctl.stop"
      || String.eqb name "ctl.restart")
     && CheckMacPerms (fst (GetPropertyInfo ("ctl." +:+ value))) source_context
  then true
  else CheckMacPerms (fst (GetPropertyInfo (name +:+ "$" +:+ value))) source_context.

Definition CheckPermissions (name value source_context : string) : PropResult :=
  if negb (IsLegalPropertyName name) then PROP_ERROR_INVALID_NAME
  else if StartsWith name "ctl." then
    if negb (CheckControlPropertyPerms name value source_context)
    then PROP_ERROR_HANDLE_CONTROL_MESSAGE else PROP_SUCCESS
  else if negb (CheckMacPerms (fst (GetPropertyInfo name)) source_context)
  then PROP_ERROR_PERMISSION_DENIED
  else if negb (CheckType (snd (GetPropertyInfo name)) value)
  then PROP_ERROR_INVALID_VALUE
  else PROP_SUCCESS.

Definition HandlePropertySet (name value source_context : string) (cr : ucred)
    (socket : option Z) (s : PropertyServer) : PropResult * PropertyServer :=
  let ret := CheckPermissions name value source_context in
  if negb (PropResult_eqb ret PROP_SUCCESS) then (ret, s)
  else if StartsWith name "ctl."
  then SendControlMessage (c_str (skip 4 name)) value (cr_pid cr) socket s
  else
    let s :=
      if String.eqb name "sys.powerctl"
      then pemit (PvLogPowerctl value (cr_pid cr)) s else s in
    if String.eqb name kRestoreconProperty && negb (cr_pid cr =? 1)
       && negb (String.eqb value "")
    then (PROP_SUCCESS, TriggerRestorecon value s)
    else PropertySet name value s.

End PropertyService.

(** What the property service may do between two requests of interest:
    handle a client request, set a property on init's behalf, run the
    restorecon worker, or switch its two mode flags (persistent properties
    loaded; start and stop sending messages). *)
Inductive server_step `{P : PropertyPlatform} : PropertyServer -> PropertyServer -> Prop :=
| step_PropertySet (name value : string) (s : PropertyServer) :
    server_step s (snd (PropertySet name value s))
| step_HandlePropertySet (name value source_context : string) (cr : ucred)
    (socket : option Z) (s : PropertyServer) :
    server_step s (snd (HandlePropertySet name value source_context cr socket s))
| step_ThreadFunction (s : PropertyServer) :
    server_step s (ThreadFunction s)
| step_modes (loaded accept : bool) (s : PropertyServer) :
    server_step s (mkServer (store s) loaded accept (paths_ s) (thread_started_ s) (ptrace s)).

(** ** A concrete platform used in examples *)

Definition legal_name_char (c : ascii) : bool :=
  let n := nat_of_ascii c in
  ((97 <=? n) && (n <=? 122) || (65 <=? n) && (n <=? 90) || (48 <=? n) && (n <=? 57)
   || (n =? 46) || (n =? 95) || (n =? 45))%nat.

Fixpoint segments_ok (after_dot : bool) (s : string) : bool :=
  match s with
  | EmptyString => negb after_dot
  | String c s' =>
      if Ascii.eqb c "."%char then negb after_dot && segments_ok true s'
      else legal_name_char c && segments_ok false s'
  end.

(** Modelled from the spec: [IsLegalPropertyName] is not among the sources.
    Sections 3 and 4.4: the alphabet is [A-Za-z0-9._-], the length is at
    most 31, and no segment is empty. *)
Definition IsLegalPropertyName_spec (name : string) : bool :=
  (String.length name <=? 31)%nat && segments_ok true name.

(** Modelled from the spec: [IsLegalPropertyValue] is not among the sources.
    Section 3: a value is a byte string of length at most 91. *)
Definition IsLegalPropertyValue_spec (name value : string) : bool :=
  (String.length value <=? 91)%nat.

(** A platform with the legality checks of the specification, one property
    context, a policy that lets init and the system server set everything,
    a property area that never fills up and an internal socket that never
    fails. *)
Definition sample_platform : PropertyPlatform :=
  {| IsLegalPropertyName := IsLegalPropertyName_spec;
     IsLegalPropertyValue := IsLegalPropertyValue_spec;
     GetPropertyInfo := fun _ => (Some "u:object_r:default_prop:s0", Some "string");
     selinux_check_access := fun source _ _ _ =>
       String.eqb source "u:r:init:s0" || String.eqb source "u:r:system_server:s0";
     CheckType := fun _ _ => true;
     system_property_add_ok := fun _ _ _ => true;
     SelinuxGetVendorAndroidVersion := 30;
     SendMessage_ok := fun _ => true |}.

Definition sample_server (accept : bool) : PropertyServer :=
  mkServer ∅ true accept [] false [].

Fixpoint string_repeat (n : nat) (c : ascii) : string :=
  match n with
  | O => EmptyString
  | S n' => String c (string_repeat n' c)
  end.

Section ControlVocabulary.
Context `{P : PropertyPlatform}.

(** The actions of a control request that is forwarded: the client socket
    is released first when it is handed over (vendor API above Q), then one
    control message goes to init, and the descriptor is closed again if the
    send failed. *)
Definition control_actions (name value : string) (cr : ucred) (socket : option Z)
  : list PEvent :=
  let fd := match socket with
            | Some sfd => if SelinuxGetVendorAndroidVersion >? ANDROID_API_Q
                          then Some sfd else None
            | None => None
            end in
  let m := ControlMessage (skip 4 name) value (cr_pid cr) fd in
  match fd with Some n => [PvRelease n] | None => [] end
  ++ [PvSendMessage m]
  ++ (if SendMessage_ok m then []
      else match fd with Some n => [PvClose n] | None => [] end).

(** Its result code. *)
Definition control_result (name value : string) (cr : ucred) (socket : option Z)
  : PropResult :=
  let fd := match socket with
            | Some sfd => if SelinuxGetVendorAndroidVersion >? ANDROID_API_Q
                          then Some sfd else None
            | None => None
            end in
  if SendMessage_ok (ControlMessage (skip 4 name) value (cr_pid cr) fd)
  then PROP_SUCCESS else PROP_ERROR_HANDLE_CONTROL_MESSAGE.

End ControlVocabulary.

(** ** SocketConnection *)

(** One answer of [poll]: its return value, the milliseconds that elapsed
    around the call, and whether a negative return carried [EINTR]. *)
Record PollAnswer := mkPoll { poll_nr : Z; poll_millis : Z; poll_eintr : bool }.

(** What the client socket answers, call by call: the n-th [poll], and the
    n-th [recv] ([None] for -1, otherwise the bytes the kernel has for us;
    the empty string is the return value 0 of a peer that shut down). *)
Record SocketOracle := mkOracle {
  poll_answer : nat -> PollAnswer;
  recv_answer : nat -> option string
}.

(** How many calls the connection has made so far. *)
Record Conn := mkConn { polls_done : nat; recvs_done : nat }.

Fixpoint take_bytes (n : nat) (s : string) : string :=
  match n, s with
  | S n', String c s' => String c (take_bytes n' s')
  | _, _ => EmptyString
  end.

(** A [uint32_t] read from raw memory, least significant byte first. *)
Fixpoint decode_le (s : string) : Z :=
  match s with
  | EmptyString => 0
  | String c s' => Z.of_nat (nat_of_ascii c) + 256 * decode_le s'
  end.

(** [PollIn].  The loop runs on fuel; [None] means the fuel ran out. *)
Fixpoint PollIn_loop (fuel : nat) (o : SocketOracle) (c : Conn) (timeout_ms : Z)
  : option (bool * Conn * Z) :=
  match fuel with
  | O => None
  | S fuel' =>
      if timeout_ms >? 0 then
        let a := poll_answer o (polls_done c) in
        let c := mkConn (S (polls_done c)) (recvs_done c) in
        let millis := poll_millis a mod 2 ^ 64 in
        let timeout_ms := if millis >? timeout_ms then 0 else timeout_ms - millis in
        if poll_nr a >? 0 then Some (true, c, timeout_ms)
        else if poll_nr a =? 0 then Some (false, c, timeout_ms)
        else if negb (poll_eintr a) then Some (false, c, timeout_ms)
        else PollIn_loop fuel' o c (if timeout_ms >? 0 then timeout_ms - 1 else timeout_ms)
      else Some (false, c, timeout_ms)
  end.

Definition PollIn (o : SocketOracle) (c : Conn) (timeout_ms : Z)
  : option (bool * Conn * Z) :=
  PollIn_loop (S (Z.to_nat timeout_ms)) o c timeout_ms.

(** [RecvFully]: the bytes read on success.  [recv] hands over at most
    [bytes_left] bytes. *)
Fixpoint RecvFully_loop (fuel : nat) (o : SocketOracle) (c : Conn) (bytes_left : nat)
    (data : string) (timeout_ms : Z) : option (option string * Conn * Z) :=
  match fuel with
  | O => None
  | S fuel' =>
      if (timeout_ms >? 0) && negb (bytes_left =? 0)%nat then
        match PollIn o c timeout_ms with
        | None => None
        | Some (false, c, timeout_ms) => Some (None, c, timeout_ms)
        | Some (true, c, timeout_ms) =>
            let answer := recv_answer o (recvs_done c) in
            let c := mkConn (polls_done c) (S (recvs_done c)) in
            match answer with
            | None => Some (None, c, timeout_ms)
            | Some chunk =>
                let got := take_bytes bytes_left chunk in
                if (String.length got =? 0)%nat then Some (None, c, timeout_ms)
                else RecvFully_loop fuel' o c (bytes_left - String.length got)
                                    (data +:+ got) timeout_ms
            end
        end
      else Some (if (bytes_left =? 0)%nat then Some data else None, c, timeout_ms)
  end.

Definition RecvFully (o : SocketOracle) (c : Conn) (size : nat) (timeout_ms : Z)
  : option (option string * Conn * Z) :=
  RecvFully_loop (S size) o c size "" timeout_ms.

Definition RecvUint32 (o : SocketOracle) (c : Conn) (timeout_ms : Z)
  : option (option Z * Conn * Z) :=
  match RecvFully o c 4 timeout_ms with
  | None => None
  | Some (None, c, t) => Some (None, c, t)
  | Some (Some bytes, c, t) => Some (Some (decode_le bytes), c, t)
  end.

Definition RecvChars (o : SocketOracle) (c : Conn) (size : nat) (timeout_ms : Z)
  : option (option string * Conn * Z) :=
  RecvFully o c size timeout_ms.

Definition RecvString (o : SocketOracle) (c : Conn) (timeout_ms : Z)
  : option (option string * Conn * Z) :=
  match RecvUint32 o c timeout_ms with
  | None => None
  | Some (None, c, t) => Some (None, c, t)
  | Some (Some len, c, t) =>
      if len =? 0 then Some (Some "", c, t)
      else if len >? 0xffff then Some (None, c, t)
      else RecvChars o c (Z.to_nat len) t
  end.

(** A peer that sends a length prefix and then the string, each in one
    piece, the socket being ready [m1] and [m2] milliseconds into the two
    polls. *)
Definition prompt_peer (header payload : string) (m1 m2 : Z) : SocketOracle :=
  mkOracle (fun n => match n with O => mkPoll 1 m1 false | _ => mkPoll 1 m2 false end)
           (fun n => match n with O => Some header | _ => Some payload end).

(** A four-byte length prefix. *)
Definition header_of (b0 b1 b2 b3 : nat) : string :=
  String (ascii_of_nat b0) (String (ascii_of_nat b1)
    (String (ascii_of_nat b2) (String (ascii_of_nat b3) EmptyString))).

(** ** Three services a little way into their life *)

(** A temporary one-shot service (as [MakeTemporaryOneshotService] flags
    it) after [ExecStart]. *)
Definition started_temporary : World :=
  final_world (run_op OpExecStart sample_env
                 (sample_world (Z.lor SVC_ONESHOT SVC_TEMPORARY) 0)).

(** A plain service that was started and then stopped; its process has not
    been reaped yet. *)
Definition stopped_running : World :=
  final_world (run_op OpStop sample_env
                 (final_world (run_op OpStart sample_env (sample_world 0 0)))).

(** A service declared [disabled] in its script and then started by hand. *)
Definition started_rc_disabled : World :=
  final_world (run_op OpStart sample_env
                 (sample_world (Z.lor SVC_DISABLED SVC_RC_DISABLED) 0)).

(** ** More of the supervisor *)

(** ** Start of a stopped service *)

(** The security context [Start] runs the service in (lines 382-391): the
    configured [seclabel_], or the one computed from the executable. *)
Definition start_context (e : Env) (w : World) : string + string :=
  if negb (String.eqb (seclabel_ (svc w)) "")
  then inl (seclabel_ (svc w)) else ComputeContextFromExecutable e.

(** The tests of [Start] (lines 334-391) that a service which is not running
    has to pass before the fork. *)
Definition reaches_fork (e : Env) (w : World) : bool :=
  negb (updatable_ (svc w) && negb (services_updated e))
  && negb (has (flags w) SVC_RUNNING)
  && negb (has (flags w) SVC_CONSOLE && (open_console_ret e <? 0))
  && negb (stat_ret e =? -1)
  && match start_context e w with inl _ => true | inr _ => false end.

(** The actions of the parent in a successful [Start], in order. *)
Definition start_events (e : Env) (w : World) : list Event :=
  [if negb (namespace_flags_ (svc w) =? 0)
   then EvClone (namespace_flags_ (svc w)) else EvFork]
  ++ (if negb (oom_score_adjust_ (svc w) =? -1000)
      then [EvWriteOomScoreAdj (fork_ret e) (oom_score_adjust_ (svc w))] else [])
  ++ [EvCreateProcessGroup (uid_ (svc w)) (fork_ret e) (use_memcg_ (svc w))]
  ++ (if has (flags w) SVC_TEMPORARY then []
      else state_property w "running"
           :: (if boottime_unset e
               then [EvPropertySet ("ro.boottime." +:+ name_ (svc w))
                                   (pretty (now e mod 2 ^ 64))]
               else [])).

(** The mask [Start] clears on entry. *)
Definition start_cleared : Z :=
  Z.lor (Z.lor (Z.lor (Z.lor SVC_DISABLED SVC_RESTARTING) SVC_RESET) SVC_RESTART)
        SVC_DISABLED_START.

(** The fork or clone call of [Start] (lines 407-412). *)
Definition fork_event (w : World) : Event :=
  if negb (namespace_flags_ (svc w) =? 0)
  then EvClone (namespace_flags_ (svc w)) else EvFork.

(** What the configuration of a service consists of: the members that only
    the parser writes. *)
Definition config (s : Service) :=
  (name_ s, uid_ s, updatable_ s, seclabel_ s, namespace_flags_ s,
   oom_score_adjust_ s, use_memcg_ s, args_ s).

(** The configuration is kept, and the two permanent marks are not taken
    back. *)
Definition config_kept (w w' : World) : Prop :=
  config (svc w') = config (svc w)
  /\ (pre_apexd_ (svc w) = true -> pre_apexd_ (svc w') = true)
  /\ (running_at_post_data_reset_ (svc w) = true ->
      running_at_post_data_reset_ (svc w') = true).

(** The states a service passes through from [w] on, lifecycle operation by
    lifecycle operation, whatever the operating system answers. *)
Inductive reachable_from (w : World) : World -> Prop :=
| from_here : reachable_from w w
| from_step (w' : World) (op : Op) (e : Env) :
    reachable_from w w' -> reachable_from w (final_world (run_op op e w')).

(** ** The memory limit of a started service *)

(** Lines 478-497 of [Start]: the limit handed to [setProcessGroupLimit],
    in [size_t] arithmetic (64 bits, as [next_start_order_]).  The members
    [limit_in_bytes_] and [limit_percent_] are signed and -1 when unset;
    [page_size] and [num_pages] are the two [sysconf] answers;
    [limit_property] is what [GetUintProperty] parsed from the property named
    by [limit_property_], when that name is set and the property is defined. *)
Definition SIZE_MAX : Z := 2 ^ 64 - 1.

Definition to_size_t (x : Z) : Z := x mod 2 ^ 64.

Definition max_mem (page_size num_pages : Z) : Z :=
  if to_size_t num_pages <? SIZE_MAX / to_size_t page_size
  then to_size_t (to_size_t num_pages * to_size_t page_size)
  else SIZE_MAX.

Definition computed_limit_in_bytes (limit_in_bytes limit_percent page_size num_pages : Z)
    (limit_property : option Z) : Z :=
  let computed := to_size_t limit_in_bytes in
  let computed :=
    if negb (limit_percent =? -1) then
      if (page_size >? 0) && (num_pages >? 0)
      then Z.min computed
             (to_size_t (max_mem page_size num_pages / 100 * to_size_t limit_percent))
      else computed
    else computed in
  match limit_property with
  | Some v => v
  | None => computed
  end.

(** ** exec services *)

(** What [MakeTemporaryOneshotService] passes to the constructor: the members
    of [Service] the supervisor works with, and the two group members of
    [proc_attr_]. *)
Record ExecService := mkExec {
  exec_service : Service;
  exec_gid : Z;
  exec_supp_gids : list Z
}.

(** The index of the first "--" among [args], counting the first of them as
    index [i]. *)
Fixpoint first_dashes (i : nat) (args : list string) : option nat :=
  match args with
  | [] => None
  | a :: rest => if String.eqb a "--" then Some i else first_dashes (S i) rest
  end.

(** Lines 624-630: one past the first "--" after [args[0]], else 1. *)
Definition command_arg (args : list string) : nat :=
  match first_dashes 1 (tl args) with
  | Some i => (i + 1)%nat
  | None => 1%nat
  end.

(** [Join(str_args, " ")] *)
Definition Join (parts : list string) (sep : string) : string := String.concat sep parts.

(** Decode each of the [n] arguments from index [i] on; [None] at the first
    that does not decode. *)
Fixpoint decode_supp_gids (DecodeUid : string -> option Z) (args : list string)
    (i n : nat) : option (list Z) :=
  match n with
  | O => Some []
  | S n' =>
      match DecodeUid (nth i args "") with
      | None => None
      | Some g =>
          match decode_supp_gids DecodeUid args (S i) n' with
          | None => None
          | Some gs => Some (g :: gs)
          end
      end
  end.

(** [MakeTemporaryOneshotService].  [NR_SVC_SUPP_GIDS] and [DecodeUid] are
    declared outside [service.cpp]; [exec_count] is the function's static
    counter, returned with the result ([None] is the null pointer). *)
Definition MakeTemporaryOneshotService (NR_SVC_SUPP_GIDS : nat)
    (DecodeUid : string -> option Z) (exec_count : Z) (args : list string)
  : option ExecService * Z :=
  let command_arg := command_arg args in
  if (4 + NR_SVC_SUPP_GIDS <? command_arg)%nat then (None, exec_count)
  else if (List.length args <=? command_arg)%nat then (None, exec_count)
  else
    let str_args := skipn command_arg args in
    let exec_count := (exec_count + 1) mod 2 ^ 64 in
    let name := "exec " +:+ pretty exec_count +:+ " (" +:+ Join str_args " " +:+ ")" in
    let flags := Z.lor SVC_ONESHOT SVC_TEMPORARY in
    let seclabel :=
      if (2 <? command_arg)%nat && negb (String.eqb (nth 1 args "") "-")
      then nth 1 args "" else "" in
    match (if (3 <? command_arg)%nat then DecodeUid (nth 2 args "") else Some 0) with
    | None => (None, exec_count)
    | Some uid =>
        if (4 <? command_arg)%nat then
          match DecodeUid (nth 3 args "") with
          | None => (None, exec_count)
          | Some gid =>
              match decode_supp_gids DecodeUid args 4 (command_arg - 1 - 4) with
              | None => (None, exec_count)
              | Some supp_gids =>
                  (Some (mkExec (new_Service name flags uid 0 seclabel str_args)
                                gid supp_gids), exec_count)
              end
          end
        else (Some (mkExec (new_Service name flags uid 0 seclabel str_args) 0 []),
              exec_count)
    end.

(** ** More answers and services used in examples *)

(** As [sample_env], but the executable of the service is missing. *)
Definition env_missing_binary : Env :=
  mkEnv true false 3 (-1) (Some "u:r:init:s0") (Some "u:object_r:svc_exec:s0")
        (0, "u:r:svc:s0") true 100 1000 0 false true false.

(** A running service that was started after /data was mounted. *)
Definition post_data_world : World :=
  upd (set_post_data true) (sample_world SVC_RUNNING 100).

(** A [DecodeUid] that knows two names and reads nothing else. *)
Definition sample_DecodeUid (s : string) : option Z :=
  if String.eqb s "root" then Some 0
  else if String.eqb s "shell" then Some 2000
  else None.

(** ** More of the property service *)

(** The actions of a property service that change nothing a client can
    observe in the store or on disk: everything except a persistent write, a
    property-changed message and the start of the restorecon worker. *)
Definition quiet (ev : PEvent) : bool :=
  match ev with
  | PvWritePersistentProperty _ _ => false
  | PvSendMessage (ChangedMessage _ _) => false
  | PvSpawnRestoreconThread => false
  | _ => true
  end.

(** The messages init sends on the internal socket ([InitMessage::msg_case]);
    [UnknownInitMessage] is the [default] branch. *)
Inductive InitMessage :=
| kLoadPersistentProperties
| kStopSendingMessages
| kStartSendingMessages
| UnknownInitMessage.

Definition set_persistent_properties_loaded (b : bool) (s : PropertyServer) : PropertyServer :=
  mkServer (store s) b (accept_messages s) (paths_ s) (thread_started_ s) (ptrace s).

Definition set_accept_messages (b : bool) (s : PropertyServer) : PropertyServer :=
  mkServer (store s) (persistent_properties_loaded s) b (paths_ s) (thread_started_ s)
           (ptrace s).

Section InitSide.
Context `{P : PropertyPlatform}.

(** [kInitContext] is declared outside the sources. *)
Variable kInitContext : string.

Definition InitPropertySet (name value : string) (s : PropertyServer)
  : PropResult * PropertyServer :=
  HandlePropertySet name value kInitContext (mkUcred 1 0 0) None s.

(** The loop over a [std::map] or a list of records that sets each entry and
    only logs a failure. *)
Fixpoint set_each (set : string -> string -> PropertyServer -> PropResult * PropertyServer)
    (entries : list (string * string)) (s : PropertyServer) : PropertyServer :=
  match entries with
  | [] => s
  | (name, value) :: rest => set_each set rest (snd (set name value s))
  end.

(** [load_override_properties]; [local_prop] is what the load of
    /data/local.prop left in the map, in the order the map is walked. *)
Definition load_override_properties (ALLOW_LOCAL_PROP_OVERRIDE : bool)
    (local_prop : list (string * string)) (s : PropertyServer) : PropertyServer :=
  if ALLOW_LOCAL_PROP_OVERRIDE then set_each PropertySet local_prop s else s.

(** [HandleInitSocket].  [message] is [None] when the read or the parse
    failed; [persistent] are the records [LoadPersistentProperties] returns. *)
Definition HandleInitSocket (ALLOW_LOCAL_PROP_OVERRIDE : bool)
    (local_prop persistent : list (string * string)) (message : option InitMessage)
    (s : PropertyServer) : PropertyServer :=
  match message with
  | None => s
  | Some kLoadPersistentProperties =>
      let s := load_override_properties ALLOW_LOCAL_PROP_OVERRIDE local_prop s in
      let s := set_each InitPropertySet persistent s in
      let s := snd (InitPropertySet "ro.persistent_properties.ready" "true" s) in
      set_persistent_properties_loaded true s
  | Some kStopSendingMessages => set_accept_messages false s
  | Some kStartSendingMessages => set_accept_messages true s
  | Some UnknownInitMessage => s
  end.

(** [ProcessKernelCmdline]; [cmdline] is the list of key/value pairs
    [ImportKernelCmdline] calls its argument with. *)
Fixpoint import_androidboot (cmdline : list (string * string)) (for_emulator : bool)
    (s : PropertyServer) : bool * PropertyServer :=
  match cmdline with
  | [] => (for_emulator, s)
  | (key, value) :: rest =>
      if String.eqb key "qemu" then import_androidboot rest true s
      else if StartsWith key "androidboot."
      then import_androidboot rest for_emulator
             (snd (InitPropertySet ("ro.boot." +:+ skip 12 key) value s))
      else import_androidboot rest for_emulator s
  end.

Fixpoint import_kernel (cmdline : list (string * string)) (s : PropertyServer)
  : PropertyServer :=
  match cmdline with
  | [] => s
  | (key, value) :: rest =>
      import_kernel rest (snd (InitPropertySet ("ro.kernel." +:+ key) value s))
  end.

Definition ProcessKernelCmdline (cmdline : list (string * string)) (s : PropertyServer)
  : PropertyServer :=
  let '(for_emulator, s) := import_androidboot cmdline false s in
  if for_emulator then import_kernel cmdline s else s.

End InitSide.

(** Between two states of the property service: the modes and the restorecon
    queue are the same, the trace grew, and nothing was written to the
    persistent store on disk if the persistent properties were not loaded. *)
Definition no_write_back (s s' : PropertyServer) : Prop :=
  persistent_properties_loaded s' = persistent_properties_loaded s
  /\ accept_messages s' = accept_messages s
  /\ paths_ s' = paths_ s /\ thread_started_ s' = thread_started_ s
  /\ exists evs,
       ptrace s' = ptrace s ++ evs
       /\ (persistent_properties_loaded s = false ->
           forall n v, ~ In (PvWritePersistentProperty n v) evs).

(** The stored value of every name outside [Q] is the same in both states. *)
Definition only_changes (Q : string -> bool) (s s' : PropertyServer) : Prop :=
  forall n, Q n = false -> store s' !! n = store s !! n.

(** A kernel command line and a property service used in examples. *)
Definition sample_cmdline : list (string * string) :=
  [("androidboot.serialno", "0123"); ("console", "ttyS0")].

Definition sample_persistent : list (string * string) :=
  [("persist.sys.locale", "en-US")].

(** ** The client socket of the property service *)

(** What the operating system answers while one client request is handled:
    [accept4] ([None] for -1), the peer credentials ([None] when
    [getsockopt] fails), the bytes on the socket, and the peer's security
    context ([None] when [getpeercon] fails). *)
Record Request := mkRequest {
  accept4_ret : option Z;
  peercred : option ucred;
  peer : SocketOracle;
  peercon : option string
}.

Definition kDefaultSocketTimeout : Z := 2000.

(** The events a call added to the trace. *)
Definition new_events (s s' : PropertyServer) : list PEvent :=
  skipn (List.length (ptrace s)) (ptrace s').

(** The connection no longer owns its descriptor: [Release] was called on it
    during the call that took the service from [s] to [s']. *)
Definition socket_released (fd : Z) (s s' : PropertyServer) : bool :=
  existsb (fun ev => match ev with PvRelease n => n =? fd | _ => false end)
          (new_events s s').

Section ClientSocket.
Context `{P : PropertyPlatform}.

(** The protocol constants of bionic's [_system_properties.h], which is not
    among the sources. *)
Variables (PROP_MSG_SETPROP PROP_MSG_SETPROP2 : Z) (PROP_NAME_MAX PROP_VALUE_MAX : nat).

(** A [char] buffer of [size] bytes whose last byte was overwritten with NUL,
    read as a C string. *)
Definition terminated (size : nat) (buf : string) : string :=
  c_str (take_bytes (size - 1) buf).

(** [handle_property_set_fd].  The result is the state of the service and
    the codes [SendUint32] wrote to the client, in order; [SendUint32] writes
    nothing once the descriptor was released.  [None] is a read that ran out
    of fuel. *)
Definition handle_property_set_fd (rq : Request) (s : PropertyServer)
  : option (PropertyServer * list PropResult) :=
  match accept4_ret rq with
  | None => Some (s, [])
  | Some fd =>
      match peercred rq with
      | None => Some (s, [])
      | Some cr =>
          match RecvUint32 (peer rq) (mkConn 0 0) kDefaultSocketTimeout with
          | None => None
          | Some (None, _, _) => Some (s, [PROP_ERROR_READ_CMD])
          | Some (Some cmd, c, timeout_ms) =>
              if cmd =? PROP_MSG_SETPROP then
                match RecvChars (peer rq) c PROP_NAME_MAX timeout_ms with
                | None => None
                | Some (None, _, _) => Some (s, [])
                | Some (Some prop_name, c, timeout_ms) =>
                    match RecvChars (peer rq) c PROP_VALUE_MAX timeout_ms with
                    | None => None
                    | Some (None, _, _) => Some (s, [])
                    | Some (Some prop_value, _, _) =>
                        match peercon rq with
                        | None => Some (s, [])
                        | Some source_context =>
                            Some (snd (HandlePropertySet
                                         (terminated PROP_NAME_MAX prop_name)
                                         (terminated PROP_VALUE_MAX prop_value)
                                         source_context cr None s), [])
                        end
                    end
                end
              else if cmd =? PROP_MSG_SETPROP2 then
                match RecvString (peer rq) c timeout_ms with
                | None => None
                | Some (None, _, _) => Some (s, [PROP_ERROR_READ_DATA])
                | Some (Some name, c, timeout_ms) =>
                    match RecvString (peer rq) c timeout_ms with
                    | None => None
                    | Some (None, _, _) => Some (s, [PROP_ERROR_READ_DATA])
                    | Some (Some value, _, _) =>
                        match peercon rq with
                        | None => Some (s, [PROP_ERROR_PERMISSION_DENIED])
                        | Some source_context =>
                            let r := HandlePropertySet name value source_context cr
                                       (Some fd) s in
                            Some (snd r,
                                  if socket_released fd s (snd r) then [] else [fst r])
                        end
                    end
                end
              else Some (s, [PROP_ERROR_INVALID_CMD])
          end
      end
  end.

End ClientSocket.

(** ** Property files *)

Definition ANDROID_API_P : Z := 28.

Definition newline : ascii := "010"%char.

(** The lines of a buffer that end in a newline, in order and without it;
    what follows the last newline is not a line. *)
Fixpoint lines (data : string) : list string :=
  match data with
  | EmptyString => []
  | String c rest =>
      if Ascii.eqb c newline then EmptyString :: lines rest
      else match lines rest with
           | [] => []
           | l :: ls => String c l :: ls
           end
  end.

(** [strchr]: the text before the first [c], and the text after it. *)
Fixpoint split_at (c : ascii) (s : string) : option (string * string) :=
  match s with
  | EmptyString => None
  | String a s' =>
      if Ascii.eqb a c then Some (EmptyString, s')
      else match split_at c s' with
           | Some (l, r) => Some (String a l, r)
           | None => None
           end
  end.

Fixpoint last_char (s : string) : option ascii :=
  match s with
  | EmptyString => None
  | String c EmptyString => Some c
  | String _ s' => last_char s'
  end.

Fixpoint but_last (s : string) : string :=
  match s with
  | EmptyString => EmptyString
  | String _ EmptyString => EmptyString
  | String c s' => String c (but_last s')
  end.

(** The filter test of [LoadProperties]: no filter loads every key, a
    filter that ends in a star is a prefix match ([strncmp] over
    [flen - 1] bytes), any other is an exact match ([strcmp]). *)
Definition filter_matches (filter key : string) : bool :=
  if (String.length filter =? 0)%nat then true
  else match last_char filter with
       | Some "*"%char => String.prefix (but_last filter) key
       | _ => String.eqb key filter
       end.

(** The names a property file may not set. *)
Definition disallowed (key : string) : bool :=
  StartsWith key "ctl." || String.eqb key "sys.powerctl"
  || String.eqb key kRestoreconProperty.

Section PropertyFiles.
Context `{P : PropertyPlatform}.

(** [isspace] of the C library; [kInitContext] and [kVendorContext],
    [ExpandProps] and [ReadFile] of init, declared outside the sources. *)
Variable isspace : ascii -> bool.
Variables kInitContext kVendorContext : string.
Variable ExpandProps : string -> option string.
Variable ReadFile : string -> option string.

(** [while (isspace( *key)) key++] *)
Fixpoint ltrim (s : string) : string :=
  match s with
  | EmptyString => EmptyString
  | String c s' => if isspace c then ltrim s' else s
  end.

(** The string without the spaces at its end. *)
Fixpoint rtrim (s : string) : string :=
  match s with
  | EmptyString => EmptyString
  | String c s' =>
      match rtrim s' with
      | EmptyString => if isspace c then EmptyString else String c EmptyString
      | r => String c r
      end
  end.

(** [while ((tmp > key) && isspace( *tmp)) *tmp-- = 0], with [tmp] at the
    last character: the spaces at the end are cut, the first character is
    never looked at. *)
Definition trim_tail (key : string) : string :=
  match key with
  | EmptyString => EmptyString
  | String c s' => String c (rtrim s')
  end.

(** The security context the entries of a file are checked against
    (lines 635-642). *)
Definition file_context (filename : string) : string :=
  if SelinuxGetVendorAndroidVersion >=? ANDROID_API_P
  then if StartsWith filename "/vendor" || StartsWith filename "/odm"
       then kVendorContext else kInitContext
  else kInitContext.

(** One turn of the loop of [LoadProperties] (lines 649-720), on a line
    without its newline.  [load_file] is [load_properties_from_file], which
    the import branch calls; its [None] is a call that does not return.  An
    empty [filter] stands for the null pointer as well ([flen] is 0 for
    both). *)
Definition load_line
    (load_file : string -> string -> gmap string string -> option (gmap string string))
    (context filter line : string) (properties : gmap string string)
  : option (gmap string string) :=
  let key := ltrim line in
  match key with
  | String "#"%char _ => Some properties
  | _ =>
      let key := trim_tail key in
      if String.prefix "import " key && (String.length filter =? 0)%nat then
        let fn := ltrim (skip 7 key) in
        let '(fn, key) :=
          match split_at " "%char fn with
          | Some (fn, rest) => (fn, ltrim rest)
          | None => (fn, EmptyString)
          end in
        match ExpandProps fn with
        | None => Some properties
        | Some expanded_filename => load_file (c_str expanded_filename) key properties
        end
      else
        match split_at "="%char key with
        | None => Some properties
        | Some (key, value) =>
            let key := trim_tail key in
            let value := ltrim value in
            if negb (filter_matches filter key) then Some properties
            else if disallowed key then Some properties
            else if PropResult_eqb (CheckPermissions key value context) PROP_SUCCESS
            then Some (<[key := value]> properties)
            else Some properties
        end
  end.

Fixpoint load_lines
    (load_file : string -> string -> gmap string string -> option (gmap string string))
    (context filter : string) (ls : list string) (properties : gmap string string)
  : option (gmap string string) :=
  match ls with
  | [] => Some properties
  | l :: rest =>
      match load_line load_file context filter l properties with
      | None => None
      | Some properties => load_lines load_file context filter rest properties
      end
  end.

(** [LoadProperties]: [data] is a C string, so it ends at its first NUL. *)
Definition LoadProperties
    (load_file : string -> string -> gmap string string -> option (gmap string string))
    (data filter filename : string) (properties : gmap string string)
  : option (gmap string string) :=
  load_lines load_file (file_context filename) filter (lines (c_str data)) properties.

(** [load_properties_from_file]; the recursion through the import lines runs
    on fuel, and [None] means that it ran out. *)
Fixpoint load_properties_from_file (fuel : nat) (filename filter : string)
    (properties : gmap string string) : option (bool * gmap string string) :=
  match fuel with
  | O => None
  | S fuel' =>
      match ReadFile filename with
      | None => Some (false, properties)
      | Some file_contents =>
          match LoadProperties
                  (fun fn flt props =>
                     match load_properties_from_file fuel' fn flt props with
                     | Some (_, props) => Some props
                     | None => None
                     end)
                  (file_contents +:+ String newline EmptyString) filter filename
                  properties with
          | Some properties => Some (true, properties)
          | None => None
          end
      end
  end.

(** An entry a property file may add: not one of the names with a special
    meaning, and permitted to init or to the vendor init. *)
Definition loadable (k v : string) : Prop :=
  disallowed k = false
  /\ (CheckPermissions k v kInitContext = PROP_SUCCESS
      \/ CheckPermissions k v kVendorContext = PROP_SUCCESS).

End PropertyFiles.

(** A step on the map of loaded properties that keeps its entries or adds
    entries that satisfy [ok]. *)
Definition adds_only (ok : string -> string -> Prop)
    (f : gmap string string -> option (gmap string string)) : Prop :=
  forall p p', f p = Some p' ->
    forall k v, p' !! k = Some v -> p !! k = Some v \/ ok k v.

(** [isspace] in the C locale, used in examples. *)
Definition c_isspace (c : ascii) : bool :=
  let n := nat_of_ascii c in ((n =? 32) || (9 <=? n) && (n <=? 13))%nat.

(** A file system with two property files, the first importing the second. *)
Definition sample_files (filename : string) : option string :=
  if String.eqb filename "/system/build.prop"
  then Some ("# begin" +:+ String newline ("ro.a = 1 " +:+ String newline
             ("ctl.start=adbd" +:+ String newline
             ("import /vendor/build.prop" +:+ String newline "ro.a=2"))))
  else if String.eqb filename "/vendor/build.prop"
  then Some ("ro.b=3" +:+ String newline "sys.powerctl=reboot")
  else None.

(** ** Requests used in examples *)

Definition init_context : string := "u:r:init:s0".
Definition vendor_context : string := "u:r:vendor_init:s0".

(** A property service that has not loaded the persistent properties yet. *)
Definition booting_server : PropertyServer := mkServer ∅ false true [] false [].

(** A client whose socket is ready one millisecond into every poll and
    delivers the given pieces, one per [recv]. *)
Definition prompt_pieces (pieces : list string) : SocketOracle :=
  mkOracle (fun _ => mkPoll 1 1 false) (fun n => nth_error pieces n).

(** A legacy request: the command word 1, a 32-byte name buffer and a
    92-byte value buffer. *)
Definition legacy_request : Request :=
  mkRequest (Some 7) (Some (mkUcred 1234 1000 1000))
    (prompt_pieces [header_of 1 0 0 0;
                    "ro.x" +:+ string_repeat 28 zero;
                    "1" +:+ string_repeat 91 zero])
    (Some init_context).

(** A request of the second protocol version (command word 0x00020001):
    two strings, each with its length prefix. *)
Definition setprop2_request : Request :=
  mkRequest (Some 7) (Some (mkUcred 1234 1000 1000))
    (prompt_pieces [header_of 1 0 2 0; header_of 4 0 0 0; "ro.x";
                    header_of 1 0 0 0; "1"])
    (Some init_context).

(** No path waits in the restorecon queue without a worker. *)
Definition queue_served (s : PropertyServer) : Prop :=
  paths_ s <> [] -> thread_started_ s = true.

(** ** Peers that deliver in pieces *)

(** The pieces put together, in the order received. *)
Fixpoint joined (pieces : list string) : string :=
  match pieces with
  | [] => EmptyString
  | piece :: rest => piece +:+ joined rest
  end.

(** From its [p]-th [poll] and [r]-th [recv] on, the peer delivers [pieces]
    one by one: each [poll] reports the socket readable before the budget
    [t] is used up, and each [recv] hands over the next piece, which is not
    empty. *)
Fixpoint delivers (o : SocketOracle) (p r : nat) (t : Z) (pieces : list string) : Prop :=
  match pieces with
  | [] => True
  | piece :: rest =>
      0 < poll_nr (poll_answer o p)
      /\ 0 <= poll_millis (poll_answer o p) < t
      /\ recv_answer o r = Some piece
      /\ piece <> EmptyString
      /\ delivers o (S p) (S r) (t - poll_millis (poll_answer o p)) rest
  end.

(** The budget left after [k] polls from the [p]-th on. *)
Fixpoint budget_after (o : SocketOracle) (p : nat) (t : Z) (k : nat) : Z :=
  match k with
  | O => t
  | S k' => budget_after o (S p) (t - poll_millis (poll_answer o p)) k'
  end.

(** At its [p]-th [poll] and [r]-th [recv] the peer is gone: [poll] times
    out or fails with an error other than EINTR, or the socket is readable
    and [recv] returns -1 or 0. *)
Definition gone (o : SocketOracle) (p r : nat) : Prop :=
  (poll_nr (poll_answer o p) <= 0
   /\ (poll_nr (poll_answer o p) < 0 -> poll_eintr (poll_answer o p) = false))
  \/ (0 < poll_nr (poll_answer o p)
      /\ (recv_answer o r = None \/ recv_answer o r = Some EmptyString)).

(** A peer that answers every [poll] after [millis] milliseconds and hands
    over the given pieces, one per [recv], then shuts down. *)
Definition piecewise_peer (millis : Z) (pieces : list string) : SocketOracle :=
  mkOracle (fun _ => mkPoll 1 millis false)
           (fun n => match nth_error pieces n with
                     | Some piece => Some piece
                     | None => Some EmptyString
                     end).

(* ================================================================== *)
(** * Properties *)
(* ================================================================== *)

(** ** Flag words *)

Lemma has_pow2 (f k : Z) : 0 <= k -> has f (2 ^ k) = Z.testbit f k.
Proof.
  intros Hk. unfold has.
  assert (E : Z.land f (2 ^ k) = if Z.testbit f k then 2 ^ k else 0).
  { apply Z.bits_inj'. intros n Hn.
    rewrite Z.land_spec, Z.pow2_bits_eqb by lia.
    destruct (Z.eqb_spec k n) as [->|Hne].
    - destruct (Z.testbit f n); simpl.
      + rewrite Z.pow2_bits_eqb by lia. symmetry. apply Z.eqb_refl.
      + symmetry. apply Z.bits_0.
    - rewrite andb_false_r. destruct (Z.testbit f k).
      + rewrite Z.pow2_bits_eqb by lia. symmetry. apply Z.eqb_neq. exact Hne.
      + symmetry. apply Z.bits_0. }
  rewrite E. destruct (Z.testbit f k); [|reflexivity].
  assert (0 < 2 ^ k) by (apply Z.pow_pos_nonneg; lia).
  destruct (Z.eqb_spec (2 ^ k) 0); [lia|reflexivity].
Qed.

Lemma has_lor (f a b : Z) : has f (Z.lor a b) = has f a || has f b.
Proof.
  unfold has. rewrite Z.land_lor_distr_r.
  destruct (Z.eqb_spec (Z.land f a) 0) as [Ea|Ea];
  destruct (Z.eqb_spec (Z.land f b) 0) as [Eb|Eb];
  destruct (Z.eqb_spec (Z.lor (Z.land f a) (Z.land f b)) 0) as [E|E];
    try reflexivity; exfalso.
  - apply E. apply Z.lor_eq_0_iff. auto.
  - apply Z.lor_eq_0_iff in E. tauto.
  - apply Z.lor_eq_0_iff in E. tauto.
  - apply Z.lor_eq_0_iff in E. tauto.
Qed.

Lemma has_flag_set (f m b : Z) : has (flag_set f m) b = has f b || has m b.
Proof.
  unfold flag_set, has. rewrite Z.land_lor_distr_l.
  destruct (Z.eqb_spec (Z.land f b) 0) as [Ea|Ea];
  destruct (Z.eqb_spec (Z.land m b) 0) as [Eb|Eb];
  destruct (Z.eqb_spec (Z.lor (Z.land f b) (Z.land m b)) 0) as [E|E];
    try reflexivity; exfalso.
  - apply E. apply Z.lor_eq_0_iff. auto.
  - apply Z.lor_eq_0_iff in E. tauto.
  - apply Z.lor_eq_0_iff in E. tauto.
  - apply Z.lor_eq_0_iff in E. tauto.
Qed.

Lemma has_flag_clear (f m b : Z) :
  single_bit b -> has (flag_clear f m) b = has f b && negb (has m b).
Proof.
  intros (k & Hk & ->). rewrite !has_pow2 by lia.
  unfold flag_clear, to_unsigned.
  rewrite Z.land_spec, Z.mod_pow2_bits_low, Z.lnot_spec by lia.
  reflexivity.
Qed.

Lemma single_bit_pow2 (k : Z) : 0 <= k < 32 -> single_bit (2 ^ k).
Proof. intros Hk. exists k. split; [exact Hk|reflexivity]. Qed.

Ltac bit k := exists k; split; [lia | reflexivity].

Lemma single_bit_DISABLED : single_bit SVC_DISABLED. Proof. bit 0. Qed.
Lemma single_bit_ONESHOT : single_bit SVC_ONESHOT. Proof. bit 1. Qed.
Lemma single_bit_RUNNING : single_bit SVC_RUNNING. Proof. bit 2. Qed.
Lemma single_bit_RESTARTING : single_bit SVC_RESTARTING. Proof. bit 3. Qed.
Lemma single_bit_CONSOLE : single_bit SVC_CONSOLE. Proof. bit 4. Qed.
Lemma single_bit_CRITICAL : single_bit SVC_CRITICAL. Proof. bit 5. Qed.
Lemma single_bit_RESET : single_bit SVC_RESET. Proof. bit 6. Qed.
Lemma single_bit_RC_DISABLED : single_bit SVC_RC_DISABLED. Proof. bit 7. Qed.
Lemma single_bit_RESTART : single_bit SVC_RESTART. Proof. bit 8. Qed.
Lemma single_bit_DISABLED_START : single_bit SVC_DISABLED_START. Proof. bit 9. Qed.
Lemma single_bit_EXEC : single_bit SVC_EXEC. Proof. bit 10. Qed.
Lemma single_bit_TEMPORARY : single_bit SVC_TEMPORARY. Proof. bit 12. Qed.

Create HintDb flags.
#[local] Hint Resolve single_bit_DISABLED single_bit_ONESHOT single_bit_RUNNING
  single_bit_RESTARTING single_bit_CONSOLE single_bit_CRITICAL single_bit_RESET
  single_bit_RC_DISABLED single_bit_RESTART single_bit_DISABLED_START
  single_bit_EXEC single_bit_TEMPORARY single_bit_pow2 : flags.

Lemma has_single (a b : Z) : single_bit a -> single_bit b -> has a b = (b =? a).
Proof.
  intros (j & Hj & ->) (k & Hk & ->).
  rewrite has_pow2, Z.pow2_bits_eqb by lia.
  destruct (Z.eqb_spec j k) as [->|Hjk].
  - symmetry. apply Z.eqb_refl.
  - symmetry. apply Z.eqb_neq. intros E. apply Hjk.
    symmetry. apply (Z.pow_inj_r 2); [lia..|exact E].
Qed.

(** Proof automation: evaluate [has] and [=?] on closed words, push [has]
    through the flag updates, and split on the remaining flag tests. *)
Ltac closed_term a :=
  tryif (match a with context [?v] => is_var v end) then fail else idtac.

Ltac has_closed :=
  repeat match goal with
  | |- context [has ?a ?b] =>
      closed_term a; closed_term b;
      let v := eval vm_compute in (has a b) in
      change (has a b) with v
  | |- context [Z.eqb ?a ?b] =>
      closed_term a; closed_term b;
      let v := eval vm_compute in (Z.eqb a b) in
      change (Z.eqb a b) with v
  end.

Ltac has_norm :=
  repeat first
    [ rewrite has_flag_set
    | rewrite has_flag_clear by auto with flags
    | rewrite has_lor
    | match goal with
      | |- context [has ?a ?b] =>
          closed_term a; is_var b; rewrite (has_single a b) by auto with flags
      end ];
  has_closed.

Ltac has_cases :=
  repeat match goal with
  | |- context [has ?a ?b] => destruct (has a b)
  end.

(** Decide a goal about [has _ b] for a generic single bit [b] by comparing
    [b] with each mask the goal mentions. *)
Ltac solve_bits b :=
  has_norm;
  repeat match goal with
  | |- context [b =? ?c] =>
      destruct (Z.eqb_spec b c) as [->|?];
      [has_closed; has_cases; reflexivity|]
  end;
  has_cases; reflexivity.

Ltac split_ifs :=
  repeat match goal with
  | |- context [if ?c then _ else _] => destruct c
  end.

(** ** Helpers: what the building blocks touch *)

Lemma flags_upd_set_flags (f : Z) (w : World) : flags (upd (set_flags f) w) = f.
Proof. reflexivity. Qed.

Lemma svc_NotifyStateChange (e : Env) (st : string) (w : World) :
  svc (NotifyStateChange e st w) = svc w.
Proof.
  unfold NotifyStateChange.
  destruct (has (flags w) SVC_TEMPORARY); [reflexivity|].
  destruct (String.eqb st "running"); [|reflexivity].
  destruct (boottime_unset e); reflexivity.
Qed.

Lemma flags_NotifyStateChange (e : Env) (st : string) (w : World) :
  flags (NotifyStateChange e st w) = flags w.
Proof. unfold flags. rewrite svc_NotifyStateChange. reflexivity. Qed.

Lemma trace_NotifyStateChange (e : Env) (st : string) (w : World) :
  st <> "running" ->
  trace (NotifyStateChange e st w) = trace w ++ publish w st.
Proof.
  intros Hst. unfold NotifyStateChange, publish.
  destruct (has (flags w) SVC_TEMPORARY); [symmetry; apply app_nil_r|].
  destruct (String.eqb_spec st "running"); [contradiction|reflexivity].
Qed.

Lemma svc_KillProcessGroup (e : Env) (signal : Z) (w : World) :
  svc (KillProcessGroup e signal w) =
    if process_cgroup_empty_ (svc w) then svc w
    else if kill_ret e =? 0 then set_process_cgroup_empty true (svc w) else svc w.
Proof.
  unfold KillProcessGroup.
  destruct (process_cgroup_empty_ (svc w)); [reflexivity|].
  destruct (signal =? SIGTERM); destruct (kill_ret e =? 0); reflexivity.
Qed.

Lemma flags_KillProcessGroup (e : Env) (signal : Z) (w : World) :
  flags (KillProcessGroup e signal w) = flags w.
Proof.
  unfold flags. rewrite svc_KillProcessGroup.
  destruct (process_cgroup_empty_ (svc w)); [reflexivity|].
  destruct (kill_ret e =? 0); reflexivity.
Qed.

Lemma pid_KillProcessGroup (e : Env) (signal : Z) (w : World) :
  pid_ (svc (KillProcessGroup e signal w)) = pid_ (svc w).
Proof.
  rewrite svc_KillProcessGroup.
  destruct (process_cgroup_empty_ (svc w)); [reflexivity|].
  destruct (kill_ret e =? 0); reflexivity.
Qed.

Lemma name_KillProcessGroup (e : Env) (signal : Z) (w : World) :
  name_ (svc (KillProcessGroup e signal w)) = name_ (svc w).
Proof.
  rewrite svc_KillProcessGroup.
  destruct (process_cgroup_empty_ (svc w)); [reflexivity|].
  destruct (kill_ret e =? 0); reflexivity.
Qed.

Lemma trace_KillProcessGroup (e : Env) (signal : Z) (w : World) :
  signal <> SIGTERM ->
  trace (KillProcessGroup e signal w) = trace w ++ kill_events w signal.
Proof.
  intros Hs. unfold KillProcessGroup, kill_events.
  destruct (process_cgroup_empty_ (svc w)); [symmetry; apply app_nil_r|].
  destruct (Z.eqb_spec signal SIGTERM); [contradiction|].
  destruct (kill_ret e =? 0); reflexivity.
Qed.

(** The flag word [StopOrReset] leaves behind, as a function of [how]. *)
Lemma flags_StopOrReset (e : Env) (how : Z) (w : World) :
  flags (StopOrReset e how w) =
    let f := flag_clear (flags w) (Z.lor SVC_RESTARTING SVC_DISABLED_START) in
    if how =? SVC_RESET
    then flag_clear (flag_set f (if has f SVC_RC_DISABLED then SVC_DISABLED else SVC_RESET))
                    SVC_RESTART
    else if how =? SVC_RESTART
    then flag_clear (flag_set f SVC_RESTART) (Z.lor SVC_DISABLED SVC_RESET)
    else flag_clear (flag_set f SVC_DISABLED) SVC_RESTART.
Proof.
  unfold StopOrReset.
  match goal with |- flags (if ?c then _ else _) = _ => destruct c end;
    rewrite flags_NotifyStateChange, ?flags_KillProcessGroup.
  all: destruct (Z.eqb_spec how SVC_RESET) as [->|H1]; [reflexivity|].
  all: destruct (Z.eqb_spec how SVC_RESTART) as [->|H2]; [reflexivity|].
  all: destruct (Z.eqb_spec how SVC_DISABLED) as [->|H3]; reflexivity.
Qed.


Lemma StopOrReset_flags_bit (e : Env) (how : Z) (w : World) (b : Z) :
  single_bit b ->
  has (flags (StopOrReset e how w)) b =
    if (b =? SVC_RESTARTING) || (b =? SVC_DISABLED_START) then false
    else if how =? SVC_RESET then
      if b =? SVC_RESTART then false
      else if b =? SVC_DISABLED
        then has (flags w) SVC_DISABLED || has (flags w) SVC_RC_DISABLED
      else if b =? SVC_RESET
        then has (flags w) SVC_RESET || negb (has (flags w) SVC_RC_DISABLED)
      else has (flags w) b
    else if how =? SVC_RESTART then
      if b =? SVC_RESTART then true
      else if (b =? SVC_DISABLED) || (b =? SVC_RESET) then false
      else has (flags w) b
    else
      if b =? SVC_DISABLED then true
      else if b =? SVC_RESTART then false
      else has (flags w) b.
Proof.
  intros Hb. rewrite flags_StopOrReset. cbv zeta.
  generalize (flags w). intros f.
  destruct (how =? SVC_RESET); [|destruct (how =? SVC_RESTART)].
  - rewrite (has_flag_clear f _ SVC_RC_DISABLED) by auto with flags. has_closed.
    rewrite andb_true_r.
    destruct (has f SVC_RC_DISABLED) eqn:Hrc.
    + has_norm.
      repeat match goal with
      | |- context [b =? ?c] =>
          destruct (Z.eqb_spec b c) as [->|?];
          [has_closed; rewrite ?Hrc; has_cases; reflexivity|]
      end.
      has_cases; reflexivity.
    + has_norm.
      repeat match goal with
      | |- context [b =? ?c] =>
          destruct (Z.eqb_spec b c) as [->|?];
          [has_closed; rewrite ?Hrc; has_cases; reflexivity|]
      end.
      has_cases; reflexivity.
  - solve_bits b.
  - solve_bits b.
Qed.

Lemma svc_StopOrReset_frame (e : Env) (how : Z) (w : World) :
  let s' := svc (StopOrReset e how w) in
  pid_ s' = pid_ (svc w) /\ name_ s' = name_ (svc w) /\
  start_order_ s' = start_order_ (svc w) /\ crash_count_ s' = crash_count_ (svc w).
Proof.
  unfold StopOrReset. cbv zeta.
  repeat match goal with
  | |- context [if ?c then _ else _] => destruct c
  end; rewrite ?svc_NotifyStateChange, ?svc_KillProcessGroup;
  repeat match goal with
  | |- context [if ?c then _ else _] => destruct c
  end; repeat split.
Qed.

Lemma trace_StopOrReset (e : Env) (how : Z) (w : World) :
  trace (StopOrReset e how w) =
    trace w ++
      if pid_ (svc w) =? 0 then publish w "stopped"
      else kill_events w SIGKILL ++ publish w "stopping".
Proof.
  pose proof (flags_StopOrReset e how w) as HF.
  unfold StopOrReset in *. cbv zeta in *.
  set (w1 := if _ =? SVC_RESTART then _ else _) in *.
  assert (Hpid : pid_ (svc w1) = pid_ (svc w)).
  { subst w1. repeat match goal with
    | |- context [if ?c then _ else _] => destruct c end; reflexivity. }
  assert (Hs : trace w1 = trace w /\ name_ (svc w1) = name_ (svc w) /\
               uid_ (svc w1) = uid_ (svc w) /\
               process_cgroup_empty_ (svc w1) = process_cgroup_empty_ (svc w)).
  { subst w1. repeat match goal with
    | |- context [if ?c then _ else _] => destruct c end; repeat split. }
  destruct Hs as (Ht & Hn & Hu & Hc).
  assert (Htmp : has (flags w1) SVC_TEMPORARY = has (flags w) SVC_TEMPORARY).
  { rewrite Hpid in HF.
    destruct (negb (pid_ (svc w) =? 0));
      rewrite flags_NotifyStateChange, ?flags_KillProcessGroup in HF;
      rewrite HF; cbv zeta;
      repeat match goal with
      | |- context [if ?c then _ else _] => destruct c end;
      has_norm; has_cases; reflexivity. }
  rewrite Hpid.
  destruct (pid_ (svc w) =? 0); cbn [negb].
  - rewrite trace_NotifyStateChange by discriminate.
    unfold publish, state_property. rewrite Htmp, Ht, Hn. reflexivity.
  - rewrite trace_NotifyStateChange by discriminate.
    rewrite trace_KillProcessGroup by discriminate.
    unfold publish, state_property, kill_events.
    rewrite flags_KillProcessGroup, name_KillProcessGroup, Htmp, Ht, Hn, Hu, Hc, Hpid.
    rewrite app_assoc. reflexivity.
Qed.

(** ** Helpers: flag words within an [unsigned] *)

Lemma has_false_land (f m : Z) : has f m = false -> Z.land f m = 0.
Proof.
  unfold has. destruct (Z.eqb_spec (Z.land f m) 0); [auto|discriminate].
Qed.

Lemma flag_clear_absent (f m : Z) :
  in_unsigned f -> has f m = false -> flag_clear f m = f.
Proof.
  intros Hf Hm. apply has_false_land in Hm.
  unfold flag_clear, to_unsigned. apply Z.bits_inj'. intros n Hn.
  rewrite Z.land_spec.
  assert (Hb : Z.testbit f n && Z.testbit m n = false).
  { rewrite <- Z.land_spec, Hm. apply Z.bits_0. }
  destruct (Z.lt_ge_cases n 32) as [Hlt|Hge].
  - rewrite Z.mod_pow2_bits_low, Z.lnot_spec by lia.
    destruct (Z.testbit f n), (Z.testbit m n); try reflexivity; discriminate Hb.
  - rewrite Z.mod_pow2_bits_high by lia. rewrite andb_false_r.
    symmetry. rewrite <- (Z.mod_small f (2 ^ 32)) by exact Hf.
    apply Z.mod_pow2_bits_high. lia.
Qed.

Lemma flag_clear_idem (f m : Z) : flag_clear (flag_clear f m) m = flag_clear f m.
Proof. unfold flag_clear. rewrite <- Z.land_assoc, Z.land_diag. reflexivity. Qed.


(** ** Helpers: Reap *)

Ltac bitne := first [solve [auto with flags] | discriminate].

Lemma Reap_prologue_frame (e : Env) (w : World) :
  let w' := Reap_prologue e w in
  pid_ (svc w') = pid_ (svc w) /\ start_order_ (svc w') = start_order_ (svc w) /\
  name_ (svc w') = name_ (svc w) /\ crash_count_ (svc w') = crash_count_ (svc w) /\
  time_crashed_ (svc w') = time_crashed_ (svc w) /\
  pre_apexd_ (svc w') = pre_apexd_ (svc w) /\
  flags w' = (if has (flags w) SVC_EXEC then flag_clear (flags w) SVC_EXEC else flags w) /\
  trace w' = trace w ++
    (if negb (has (flags w) SVC_ONESHOT) || has (flags w) SVC_RESTART
     then kill_events w SIGKILL else []) ++ [EvCleanDescriptors; EvReapCallbacks].
Proof.
  unfold Reap_prologue. cbv zeta.
  destruct (negb (has (flags w) SVC_ONESHOT) || has (flags w) SVC_RESTART).
  - set (k := KillProcessGroup e SIGKILL w).
    assert (Hf : flags k = flags w) by apply flags_KillProcessGroup.
    assert (Ht : trace k = trace w ++ kill_events w SIGKILL)
      by (apply trace_KillProcessGroup; discriminate).
    assert (Hs : svc k = svc w \/ svc k = set_process_cgroup_empty true (svc w)).
    { subst k. rewrite svc_KillProcessGroup. split_ifs; auto. }
    change (flags (emit EvReapCallbacks (emit EvCleanDescriptors k))) with (flags k).
    rewrite Hf.
    destruct (has (flags w) SVC_EXEC); cbn [UnSetExec emit svc trace flags set_flags
      pid_ start_order_ name_ crash_count_ time_crashed_ pre_apexd_ flags_];
      fold (flags k); rewrite ?Hf, Ht, <- !app_assoc;
      destruct Hs as [-> | ->]; repeat split;
      change (flags (emit EvReapCallbacks (emit EvCleanDescriptors k))) with (flags k);
      rewrite Hf; reflexivity.
  - change (flags (emit EvReapCallbacks (emit EvCleanDescriptors w))) with (flags w).
    destruct (has (flags w) SVC_EXEC); repeat split; cbn; rewrite <- ?app_assoc; reflexivity.
Qed.

Lemma Reap_unfold (e : Env) (w : World) :
  Reap e w =
    let w := Reap_prologue e w in
    if has (flags w) SVC_TEMPORARY then Returned Ok w
    else
      let w := upd (set_pid 0) w in
      let w := upd (set_flags (flag_clear (flags w) SVC_RUNNING)) w in
      let w := upd (set_start_order 0) w in
      let w :=
        if has (flags w) SVC_ONESHOT && negb (has (flags w) SVC_RESTART)
           && negb (has (flags w) SVC_RESET)
        then upd (set_flags (flag_set (flags w) SVC_DISABLED)) w else w in
      if has (flags w) (Z.lor SVC_DISABLED SVC_RESET)
      then Returned Ok (NotifyStateChange e "stopped" w)
      else
        match Reap_crash_policy e w with
        | inl w => Aborted w
        | inr w =>
            let w := upd (set_flags (flag_clear (flags w) SVC_RESTART)) w in
            let w := upd (set_flags (flag_set (flags w) SVC_RESTARTING)) w in
            let w := emit EvOnRestart w in
            Returned Ok (NotifyStateChange e "restarting" w)
        end.
Proof. reflexivity. Qed.

Lemma Reap_crash_policy_frame (e : Env) (w w' : World) :
  Reap_crash_policy e w = inl w' \/ Reap_crash_policy e w = inr w' ->
  pid_ (svc w') = pid_ (svc w) /\ start_order_ (svc w') = start_order_ (svc w) /\
  flags w' = flags w /\ name_ (svc w') = name_ (svc w).
Proof.
  unfold Reap_crash_policy. cbv zeta.
  split_ifs; intros [H|H]; inversion H; subst; repeat split.
Qed.

Lemma prologue_bit (e : Env) (w : World) (b : Z) :
  single_bit b ->
  has (flags (Reap_prologue e w)) b = if b =? SVC_EXEC then false else has (flags w) b.
Proof.
  intros Hb. destruct (Reap_prologue_frame e w) as (_ & _ & _ & _ & _ & _ & -> & _).
  generalize (flags w). intros f.
  destruct (has f SVC_EXEC) eqn:Hx.
  - has_norm.
    destruct (Z.eqb_spec b SVC_EXEC) as [->|?]; [has_cases; reflexivity|].
    has_cases; reflexivity.
  - destruct (Z.eqb_spec b SVC_EXEC) as [->|?]; [exact Hx|reflexivity].
Qed.

Ltac finish_policy :=
  match goal with
  | w2 := upd (set_start_order 0) (upd _ (upd _ ?p)),
    F2 : flags ?w2' = _, Hc : forall b, single_bit b -> _, Htmp : has _ SVC_TEMPORARY = false,
    Htc : time_crashed_ _ = _, Htr : trace _ = _, Hname : name_ _ = _ |- _ =>
      eexists; split; [reflexivity|];
      rewrite trace_NotifyStateChange by discriminate;
      unfold publish, state_property;
      rewrite ?svc_NotifyStateChange, ?flags_NotifyStateChange;
      cbn [emit upd svc trace flags flags_ set_flags set_crash_count set_time_crashed
           crash_count_ time_crashed_ name_];
      fold (flags w2); rewrite F2;
      rewrite has_flag_set, has_flag_clear, (Hc SVC_TEMPORARY), Htmp by bitne;
      has_closed; cbn [andb orb];
      change (time_crashed_ (svc w2)) with (time_crashed_ (svc p));
      change (trace w2) with (trace p);
      change (name_ (svc w2)) with (name_ (svc p));
      rewrite ?Htc, Htr, Hname, <- !app_assoc; repeat split
  end.

Lemma Reap_policy_step (e : Env) (w : World) :
  crash_policy_runs e w = true ->
  exists w',
    Reap e w =
      (if in_crash_window e w && (crash_count_ (svc w) + 1 >? 4) && has (flags w) SVC_CRITICAL
       then Aborted w' else Returned Ok w')
    /\ crash_count_ (svc w') =
         (if in_crash_window e w then crash_count_ (svc w) + 1 else 1)
    /\ time_crashed_ (svc w') =
         (if in_crash_window e w then time_crashed_ (svc w) else now e)
    /\ trace w' =
         trace w ++ kill_events w SIGKILL ++ [EvCleanDescriptors; EvReapCallbacks] ++
           (if in_crash_window e w && (crash_count_ (svc w) + 1 >? 4)
            then if has (flags w) SVC_CRITICAL
                 then [EvLogFatal (name_ (svc w))]
                 else [EvPropertySet "ro.init.updatable_crashing" "1";
                       EvOnRestart; state_property w "restarting"]
            else [EvOnRestart; state_property w "restarting"]).
Proof.
  unfold crash_policy_runs. intros H.
  repeat (apply andb_prop in H; destruct H as [H ?]).
  repeat match goal with
  | H : negb _ = true |- _ => apply negb_true_iff in H
  end.
  rename H into Htmp, H4 into Hone, H3 into Hdis, H2 into Hres, H1 into Hrst, H0 into Hupd.
  pose proof (Reap_prologue_frame e w) as Hp. cbv zeta in Hp.
  destruct Hp as (Hpid & Hso & Hname & Hcc & Htc & Hpa & Hfl & Htr).
  rewrite Hone, Hrst in Htr. cbn [negb orb] in Htr.
  assert (Hbit : forall b, single_bit b -> b <> SVC_EXEC ->
            has (flags (Reap_prologue e w)) b = has (flags w) b).
  { intros b Hb Hne. rewrite prologue_bit by exact Hb.
    destruct (Z.eqb_spec b SVC_EXEC); [contradiction|reflexivity]. }
  rewrite Reap_unfold. cbv zeta.
  set (p := Reap_prologue e w) in *.
  rewrite (Hbit SVC_TEMPORARY) by bitne. rewrite Htmp.
  cbn [flags upd svc set_flags set_pid set_start_order flags_].
  fold (flags p).
  assert (Hc : forall b, single_bit b -> b <> SVC_EXEC -> b <> SVC_RUNNING ->
            has (flag_clear (flags p) SVC_RUNNING) b = has (flags w) b).
  { intros b Hb H1 H2. rewrite has_flag_clear by exact Hb.
    rewrite Hbit by assumption. rewrite (has_single SVC_RUNNING b) by auto with flags.
    destruct (Z.eqb_spec b SVC_RUNNING); [contradiction|apply andb_true_r]. }
  rewrite (Hc SVC_ONESHOT), Hone by bitne.
  cbn [andb].
  cbn [flags upd svc set_flags set_pid set_start_order flags_]. fold (flags p).
  rewrite has_lor.
  rewrite (Hc SVC_DISABLED), (Hc SVC_RESET), Hdis, Hres by bitne.
  cbn [orb].
  set (w2 := upd (set_start_order 0) _).
  assert (F2 : flags w2 = flag_clear (flags p) SVC_RUNNING) by reflexivity.
  unfold Reap_crash_policy. cbv zeta.
  rewrite F2, (Hc SVC_CRITICAL), (Hc SVC_RESTART) by bitne.
  change (pre_apexd_ (svc w2)) with (pre_apexd_ (svc p)).
  change (time_crashed_ (svc w2)) with (time_crashed_ (svc p)).
  rewrite Hpa, Htc, Hupd, Hrst. cbn [negb andb].
  unfold in_crash_window.
  destruct ((now e <? time_crashed_ (svc w) + four_minutes) || negb (boot_completed e)).
  - cbn [andb].
    change (crash_count_ (svc (upd (set_crash_count ?c) ?x))) with c.
    change (crash_count_ (svc w2)) with (crash_count_ (svc p)). rewrite Hcc.
    change (flags (upd (set_crash_count ?c) ?x)) with (flags x).
    rewrite F2, (Hc SVC_CRITICAL) by bitne.
    destruct (crash_count_ (svc w) + 1 >? 4); cbn [andb];
      [destruct (has (flags w) SVC_CRITICAL)|].
    + eexists. split; [reflexivity|]. cbn. rewrite Htc, Htr, Hname, <- !app_assoc.
      repeat split.
    + finish_policy.
    + finish_policy.
  - cbn [andb]. finish_policy.
Qed.

Lemma Reap_policy_skipped (e : Env) (w : World) :
  crash_policy_runs e w = false ->
  crash_count_ (svc (final_world (Reap e w))) = crash_count_ (svc w)
  /\ time_crashed_ (svc (final_world (Reap e w))) = time_crashed_ (svc w).
Proof.
  unfold crash_policy_runs. intros H.
  pose proof (Reap_prologue_frame e w) as Hp. cbv zeta in Hp.
  destruct Hp as (_ & _ & _ & Hcc & Htc & Hpa & _ & _).
  assert (Hbit : forall b, single_bit b -> b <> SVC_EXEC ->
            has (flags (Reap_prologue e w)) b = has (flags w) b).
  { intros b Hb Hne. rewrite prologue_bit by exact Hb.
    destruct (Z.eqb_spec b SVC_EXEC); [contradiction|reflexivity]. }
  rewrite Reap_unfold. cbv zeta.
  set (p := Reap_prologue e w) in *.
  rewrite (Hbit SVC_TEMPORARY) by bitne.
  destruct (has (flags w) SVC_TEMPORARY) eqn:Htmp; [cbn [final_world]; auto|].
  cbn [flags upd svc set_flags set_pid set_start_order flags_]. fold (flags p).
  assert (Hc : forall b, single_bit b -> b <> SVC_EXEC -> b <> SVC_RUNNING ->
            has (flag_clear (flags p) SVC_RUNNING) b = has (flags w) b).
  { intros b Hb H1 H2. rewrite has_flag_clear by exact Hb.
    rewrite Hbit by assumption. rewrite (has_single SVC_RUNNING b) by auto with flags.
    destruct (Z.eqb_spec b SVC_RUNNING); [contradiction|apply andb_true_r]. }
  rewrite (Hc SVC_ONESHOT), (Hc SVC_RESTART), (Hc SVC_RESET) by bitne.
  set (w2 := upd (set_start_order 0) _).
  assert (F2 : flags w2 = flag_clear (flags p) SVC_RUNNING) by reflexivity.
  assert (C2 : crash_count_ (svc w2) = crash_count_ (svc w)) by exact Hcc.
  assert (T2 : time_crashed_ (svc w2) = time_crashed_ (svc w)) by exact Htc.
  assert (A2 : pre_apexd_ (svc w2) = pre_apexd_ (svc w)) by exact Hpa.
  clearbody w2.
  destruct (has (flags w) SVC_ONESHOT && negb (has (flags w) SVC_RESTART)
            && negb (has (flags w) SVC_RESET)) eqn:Hos.
  - rewrite flags_upd_set_flags, has_lor, has_flag_set. has_closed.
    rewrite orb_true_r. cbn [orb final_world].
    rewrite svc_NotifyStateChange. auto.
  - rewrite has_lor, F2, (Hc SVC_DISABLED), (Hc SVC_RESET) by bitne.
    destruct (has (flags w) SVC_DISABLED || has (flags w) SVC_RESET) eqn:Hdr.
    + cbn [final_world]. rewrite svc_NotifyStateChange. auto.
    + assert (G : Reap_crash_policy e w2 = inr w2).
      { unfold Reap_crash_policy. cbv zeta.
        rewrite F2, (Hc SVC_CRITICAL), (Hc SVC_RESTART), A2 by bitne.
        apply orb_false_elim in Hdr. destruct Hdr as [Hd Hr].
        rewrite Hd, Hr in H. rewrite Hr in Hos.
        destruct (has (flags w) SVC_ONESHOT), (has (flags w) SVC_RESTART),
                 (has (flags w) SVC_CRITICAL || negb (pre_apexd_ (svc w)) && is_apex_updatable e);
          try reflexivity; discriminate. }
      rewrite G. cbn [final_world]. rewrite svc_NotifyStateChange. auto.
Qed.

Lemma policy_step_quiet (e : Env) (w : World) :
  0 <= crash_count_ (svc w) -> crash_count_ (svc w) + 1 <= 4 ->
  exists w1,
    Reap_crash_policy e w = inr w1 /\ trace w1 = trace w
    /\ 0 <= crash_count_ (svc w1) <= crash_count_ (svc w) + 1.
Proof.
  intros H0 H4. unfold Reap_crash_policy. cbv zeta.
  destruct (_ && negb (has (flags w) SVC_RESTART)).
  - destruct (_ || negb (boot_completed e)).
    + change (crash_count_ (svc (upd (set_crash_count ?c) ?x))) with c.
      rewrite Z.gtb_ltb. destruct (Z.ltb_spec 4 (crash_count_ (svc w) + 1)); [lia|].
      eexists. split; [reflexivity|]. split; [reflexivity|]. cbn. lia.
    + eexists. split; [reflexivity|]. split; [reflexivity|]. cbn. lia.
  - eexists. split; [reflexivity|]. split; [reflexivity|]. lia.
Qed.

Lemma four_crashes_quiet (es : list Env) (w : World) :
  0 <= crash_count_ (svc w) ->
  crash_count_ (svc w) + Z.of_nat (length es) <= 4 ->
  exists w', crashes es w = inr w' /\ trace w' = trace w.
Proof.
  revert w. induction es as [|e es IH]; intros w H0 H4.
  - exists w. split; reflexivity.
  - cbn [length] in H4.
    destruct (policy_step_quiet e w) as (w1 & E & T & C); [lia..|].
    cbn [crashes]. rewrite E.
    destruct (IH w1) as (w' & E' & T'); [lia..|].
    exists w'. split; [exact E'|]. rewrite T'. exact T.
Qed.

Lemma policy_step_in_window (e : Env) (w : World) :
  crash_guard e w = true -> in_crash_window e w = true ->
  Reap_crash_policy e w =
    let w1 := upd (set_crash_count (crash_count_ (svc w) + 1)) w in
    if crash_count_ (svc w) + 1 >? 4
    then if has (flags w) SVC_CRITICAL
         then inl (emit (EvLogFatal (name_ (svc w))) w1)
         else inr (emit (EvPropertySet "ro.init.updatable_crashing" "1") w1)
    else inr w1.
Proof.
  unfold crash_guard, in_crash_window, Reap_crash_policy. intros -> ->. reflexivity.
Qed.

Lemma policy_step_first (e : Env) (w : World) :
  crash_guard e w = true -> crash_count_ (svc w) = 0 ->
  Reap_crash_policy e w =
    inr (if in_crash_window e w then upd (set_crash_count 1) w
         else upd (set_crash_count 1) (upd (set_time_crashed (now e)) w)).
Proof.
  unfold crash_guard, in_crash_window, Reap_crash_policy. intros -> H0. cbv zeta.
  destruct (_ || negb (boot_completed e)); [|reflexivity].
  change (crash_count_ (svc (upd (set_crash_count ?c) ?x))) with c.
  rewrite H0. reflexivity.
Qed.

Lemma fifth_crash_triggers (e1 e2 e3 e4 e5 : Env) (w : World) :
  crash_count_ (svc w) = 0 ->
  Forall (fun e => crash_guard e w = true) [e1; e2; e3; e4; e5] ->
  Forall (fun e => (now e <?
                      (if in_crash_window e1 w then time_crashed_ (svc w) else now e1)
                      + four_minutes) || negb (boot_completed e) = true)
         [e2; e3; e4; e5] ->
  exists w',
    crashes [e1; e2; e3; e4; e5] w = (if has (flags w) SVC_CRITICAL then inl w' else inr w')
    /\ crash_count_ (svc w') = 5
    /\ trace w' = trace w ++
         [if has (flags w) SVC_CRITICAL then EvLogFatal (name_ (svc w))
          else EvPropertySet "ro.init.updatable_crashing" "1"].
Proof.
  intros H0 Hg Hw.
  repeat match goal with
  | H : Forall _ (_ :: _) |- _ => apply Forall_cons_1 in H; destruct H as [? H]
  end.
  cbn [crashes]. rewrite policy_step_first by assumption.
  set (w1 := if in_crash_window e1 w then _ else _).
  assert (P1 : flags w1 = flags w /\ pre_apexd_ (svc w1) = pre_apexd_ (svc w) /\
               name_ (svc w1) = name_ (svc w) /\ trace w1 = trace w /\
               crash_count_ (svc w1) = 1 /\
               time_crashed_ (svc w1) =
                 if in_crash_window e1 w then time_crashed_ (svc w) else now e1).
  { subst w1. destruct (in_crash_window e1 w); repeat split. }
  clearbody w1. destruct P1 as (F & A & N & T & C & TC).
  assert (step : forall e wk, crash_guard e w = true ->
            (now e <? (if in_crash_window e1 w then time_crashed_ (svc w) else now e1)
                      + four_minutes) || negb (boot_completed e) = true ->
            flags wk = flags w -> pre_apexd_ (svc wk) = pre_apexd_ (svc w) ->
            time_crashed_ (svc wk) =
              (if in_crash_window e1 w then time_crashed_ (svc w) else now e1) ->
            crash_guard e wk = true /\ in_crash_window e wk = true).
  { intros e wk G W Fk Ak Tk. unfold crash_guard, in_crash_window in *.
    rewrite Fk, Ak, Tk. auto. }
  destruct (step e2 w1) as [G2 W2]; try assumption.
  rewrite (policy_step_in_window e2 w1 G2 W2). cbv zeta. rewrite C. change (1 + 1 >? 4) with false. cbv iota.
  set (w2 := upd (set_crash_count (1 + 1)) w1).
  destruct (step e3 w2) as [G3 W3]; try assumption.
  rewrite (policy_step_in_window e3 w2 G3 W3). cbv zeta.
  change (crash_count_ (svc w2)) with 2. change (2 + 1 >? 4) with false. cbv iota.
  set (w3 := upd (set_crash_count (2 + 1)) w2).
  destruct (step e4 w3) as [G4 W4]; try assumption.
  rewrite (policy_step_in_window e4 w3 G4 W4). cbv zeta.
  change (crash_count_ (svc w3)) with 3. change (3 + 1 >? 4) with false. cbv iota.
  set (w4 := upd (set_crash_count (3 + 1)) w3).
  destruct (step e5 w4) as [G5 W5]; try assumption.
  rewrite (policy_step_in_window e5 w4 G5 W5). cbv zeta.
  change (crash_count_ (svc w4)) with 4. change (4 + 1 >? 4) with true. cbv iota.
  change (flags w4) with (flags w1). rewrite F.
  change (name_ (svc w4)) with (name_ (svc w1)). rewrite N.
  destruct (has (flags w) SVC_CRITICAL); eexists; (split; [reflexivity|]);
    (split; [reflexivity|]); cbn; rewrite T; reflexivity.
Qed.

(** ** Helpers: Reap of a temporary service, and of any other *)

Lemma Reap_temporary_cases (e : Env) (w : World) :
  (has (flags w) SVC_TEMPORARY = true ->
   exists w',
     Reap e w = Returned Ok w'
     /\ pid_ (svc w') = pid_ (svc w)
     /\ start_order_ (svc w') = start_order_ (svc w)
     /\ (forall b, single_bit b ->
           has (flags w') b = if b =? SVC_EXEC then false else has (flags w) b)
     /\ trace w' = trace w ++
          (if negb (has (flags w) SVC_ONESHOT) || has (flags w) SVC_RESTART
           then kill_events w SIGKILL else []) ++ [EvCleanDescriptors; EvReapCallbacks])
  /\ (has (flags w) SVC_TEMPORARY = false ->
      pid_ (svc (final_world (Reap e w))) = 0
      /\ has (flags (final_world (Reap e w))) SVC_RUNNING = false
      /\ start_order_ (svc (final_world (Reap e w))) = 0).
Proof.
  pose proof (Reap_prologue_frame e w) as Hp. cbv zeta in Hp.
  destruct Hp as (Hpid & Hso & _ & _ & _ & _ & _ & Htr).
  pose proof (prologue_bit e w SVC_TEMPORARY single_bit_TEMPORARY) as Htmp.
  change (SVC_TEMPORARY =? SVC_EXEC) with false in Htmp. cbv iota in Htmp.
  rewrite Reap_unfold. cbv zeta.
  split; intros Ht; rewrite Ht in Htmp; rewrite Htmp.
  - exists (Reap_prologue e w). repeat split; try assumption.
    intros b Hb. apply prologue_bit. exact Hb.
  - set (p := Reap_prologue e w).
    set (w1 := upd (set_start_order 0) _).
    assert (H1 : pid_ (svc w1) = 0 /\ has (flags w1) SVC_RUNNING = false
                 /\ start_order_ (svc w1) = 0).
    { subst w1. repeat split. cbn [upd svc flags flags_ set_start_order set_flags].
      has_norm. apply andb_false_r. }
    destruct H1 as (A & B & C).
    set (w2 := if _ && _ && _ then _ else w1).
    assert (H2 : pid_ (svc w2) = 0 /\ has (flags w2) SVC_RUNNING = false
                 /\ start_order_ (svc w2) = 0).
    { subst w2. destruct (_ && _ && _); [|auto].
      repeat split; try assumption. rewrite flags_upd_set_flags. has_norm.
      rewrite B. reflexivity. }
    clearbody w2. clear A B C. destruct H2 as (A & B & C).
    destruct (has (flags w2) (Z.lor SVC_DISABLED SVC_RESET)).
    + cbn [final_world]. rewrite flags_NotifyStateChange, svc_NotifyStateChange. auto.
    + destruct (Reap_crash_policy e w2) as [w3|w3] eqn:Hcp.
      * destruct (Reap_crash_policy_frame e w2 w3 (or_introl Hcp)) as (P & Q & R & _).
        cbn [final_world]. rewrite P, Q, R. auto.
      * destruct (Reap_crash_policy_frame e w2 w3 (or_intror Hcp)) as (P & Q & R & _).
        cbn [final_world]. rewrite flags_NotifyStateChange, svc_NotifyStateChange.
        cbn [emit upd svc flags flags_ set_flags pid_ start_order_].
        fold (flags w3). rewrite P, Q, R. repeat split; try assumption.
        has_norm. rewrite B. reflexivity.
Qed.

(** ** Helpers: RUNNING and the pid move together *)

Lemma keeps_refl (w : World) : keeps w w.
Proof. split; reflexivity. Qed.

Lemma keeps_trans (w1 w2 w3 : World) : keeps w1 w2 -> keeps w2 w3 -> keeps w1 w3.
Proof. intros [A B] [C D]. split; congruence. Qed.

Lemma keeps_moves (w1 w2 w3 : World) : keeps w1 w2 -> moves w2 w3 -> moves w1 w3.
Proof.
  intros K [M|[M|M]]; [left; eapply keeps_trans; eassumption|right; left; exact M|
                       right; right; exact M].
Qed.

Lemma moves_keeps (w1 w2 w3 : World) : moves w1 w2 -> keeps w2 w3 -> moves w1 w3.
Proof.
  intros [M|[[A B]|[A B]]] [C D].
  - left. eapply keeps_trans; [exact M|split; assumption].
  - right; left. split; congruence.
  - right; right. split; [congruence|lia].
Qed.

Lemma moves_invariant (w w' : World) :
  running_iff_pid w -> moves w w' -> running_iff_pid w'.
Proof.
  unfold running_iff_pid. intros [I P] [[A B]|[[A B]|[A B]]].
  - rewrite A, B. split; assumption.
  - rewrite A, B. split; [|lia]. split; [discriminate|congruence].
  - rewrite A. split; [|lia]. split; [lia|reflexivity].
Qed.

Lemma keeps_clear (w : World) (m : Z) :
  has m SVC_RUNNING = false ->
  keeps w (upd (set_flags (flag_clear (flags w) m)) w).
Proof.
  intros Hm. split; [|reflexivity].
  rewrite flags_upd_set_flags, has_flag_clear, Hm by auto with flags. apply andb_true_r.
Qed.

Lemma keeps_set (w : World) (m : Z) :
  has m SVC_RUNNING = false ->
  keeps w (upd (set_flags (flag_set (flags w) m)) w).
Proof.
  intros Hm. split; [|reflexivity].
  rewrite flags_upd_set_flags, has_flag_set, Hm. apply orb_false_r.
Qed.

Lemma keeps_NotifyStateChange (e : Env) (st : string) (w : World) :
  keeps w (NotifyStateChange e st w).
Proof.
  split; [rewrite flags_NotifyStateChange|rewrite svc_NotifyStateChange]; reflexivity.
Qed.

Lemma keeps_KillProcessGroup (e : Env) (signal : Z) (w : World) :
  keeps w (KillProcessGroup e signal w).
Proof.
  split; [rewrite flags_KillProcessGroup; reflexivity|apply pid_KillProcessGroup].
Qed.

Lemma keeps_StopOrReset (e : Env) (how : Z) (w : World) : keeps w (StopOrReset e how w).
Proof.
  split; [|apply svc_StopOrReset_frame].
  rewrite StopOrReset_flags_bit by auto with flags.
  has_closed. cbn [orb]. split_ifs; reflexivity.
Qed.

Lemma keeps_Terminate (e : Env) (w : World) : keeps w (Terminate e w).
Proof.
  unfold Terminate. cbv zeta.
  set (w1 := upd (set_flags (flag_clear _ _)) w).
  set (w2 := upd (set_flags (flag_set _ _)) w1).
  assert (K : keeps w w2).
  { eapply keeps_trans; [apply keeps_clear|apply keeps_set]; reflexivity. }
  destruct (negb (pid_ (svc w2) =? 0)); [|exact K].
  eapply keeps_trans; [exact K|].
  eapply keeps_trans; [apply keeps_KillProcessGroup|apply keeps_NotifyStateChange].
Qed.

Lemma keeps_Timeout (e : Env) (w : World) : keeps w (Timeout e w).
Proof.
  unfold Timeout. destruct (negb (pid_ (svc w) =? 0)); [|apply keeps_refl].
  eapply keeps_trans; [apply keeps_KillProcessGroup|apply keeps_NotifyStateChange].
Qed.

Lemma moves_Start_fork (e : Env) (w : World) :
  has (flags w) SVC_RUNNING = false -> moves w (final_world (Start_fork e w)).
Proof.
  intros Hr. unfold Start_fork. cbv zeta.
  set (w0 := if negb (namespace_flags_ (svc w) =? 0) then _ else _).
  assert (H0 : flags w0 = flags w /\ pid_ (svc w0) = pid_ (svc w)).
  { subst w0. destruct (negb _); split; reflexivity. }
  destruct H0 as (F0 & P0). clearbody w0.
  destruct (Z.eqb_spec (fork_ret e) 0) as [E0|N0].
  - left. cbn [final_world]. split; [rewrite F0|rewrite P0]; reflexivity.
  - destruct (Z.ltb_spec (fork_ret e) 0) as [Lt|Ge].
    + right; left. cbn [final_world]. split; [|reflexivity].
      change (flags (upd (set_pid 0) w0)) with (flags w0). rewrite F0. exact Hr.
    + right; right. cbn [final_world].
      rewrite flags_NotifyStateChange, svc_NotifyStateChange.
      split.
      * destruct (negb (oom_score_adjust_ (svc w0) =? -1000));
          cbn [emit upd svc flags flags_ set_flags set_pid set_time_started
               set_start_order set_process_cgroup_empty];
          has_norm; apply orb_true_r.
      * destruct (negb (oom_score_adjust_ (svc w0) =? -1000)); cbn; lia.
Qed.

Lemma moves_Start (e : Env) (w : World) : moves w (final_world (Start e w)).
Proof.
  unfold Start.
  destruct (updatable_ (svc w) && negb (services_updated e)).
  { left. split; reflexivity. }
  cbv zeta.
  set (w1 := upd (set_flags (flag_clear _ _)) w).
  assert (K1 : keeps w w1) by (apply keeps_clear; reflexivity).
  apply (keeps_moves _ _ _ K1). clearbody w1. clear K1.
  destruct (has (flags w1) SVC_RUNNING) eqn:Hr.
  { cbn [final_world]. left.
    destruct (_ && _); [apply keeps_set; reflexivity|apply keeps_refl]. }
  set (w2 := if _ && String.eqb _ _ then _ else w1).
  assert (K2 : keeps w1 w2).
  { subst w2. destruct (_ && _); [split; reflexivity|apply keeps_refl]. }
  assert (Hr2 : has (flags w2) SVC_RUNNING = false) by (rewrite (proj1 K2); exact Hr).
  apply (keeps_moves _ _ _ K2). clearbody w2. clear K2.
  destruct (_ && (open_console_ret e <? 0)).
  { left. cbn [final_world]. apply keeps_set. reflexivity. }
  destruct (stat_ret e =? -1).
  { left. cbn [final_world]. apply keeps_set. reflexivity. }
  destruct (if negb _ then _ else _) as [scon|msg].
  2: { left. apply keeps_refl. }
  match goal with |- moves _ (final_world (Start_fork e ?x)) => set (w3 := x) end.
  assert (K3 : keeps w2 w3).
  { subst w3. destruct (_ && _); split; reflexivity. }
  apply (keeps_moves _ _ _ K3). apply moves_Start_fork.
  rewrite (proj1 K3). exact Hr2.
Qed.

Lemma moves_Reap (e : Env) (w : World) : moves w (final_world (Reap e w)).
Proof.
  destruct (Reap_temporary_cases e w) as [T N].
  destruct (has (flags w) SVC_TEMPORARY) eqn:Ht.
  - destruct (T eq_refl) as (w' & E & P & _ & B & _). rewrite E. cbn [final_world].
    left. split; [|exact P]. rewrite B by auto with flags. reflexivity.
  - destruct (N eq_refl) as (P & R & _). right; left. split; assumption.
Qed.

Lemma moves_run_op (op : Op) (e : Env) (w : World) :
  moves w (final_world (run_op op e w)).
Proof.
  destruct op; cbn [run_op final_world].
  - apply moves_Start.
  - unfold ExecStart.
    destruct (updatable_ (svc w) && negb (services_updated e)); [left; apply keeps_refl|].
    cbv zeta. set (w1 := upd _ w).
    assert (K : keeps w w1) by (apply keeps_set; reflexivity).
    apply (keeps_moves _ _ _ K).
    pose proof (moves_Start e w1) as M.
    destruct (Start e w1) as [[|er] w2|w2|w2]; cbn [final_world] in *; try exact M.
    eapply moves_keeps; [exact M|].
    split; [|reflexivity].
    cbn [flags svc upd set_flags flags_]. fold (flags w2).
    rewrite has_flag_set. has_closed. apply orb_false_r.
  - unfold StartIfNotDisabled. destruct (negb _); [apply moves_Start|].
    left. apply keeps_set. reflexivity.
  - unfold Enable. cbv zeta. set (w1 := upd _ w).
    assert (K : keeps w w1) by (apply keeps_clear; reflexivity).
    apply (keeps_moves _ _ _ K).
    destruct (has (flags w1) SVC_DISABLED_START); [apply moves_Start|left; apply keeps_refl].
  - left. apply keeps_StopOrReset.
  - left. unfold ResetIfPostData. destruct (post_data_ (svc w)); [|apply keeps_refl].
    eapply keeps_trans; [|apply keeps_StopOrReset].
    destruct (has (flags w) SVC_RUNNING); split; reflexivity.
  - unfold StartIfPostData.
    destruct (running_at_post_data_reset_ (svc w)); [apply moves_Start|left; apply keeps_refl].
  - left. apply keeps_StopOrReset.
  - left. apply keeps_Terminate.
  - left. apply keeps_Timeout.
  - unfold Restart. destruct (has (flags w) SVC_RUNNING).
    + left. apply keeps_StopOrReset.
    + destruct (negb (has (flags w) SVC_RESTARTING)); [|left; apply keeps_refl].
      pose proof (moves_Start e w) as M.
      destruct (Start e w) as [r w2|w2|w2]; exact M.
  - left. apply keeps_StopOrReset.
  - apply moves_Reap.
Qed.

Lemma new_Service_initial (name : string) (f uid ns : Z) (seclabel : string)
    (args : list string) (order : Z) (exec_running : bool) (tr : list Event) :
  has f SVC_RUNNING = false ->
  initial (mkWorld (new_Service name f uid ns seclabel args) order exec_running tr).
Proof. intros H. split; [reflexivity|exact H]. Qed.

Lemma reachable_running_iff_pid (w : World) : reachable w -> running_iff_pid w.
Proof.
  induction 1 as [w [P R]|w op e _ IH].
  - split; [|lia]. rewrite R, P. split; [discriminate|congruence].
  - eapply moves_invariant; [exact IH|apply moves_run_op].
Qed.

(** ** StopOrReset *)

(** C1, as the code has it.  For every service, every [how] and every flag
    bit [b]: [StopOrReset] clears RESTARTING and DISABLED_START; with
    [how = RESET] it sets DISABLED if RC_DISABLED is set and RESET otherwise,
    and clears RESTART; with [how = RESTART] it sets RESTART and clears
    DISABLED and RESET; with any other [how] (DISABLED included) it sets
    DISABLED and clears RESTART; every other flag, and the pid, are left
    alone.  Afterwards, if [pid != 0] it calls KillProcessGroup(SIGKILL),
    which signals the group unless the cgroup is already known to be empty,
    and then notifies "stopping"; otherwise it notifies "stopped"; the
    notification publishes [init.svc.<name>] only when the service is not
    TEMPORARY. *)
Theorem StopOrReset_transition (e : Env) (how : Z) (w : World) (b : Z) :
  single_bit b ->
  has (flags (StopOrReset e how w)) b =
    (if (b =? SVC_RESTARTING) || (b =? SVC_DISABLED_START) then false
     else if how =? SVC_RESET then
       if b =? SVC_RESTART then false
       else if b =? SVC_DISABLED
         then has (flags w) SVC_DISABLED || has (flags w) SVC_RC_DISABLED
       else if b =? SVC_RESET
         then has (flags w) SVC_RESET || negb (has (flags w) SVC_RC_DISABLED)
       else has (flags w) b
     else if how =? SVC_RESTART then
       if b =? SVC_RESTART then true
       else if (b =? SVC_DISABLED) || (b =? SVC_RESET) then false
       else has (flags w) b
     else
       if b =? SVC_DISABLED then true
       else if b =? SVC_RESTART then false
       else has (flags w) b)
  /\ (how <> SVC_RESET -> how <> SVC_RESTART ->
      StopOrReset e how w = StopOrReset e SVC_DISABLED w)
  /\ pid_ (svc (StopOrReset e how w)) = pid_ (svc w)
  /\ trace (StopOrReset e how w) =
       trace w ++
         (if pid_ (svc w) =? 0 then publish w "stopped"
          else kill_events w SIGKILL ++ publish w "stopping").
Proof.
  intros Hb. split; [|split; [|split]].
  - apply StopOrReset_flags_bit. exact Hb.
  - intros H1 H2. unfold StopOrReset.
    destruct (Z.eqb_spec how SVC_RESET); [contradiction|].
    destruct (Z.eqb_spec how SVC_RESTART); [contradiction|].
    destruct (Z.eqb_spec how SVC_DISABLED) as [->|H3]; reflexivity.
  - apply svc_StopOrReset_frame.
  - apply trace_StopOrReset.
Qed.

Lemma StopOrReset_transition_witness :
  single_bit SVC_RESET /\
  has (flags (StopOrReset sample_env SVC_RESET (sample_world SVC_RUNNING 100))) SVC_RESET
    = true /\
  trace (StopOrReset sample_env SVC_RESET (sample_world SVC_RUNNING 100)) =
    [EvKillProcessGroup 0 100 SIGKILL; EvPropertySet "init.svc.svc" "stopping"].
Proof.
  split; [apply single_bit_RESET|].
  destruct (StopOrReset_transition sample_env SVC_RESET (sample_world SVC_RUNNING 100)
              SVC_RESET single_bit_RESET) as (Hf & _ & _ & Ht).
  split; [rewrite Hf; reflexivity | rewrite Ht; reflexivity].
Defined.

(** C1 as stated fails on a TEMPORARY service: started by [ExecStart] and
    then stopped with a live pid, its group is signalled but no state
    property is published. *)
Lemma StopOrReset_temporary_no_publication :
  reachable started_temporary /\
  pid_ (svc started_temporary) = 100 /\
  trace (StopOrReset sample_env SVC_DISABLED started_temporary)
    = trace started_temporary ++ [EvKillProcessGroup 0 100 SIGKILL] /\
  ~ In (EvPropertySet ("init.svc." +:+ name_ (svc started_temporary)) "stopping")
       (trace (StopOrReset sample_env SVC_DISABLED started_temporary)).
Proof.
  split; [apply reach_step, reach_initial; split; reflexivity|].
  split; [vm_compute; reflexivity|]. split; [vm_compute; reflexivity|].
  assert (E : trace (StopOrReset sample_env SVC_DISABLED started_temporary) =
              [EvFork; EvCreateProcessGroup 0 100 false; EvKillProcessGroup 0 100 SIGKILL])
    by (vm_compute; reflexivity).
  rewrite E. intros [H|[H|[H|[]]]]; discriminate H.
Qed.

(** ** Enable *)

(** C9, as the code has it.  For every service whose DISABLED flag is clear
    and that has no start request latched (DISABLED_START clear), [Enable]
    does not call [Start] and performs no action; it clears RC_DISABLED and
    leaves every other flag unchanged; applying it again changes nothing
    (idempotent); and when RC_DISABLED is clear as well the service is left
    exactly as it was. *)
Theorem Enable_not_disabled (e : Env) (w : World) :
  has (flags w) SVC_DISABLED = false ->
  has (flags w) SVC_DISABLED_START = false ->
  let w' := upd (set_flags (flag_clear (flags w) (Z.lor SVC_DISABLED SVC_RC_DISABLED))) w in
  Enable e w = Returned Ok w'
  /\ (forall b, single_bit b ->
        has (flags w') b = if b =? SVC_RC_DISABLED then false else has (flags w) b)
  /\ trace w' = trace w
  /\ Enable e w' = Returned Ok w'
  /\ (in_unsigned (flags w) -> has (flags w) SVC_RC_DISABLED = false ->
      Enable e w = Returned Ok w).
Proof.
  intros Hd Hs w'.
  assert (Hbits : forall b, single_bit b ->
        has (flags w') b = if b =? SVC_RC_DISABLED then false else has (flags w) b).
  { intros b Hb. subst w'. rewrite flags_upd_set_flags.
    generalize dependent (flags w). intros f Hd Hs.
    has_norm.
    destruct (Z.eqb_spec b SVC_RC_DISABLED) as [->|?]; [has_closed; has_cases; reflexivity|].
    destruct (Z.eqb_spec b SVC_DISABLED) as [->|?]; [rewrite Hd; reflexivity|].
    has_cases; reflexivity. }
  assert (Hst : has (flags w') SVC_DISABLED_START = false).
  { rewrite Hbits by auto with flags. exact Hs. }
  assert (E1 : Enable e w = Returned Ok w').
  { unfold Enable. fold w'. rewrite Hst. reflexivity. }
  split; [exact E1|]. split; [exact Hbits|]. split; [reflexivity|]. split.
  - unfold Enable.
    assert (Hw : upd (set_flags (flag_clear (flags w') (Z.lor SVC_DISABLED SVC_RC_DISABLED))) w' = w').
    { subst w'. rewrite flags_upd_set_flags, flag_clear_idem. reflexivity. }
    rewrite Hw, Hst. reflexivity.
  - intros Hu Hrc. rewrite E1. f_equal. subst w'.
    rewrite flag_clear_absent; [destruct w as [[] ? ? ?]; reflexivity|exact Hu|].
    rewrite has_lor, Hd, Hrc. reflexivity.
Qed.

Lemma Enable_not_disabled_witness :
  has (flags (sample_world (Z.lor SVC_RUNNING SVC_RC_DISABLED) 100)) SVC_DISABLED = false /\
  has (flags (sample_world (Z.lor SVC_RUNNING SVC_RC_DISABLED) 100)) SVC_DISABLED_START = false /\
  Enable sample_env (sample_world (Z.lor SVC_RUNNING SVC_RC_DISABLED) 100) =
    Returned Ok (sample_world SVC_RUNNING 100).
Proof.
  split; [reflexivity|]. split; [reflexivity|].
  rewrite (proj1 (Enable_not_disabled sample_env
             (sample_world (Z.lor SVC_RUNNING SVC_RC_DISABLED) 100) eq_refl eq_refl)).
  reflexivity.
Defined.

(** C9 as stated fails on a service that was declared disabled and then
    started by hand: DISABLED is clear, and [Enable] changes the flags (it
    clears RC_DISABLED). *)
Lemma Enable_changes_flags :
  reachable started_rc_disabled /\
  has (flags started_rc_disabled) SVC_DISABLED = false /\
  has (flags started_rc_disabled) SVC_RC_DISABLED = true /\
  has (flags (final_world (Enable sample_env started_rc_disabled))) SVC_RC_DISABLED = false /\
  flags (final_world (Enable sample_env started_rc_disabled)) <> flags started_rc_disabled.
Proof.
  split; [apply reach_step, reach_initial; split; reflexivity|].
  split; [vm_compute; reflexivity|]. split; [vm_compute; reflexivity|].
  split; [vm_compute; reflexivity|].
  vm_compute. discriminate.
Qed.

(** ** Start of a running service *)

(** C6, as the code has it.  For every service whose RUNNING flag is set,
    [Start] first queues an updatable service and fails if the APEX
    configurations are not loaded yet; otherwise it returns success without
    forking or any other action, and changes nothing but the flag word: it
    clears DISABLED, RESTARTING, RESET, RESTART and DISABLED_START, and sets
    RESTART exactly when the service is ONESHOT and had DISABLED or RESET set
    at entry; every other flag is unchanged. *)
Theorem Start_running (e : Env) (w : World) :
  has (flags w) SVC_RUNNING = true ->
  let f1 := flag_clear (flags w)
              (Z.lor (Z.lor (Z.lor (Z.lor SVC_DISABLED SVC_RESTARTING) SVC_RESET) SVC_RESTART)
                     SVC_DISABLED_START) in
  let f' := if has (flags w) SVC_ONESHOT && has (flags w) (Z.lor SVC_DISABLED SVC_RESET)
            then flag_set f1 SVC_RESTART else f1 in
  Start e w =
    (if updatable_ (svc w) && negb (services_updated e)
     then Returned (Err ErrDelayed) (emit (EvDelayService (name_ (svc w))) w)
     else Returned Ok (upd (set_flags f') w))
  /\ (forall b, single_bit b ->
        has f' b =
          if (b =? SVC_DISABLED) || (b =? SVC_RESTARTING) || (b =? SVC_RESET)
             || (b =? SVC_DISABLED_START) then false
          else if b =? SVC_RESTART
          then has (flags w) SVC_ONESHOT
               && (has (flags w) SVC_DISABLED || has (flags w) SVC_RESET)
          else has (flags w) b).
Proof.
  intros Hr f1 f'. split.
  - unfold Start. destruct (updatable_ (svc w) && negb (services_updated e)); [reflexivity|].
    fold f1. rewrite !flags_upd_set_flags.
    assert (H1 : has f1 SVC_RUNNING = true).
    { subst f1. has_norm. rewrite Hr. reflexivity. }
    assert (H2 : has f1 SVC_ONESHOT = has (flags w) SVC_ONESHOT).
    { subst f1. has_norm. apply andb_true_r. }
    rewrite H1, H2. subst f'.
    destruct (has (flags w) SVC_ONESHOT && has (flags w) (Z.lor SVC_DISABLED SVC_RESET));
      reflexivity.
  - intros b Hb. subst f' f1. generalize dependent (flags w). intros f Hr.
    rewrite (has_lor f).
    destruct (has f SVC_ONESHOT && (has f SVC_DISABLED || has f SVC_RESET)) eqn:Hc.
    + has_norm.
      repeat match goal with
      | |- context [b =? ?c] =>
          destruct (Z.eqb_spec b c) as [->|?];
          [has_closed; rewrite ?Hc; has_cases; reflexivity|]
      end.
      has_cases; reflexivity.
    + has_norm.
      repeat match goal with
      | |- context [b =? ?c] =>
          destruct (Z.eqb_spec b c) as [->|?];
          [has_closed; rewrite ?Hc; has_cases; reflexivity|]
      end.
      has_cases; reflexivity.
Qed.

Lemma Start_running_witness :
  has (flags (sample_world (Z.lor SVC_RUNNING (Z.lor SVC_ONESHOT SVC_DISABLED)) 100))
      SVC_RUNNING = true /\
  Start sample_env (sample_world (Z.lor SVC_RUNNING (Z.lor SVC_ONESHOT SVC_DISABLED)) 100) =
    Returned Ok (sample_world (Z.lor SVC_RUNNING (Z.lor SVC_ONESHOT SVC_RESTART)) 100).
Proof.
  split; [reflexivity|].
  rewrite (proj1 (Start_running sample_env
             (sample_world (Z.lor SVC_RUNNING (Z.lor SVC_ONESHOT SVC_DISABLED)) 100) eq_refl)).
  reflexivity.
Defined.

(** C6 as stated fails on a running service that is not ONESHOT and was
    stopped (DISABLED set while the process is still alive): [Start] is not
    a no-op, it clears DISABLED. *)
Lemma Start_running_clears_disabled :
  reachable stopped_running /\
  has (flags stopped_running) SVC_RUNNING = true /\
  has (flags stopped_running) SVC_ONESHOT = false /\
  has (flags stopped_running) SVC_DISABLED = true /\
  (exists w', Start sample_env stopped_running = Returned Ok w'
              /\ has (flags w') SVC_DISABLED = false
              /\ flags w' <> flags stopped_running).
Proof.
  split; [apply reach_step, reach_step, reach_initial; split; reflexivity|].
  split; [vm_compute; reflexivity|]. split; [vm_compute; reflexivity|].
  split; [vm_compute; reflexivity|].
  eexists. split; [vm_compute; reflexivity|].
  split; [vm_compute; reflexivity|]. vm_compute. discriminate.
Qed.

(** ** Reap *)

(** C10.  For every service with the TEMPORARY flag set, [Reap] returns after
    the descriptors are cleaned, the reap callbacks have run and EXEC is
    cleared: pid, start_order and every flag other than EXEC (RUNNING
    included) are unchanged, and nothing is published (the only actions are
    the group signal, the descriptor clean-up and the callbacks).  For every
    service without TEMPORARY, [Reap] sets pid to 0, clears RUNNING and sets
    start_order to 0, however it ends. *)
Theorem Reap_temporary_split (e : Env) (w : World) :
  (has (flags w) SVC_TEMPORARY = true ->
   exists w',
     Reap e w = Returned Ok w'
     /\ pid_ (svc w') = pid_ (svc w)
     /\ start_order_ (svc w') = start_order_ (svc w)
     /\ (forall b, single_bit b ->
           has (flags w') b = if b =? SVC_EXEC then false else has (flags w) b)
     /\ trace w' = trace w ++
          (if negb (has (flags w) SVC_ONESHOT) || has (flags w) SVC_RESTART
           then kill_events w SIGKILL else []) ++ [EvCleanDescriptors; EvReapCallbacks])
  /\ (has (flags w) SVC_TEMPORARY = false ->
      pid_ (svc (final_world (Reap e w))) = 0
      /\ has (flags (final_world (Reap e w))) SVC_RUNNING = false
      /\ start_order_ (svc (final_world (Reap e w))) = 0).
Proof. exact (Reap_temporary_cases e w). Qed.

Lemma Reap_temporary_split_witness :
  has (flags (sample_world (Z.lor SVC_TEMPORARY (Z.lor SVC_ONESHOT
         (Z.lor SVC_RUNNING SVC_EXEC))) 100)) SVC_TEMPORARY = true /\
  has (flags (sample_world SVC_RUNNING 100)) SVC_TEMPORARY = false /\
  (exists w', Reap sample_env (sample_world (Z.lor SVC_TEMPORARY (Z.lor SVC_ONESHOT
         (Z.lor SVC_RUNNING SVC_EXEC))) 100) = Returned Ok w' /\ pid_ (svc w') = 100) /\
  pid_ (svc (final_world (Reap sample_env (sample_world SVC_RUNNING 100)))) = 0.
Proof.
  split; [reflexivity|]. split; [reflexivity|]. split.
  - destruct (proj1 (Reap_temporary_split sample_env
       (sample_world (Z.lor SVC_TEMPORARY (Z.lor SVC_ONESHOT (Z.lor SVC_RUNNING SVC_EXEC))) 100))
       eq_refl) as (w' & E & P & _).
    exists w'. split; [exact E|exact P].
  - exact (proj1 (proj2 (Reap_temporary_split sample_env (sample_world SVC_RUNNING 100))
                    eq_refl)).
Defined.

(** ** Crash policy *)

(** C5.  On every [Reap] that runs the crash policy (a service that is
    CRITICAL or updatable): if [now < time_crashed + 4min] or boot is not
    complete, crash_count is incremented by one and, when the incremented
    count exceeds 4, a CRITICAL service makes init abort while an updatable
    one publishes [ro.init.updatable_crashing = 1]; otherwise time_crashed
    becomes [now] and crash_count becomes 1.  A [Reap] that does not run the
    policy leaves both fields alone.  Consequently, counting from a
    fresh service (crash_count 0), up to four crashes never trigger anything,
    and the fifth of five crashes inside the window does. *)
Theorem crash_policy_correct :
  (forall (e : Env) (w : World),
     crash_policy_runs e w = true ->
     exists w',
       Reap e w =
         (if in_crash_window e w && (crash_count_ (svc w) + 1 >? 4)
             && has (flags w) SVC_CRITICAL
          then Aborted w' else Returned Ok w')
       /\ crash_count_ (svc w') =
            (if in_crash_window e w then crash_count_ (svc w) + 1 else 1)
       /\ time_crashed_ (svc w') =
            (if in_crash_window e w then time_crashed_ (svc w) else now e)
       /\ trace w' =
            trace w ++ kill_events w SIGKILL ++ [EvCleanDescriptors; EvReapCallbacks] ++
              (if in_crash_window e w && (crash_count_ (svc w) + 1 >? 4)
               then if has (flags w) SVC_CRITICAL
                    then [EvLogFatal (name_ (svc w))]
                    else [EvPropertySet "ro.init.updatable_crashing" "1";
                          EvOnRestart; state_property w "restarting"]
               else [EvOnRestart; state_property w "restarting"]))
  /\ (forall (e : Env) (w : World),
        crash_policy_runs e w = false ->
        crash_count_ (svc (final_world (Reap e w))) = crash_count_ (svc w)
        /\ time_crashed_ (svc (final_world (Reap e w))) = time_crashed_ (svc w))
  /\ (forall (es : list Env) (w : World),
        crash_count_ (svc w) = 0 -> (length es <= 4)%nat ->
        exists w', crashes es w = inr w' /\ trace w' = trace w)
  /\ (forall (e1 e2 e3 e4 e5 : Env) (w : World),
        crash_count_ (svc w) = 0 ->
        Forall (fun e => crash_guard e w = true) [e1; e2; e3; e4; e5] ->
        Forall (fun e =>
                  (now e <? (if in_crash_window e1 w
                             then time_crashed_ (svc w) else now e1) + four_minutes)
                  || negb (boot_completed e) = true) [e2; e3; e4; e5] ->
        exists w',
          crashes [e1; e2; e3; e4; e5] w =
            (if has (flags w) SVC_CRITICAL then inl w' else inr w')
          /\ crash_count_ (svc w') = 5
          /\ trace w' = trace w ++
               [if has (flags w) SVC_CRITICAL then EvLogFatal (name_ (svc w))
                else EvPropertySet "ro.init.updatable_crashing" "1"]).
Proof.
  split; [exact Reap_policy_step|]. split; [exact Reap_policy_skipped|].
  split; [|exact fifth_crash_triggers].
  intros es w H0 Hl. apply four_crashes_quiet; lia.
Qed.

Lemma crash_policy_correct_witness :
  crash_policy_runs sample_env
    (mkWorld (set_crash_count 4 (sample_service (Z.lor SVC_RUNNING SVC_CRITICAL) 100))
             1 false []) = true /\
  exists w',
    Reap sample_env
      (mkWorld (set_crash_count 4 (sample_service (Z.lor SVC_RUNNING SVC_CRITICAL) 100))
               1 false []) = Aborted w'
    /\ crash_count_ (svc w') = 5.
Proof.
  split; [reflexivity|].
  destruct (proj1 crash_policy_correct sample_env
              (mkWorld (set_crash_count 4 (sample_service (Z.lor SVC_RUNNING SVC_CRITICAL) 100))
                       1 false []) eq_refl) as (w' & E & C & _).
  exists w'. split; [exact E|exact C].
Defined.

(** ** The RUNNING / pid invariant *)

(** C3.  In every state a service reaches through the lifecycle operations
    (Start, ExecStart, StartIfNotDisabled, Enable, Reset, ResetIfPostData,
    StartIfPostData, Stop, Terminate, Timeout, Restart, StopOrReset, Reap),
    from a service that has no process and is not marked running: if RUNNING
    is set then pid > 0, and if pid > 0 then RUNNING or RESTARTING is set. *)
Theorem lifecycle_invariant (w : World) :
  reachable w ->
  (has (flags w) SVC_RUNNING = true -> 0 < pid_ (svc w))
  /\ (0 < pid_ (svc w) ->
      has (flags w) SVC_RUNNING = true \/ has (flags w) SVC_RESTARTING = true).
Proof.
  intros H. destruct (reachable_running_iff_pid w H) as [[A B] P]. split.
  - intros R. specialize (A R). lia.
  - intros Hp. left. apply B. lia.
Qed.

Lemma lifecycle_invariant_witness :
  reachable (final_world (run_op OpStart sample_env (sample_world SVC_CRITICAL 0)))
  /\ 0 < pid_ (svc (final_world (run_op OpStart sample_env (sample_world SVC_CRITICAL 0)))).
Proof.
  assert (R : reachable (final_world (run_op OpStart sample_env (sample_world SVC_CRITICAL 0)))).
  { apply reach_step. apply reach_initial. split; reflexivity. }
  split; [exact R|].
  apply (proj1 (lifecycle_invariant _ R)). reflexivity.
Defined.

(** ** The property store: write-once names *)

Section PropertyServiceFacts.
Context `{P : PropertyPlatform}.

Lemma PropertySet_store (name value : string) (s : PropertyServer) :
  store (snd (PropertySet name value s)) = store s
  \/ (fst (PropertySet name value s) = PROP_SUCCESS
      /\ store (snd (PropertySet name value s)) = <[name := value]> (store s)
      /\ (StartsWith name "ro." = true -> store s !! name = None)).
Proof.
  unfold PropertySet.
  destruct (negb (IsLegalPropertyName name)); [left; reflexivity|].
  destruct (negb (IsLegalPropertyValue name value)); [left; reflexivity|].
  destruct (store s !! name) as [old|] eqn:L.
  - destruct (StartsWith name "ro.") eqn:R; [left; reflexivity|].
    right. cbv zeta.
    split; [reflexivity|]. split; [|discriminate].
    destruct (_ && StartsWith name "persist."); destruct (accept_messages _); reflexivity.
  - destruct (system_property_add_ok (store s) name value); [|left; reflexivity].
    right. cbv zeta.
    split; [reflexivity|]. split; [|reflexivity].
    destruct (_ && StartsWith name "persist."); destruct (accept_messages _); reflexivity.
Qed.

Lemma PropertySet_keeps_ro (n v name value : string) (s : PropertyServer) :
  StartsWith n "ro." = true -> store s !! n = Some v ->
  store (snd (PropertySet name value s)) !! n = Some v.
Proof.
  intros R L. destruct (PropertySet_store name value s) as [E|(_ & E & N)];
    rewrite E; [exact L|].
  destruct (decide (name = n)) as [->|Hne].
  - rewrite (N R) in L. discriminate L.
  - rewrite lookup_insert_ne by exact Hne. exact L.
Qed.

Lemma store_TriggerRestorecon (path : string) (s : PropertyServer) :
  store (TriggerRestorecon path s) = store s.
Proof. unfold TriggerRestorecon. cbv zeta. destruct (negb _); reflexivity. Qed.

Lemma store_SendControlMessage (msg name : string) (pid : Z) (socket : option Z)
    (s : PropertyServer) :
  store (snd (SendControlMessage msg name pid socket s)) = store s.
Proof.
  unfold SendControlMessage. destruct (negb (accept_messages s)); [reflexivity|].
  cbv zeta. destruct socket as [sfd|];
    [destruct (SelinuxGetVendorAndroidVersion >? ANDROID_API_Q)|];
    destruct (negb (SendMessage_ok _)); reflexivity.
Qed.

Lemma HandlePropertySet_store (name value source_context : string) (cr : ucred)
    (socket : option Z) (s : PropertyServer) :
  store (snd (HandlePropertySet name value source_context cr socket s)) = store s
  \/ snd (HandlePropertySet name value source_context cr socket s) =
       snd (PropertySet name value
              (if String.eqb name "sys.powerctl"
               then pemit (PvLogPowerctl value (cr_pid cr)) s else s)).
Proof.
  unfold HandlePropertySet. cbv zeta.
  destruct (negb (PropResult_eqb _ _)); [left; reflexivity|].
  destruct (StartsWith name "ctl."); [left; apply store_SendControlMessage|].
  destruct (_ && negb (String.eqb value "")).
  - left. cbn [snd]. rewrite store_TriggerRestorecon.
    destruct (String.eqb name "sys.powerctl"); reflexivity.
  - right. reflexivity.
Qed.

Lemma server_step_keeps_ro (n v : string) (s s' : PropertyServer) :
  StartsWith n "ro." = true -> store s !! n = Some v ->
  server_step s s' -> store s' !! n = Some v.
Proof.
  intros R L St. destruct St as [name value s|name value ctx cr socket s|s|loaded accept s].
  - apply PropertySet_keeps_ro; assumption.
  - destruct (HandlePropertySet_store name value ctx cr socket s) as [E|E]; rewrite E.
    + exact L.
    + apply PropertySet_keeps_ro; [exact R|].
      destruct (String.eqb name "sys.powerctl"); exact L.
  - exact L.
  - exact L.
Qed.

Lemma server_steps_keep_ro (n v : string) (s s' : PropertyServer) :
  StartsWith n "ro." = true -> store s !! n = Some v ->
  rtc server_step s s' -> store s' !! n = Some v.
Proof.
  intros R L St. induction St as [s|s1 s2 s3 S12 _ IH]; [exact L|].
  apply IH. eapply server_step_keeps_ro; eassumption.
Qed.

Lemma PropertySet_success_stores (n v : string) (s s1 : PropertyServer) :
  PropertySet n v s = (PROP_SUCCESS, s1) ->
  IsLegalPropertyName n = true /\ store s1 !! n = Some v.
Proof.
  unfold PropertySet.
  destruct (IsLegalPropertyName n); cbn [negb]; [|discriminate].
  destruct (negb (IsLegalPropertyValue n v)); [discriminate|].
  intros H. split; [reflexivity|]. revert H.
  destruct (store s !! n) as [old|].
  - destruct (StartsWith n "ro."); [discriminate|]. cbv zeta.
    intros H. inversion H; subst s1.
    destruct (_ && StartsWith n "persist."); destruct (accept_messages _); cbn;
      apply lookup_insert_eq.
  - destruct (system_property_add_ok (store s) n v); [|discriminate]. cbv zeta.
    intros H. inversion H; subst s1.
    destruct (_ && StartsWith n "persist."); destruct (accept_messages _); cbn;
      apply lookup_insert_eq.
Qed.

Lemma PropertySet_existing_ro (n v v' : string) (s : PropertyServer) :
  StartsWith n "ro." = true -> IsLegalPropertyName n = true ->
  store s !! n = Some v ->
  PropertySet n v' s =
    (if IsLegalPropertyValue n v' then PROP_ERROR_READ_ONLY_PROPERTY
     else PROP_ERROR_INVALID_VALUE, s).
Proof.
  intros R Ln L. unfold PropertySet. rewrite Ln, L, R. cbn [negb].
  destruct (IsLegalPropertyValue n v'); reflexivity.
Qed.

(** C2, as the code has it.  For every name [n] starting with "ro.": after a
    [PropertySet] of [n] that returned success, and whatever the property
    service does afterwards, the stored value of [n] is the one written
    first, and every later [PropertySet] of [n] leaves the property service
    unchanged and returns [PROP_ERROR_READ_ONLY_PROPERTY] when the value is
    legal, and [PROP_ERROR_INVALID_VALUE] when it is not (the value is
    checked before the name is looked up). *)
Theorem ro_write_once (n v : string) (s s1 s2 : PropertyServer) (v' : string) :
  StartsWith n "ro." = true ->
  PropertySet n v s = (PROP_SUCCESS, s1) ->
  rtc server_step s1 s2 ->
  store s2 !! n = Some v
  /\ PropertySet n v' s2 =
       (if IsLegalPropertyValue n v' then PROP_ERROR_READ_ONLY_PROPERTY
        else PROP_ERROR_INVALID_VALUE, s2).
Proof.
  intros R E St.
  destruct (PropertySet_success_stores n v s s1 E) as [Ln L1].
  assert (L2 : store s2 !! n = Some v) by (eapply server_steps_keep_ro; eassumption).
  split; [exact L2|]. eapply PropertySet_existing_ro; eassumption.
Qed.

End PropertyServiceFacts.

Lemma ro_write_once_witness :
  StartsWith "ro.foo" "ro." = true /\
  @PropertySet sample_platform "ro.foo" "1" (sample_server true) =
    (PROP_SUCCESS,
     mkServer {["ro.foo" := "1"]} true true [] false
       [PvSendMessage (ChangedMessage "ro.foo" "1")]) /\
  @PropertySet sample_platform "ro.foo" "2"
     (mkServer {["ro.foo" := "1"]} true true [] false
       [PvSendMessage (ChangedMessage "ro.foo" "1")]) =
    (PROP_ERROR_READ_ONLY_PROPERTY,
     mkServer {["ro.foo" := "1"]} true true [] false
       [PvSendMessage (ChangedMessage "ro.foo" "1")]).
Proof.
  assert (E : @PropertySet sample_platform "ro.foo" "1" (sample_server true) =
    (PROP_SUCCESS,
     mkServer {["ro.foo" := "1"]} true true [] false
       [PvSendMessage (ChangedMessage "ro.foo" "1")])).
  { reflexivity. }
  split; [reflexivity|]. split; [exact E|].
  exact (proj2 (@ro_write_once sample_platform "ro.foo" "1" _ _ _ "2" eq_refl E
                  (rtc_refl _ _))).
Defined.

(** C2 as stated fails for a later value that is not legal (here 92 bytes
    that are not UTF-8): the second set returns [PROP_ERROR_INVALID_VALUE]. *)
Lemma ro_second_set_invalid_value :
  @PropertySet sample_platform "ro.foo" "1" (sample_server false) =
    (PROP_SUCCESS, mkServer {["ro.foo" := "1"]} true false [] false []) /\
  @PropertySet sample_platform "ro.foo" (string_repeat 92 (ascii_of_nat 255))
     (mkServer {["ro.foo" := "1"]} true false [] false []) =
    (PROP_ERROR_INVALID_VALUE, mkServer {["ro.foo" := "1"]} true false [] false []) /\
  PROP_ERROR_INVALID_VALUE <> PROP_ERROR_READ_ONLY_PROPERTY.
Proof.
  split; [reflexivity|]. split; [reflexivity|]. discriminate.
Qed.

(** ** Control requests and the asynchronous restorecon *)

Lemma c_str_no_nul (s : string) : no_nul s = true -> c_str s = s.
Proof.
  induction s as [|c s IH]; [reflexivity|]. cbn [no_nul c_str].
  destruct (Ascii.eqb c zero); cbn [negb andb]; [discriminate|].
  intros H. rewrite IH by exact H. reflexivity.
Qed.

Lemma no_nul_skip (n : nat) (s : string) : no_nul s = true -> no_nul (skip n s) = true.
Proof.
  revert s. induction n as [|n IH]; intros s H; [exact H|].
  destruct s as [|c s]; [reflexivity|]. cbn [skip]. apply IH.
  cbn [no_nul] in H. apply andb_prop in H. apply H.
Qed.

Lemma PropResult_eqb_eq (a b : PropResult) : PropResult_eqb a b = true <-> a = b.
Proof. split; [destruct a, b; (reflexivity || discriminate)|intros ->; destruct b; reflexivity]. Qed.

Section ControlFacts.
Context `{P : PropertyPlatform}.

(** C4, as the code has it.  For every property-set request whose name
    starts with "ctl.", the handler never writes the property store.  When
    the permission check passes and the property service is accepting
    messages, it sends init one control message whose msg is the name without
    its leading "ctl." and whose name is the request's value (together with
    the writer's pid and, above vendor API Q, the client descriptor), and
    answers success, or [PROP_ERROR_HANDLE_CONTROL_MESSAGE] if the send fails.
    When the check fails, or when the service is not accepting messages,
    nothing is sent, nothing changes and an error is returned. *)
Theorem control_request_forwarded (name value source_context : string) (cr : ucred)
    (socket : option Z) (s : PropertyServer) :
  StartsWith name "ctl." = true ->
  (forall n, IsLegalPropertyName n = true -> no_nul n = true) ->
  let r := fst (HandlePropertySet name value source_context cr socket s) in
  let s' := snd (HandlePropertySet name value source_context cr socket s) in
  store s' = store s
  /\ (CheckPermissions name value source_context = PROP_SUCCESS ->
      accept_messages s = true ->
      r = control_result name value cr socket
      /\ ptrace s' = ptrace s ++ control_actions name value cr socket)
  /\ (CheckPermissions name value source_context <> PROP_SUCCESS ->
      r = CheckPermissions name value source_context /\ s' = s)
  /\ (accept_messages s = false ->
      r <> PROP_SUCCESS /\ s' = s).
Proof.
  intros Hc Hnul r s'. subst r s'. unfold HandlePropertySet. cbv zeta. rewrite Hc.
  split; [|split; [|split]].
  - destruct (negb (PropResult_eqb _ _)); [reflexivity|apply store_SendControlMessage].
  - intros Hp Ha. rewrite Hp. cbn [PropResult_eqb negb].
    assert (Hl : IsLegalPropertyName name = true).
    { revert Hp. unfold CheckPermissions.
      destruct (IsLegalPropertyName name); [reflexivity|discriminate]. }
    rewrite c_str_no_nul by (apply no_nul_skip, Hnul, Hl).
    unfold SendControlMessage, control_result, control_actions. rewrite Ha. cbn [negb].
    cbv zeta.
    destruct socket as [sfd|];
      [destruct (SelinuxGetVendorAndroidVersion >? ANDROID_API_Q)|];
      destruct (SendMessage_ok _); cbn; rewrite <- ?app_assoc; split; reflexivity.
  - intros Hp.
    destruct (PropResult_eqb _ PROP_SUCCESS) eqn:E.
    + apply PropResult_eqb_eq in E. contradiction.
    + cbn [negb fst snd]. split; reflexivity.
  - intros Ha.
    destruct (PropResult_eqb _ PROP_SUCCESS) eqn:E; cbn [negb].
    + unfold SendControlMessage. rewrite Ha. cbn. split; [discriminate|reflexivity].
    + cbn [fst snd]. split; [|reflexivity]. intros H. rewrite H in E. discriminate E.
Qed.

End ControlFacts.

Lemma legal_name_char_not_nul (c : ascii) : legal_name_char c = true -> Ascii.eqb c zero = false.
Proof.
  intros H. destruct (Ascii.eqb_spec c zero) as [->|]; [discriminate H|reflexivity].
Qed.

Lemma segments_ok_no_nul (b : bool) (s : string) : segments_ok b s = true -> no_nul s = true.
Proof.
  revert b. induction s as [|c s IH]; intros b H; [reflexivity|].
  cbn [segments_ok] in H. cbn [no_nul].
  destruct (Ascii.eqb_spec c "."%char) as [->|Hne].
  - apply andb_prop in H. destruct H as [_ H]. rewrite (IH _ H). reflexivity.
  - apply andb_prop in H. destruct H as [Hc H].
    rewrite (legal_name_char_not_nul c Hc), (IH _ H). reflexivity.
Qed.

Lemma IsLegalPropertyName_spec_no_nul (n : string) :
  IsLegalPropertyName_spec n = true -> no_nul n = true.
Proof.
  unfold IsLegalPropertyName_spec. intros H. apply andb_prop in H.
  eapply segments_ok_no_nul, H.
Qed.

Lemma control_request_forwarded_witness :
  StartsWith "ctl.start" "ctl." = true /\
  (forall n, @IsLegalPropertyName sample_platform n = true -> no_nul n = true) /\
  @CheckPermissions sample_platform "ctl.start" "svc" "u:r:init:s0" = PROP_SUCCESS /\
  ptrace (snd (@HandlePropertySet sample_platform "ctl.start" "svc" "u:r:init:s0"
                 (mkUcred 42 0 0) (Some 7) (sample_server true))) =
    [PvRelease 7; PvSendMessage (ControlMessage "start" "svc" 42 (Some 7))].
Proof.
  split; [reflexivity|]. split; [exact IsLegalPropertyName_spec_no_nul|].
  split; [reflexivity|].
  destruct (@control_request_forwarded sample_platform "ctl.start" "svc" "u:r:init:s0"
              (mkUcred 42 0 0) (Some 7) (sample_server true) eq_refl
              IsLegalPropertyName_spec_no_nul) as (_ & F & _).
  destruct (F eq_refl eq_refl) as [_ T]. rewrite T. reflexivity.
Defined.

(** C4 as stated fails once init has stopped accepting messages: a permitted
    control request is answered with an error and nothing is forwarded. *)
Lemma control_request_dropped_when_not_accepting :
  StartsWith "ctl.start" "ctl." = true /\
  @CheckPermissions sample_platform "ctl.start" "svc" "u:r:init:s0" = PROP_SUCCESS /\
  @HandlePropertySet sample_platform "ctl.start" "svc" "u:r:init:s0"
     (mkUcred 42 0 0) (Some 7) (sample_server false) =
    (PROP_ERROR_HANDLE_CONTROL_MESSAGE, sample_server false) /\
  ptrace (sample_server false) = [].
Proof. repeat split. Qed.

Section PropertySetCases.
Context `{P : PropertyPlatform}.

(** The events a successful [PropertySet] adds. *)
Lemma PropertySet_cases (name value : string) (s : PropertyServer) :
  let ok := IsLegalPropertyName name && IsLegalPropertyValue name value
            && match store s !! name with
               | Some _ => negb (StartsWith name "ro.")
               | None => system_property_add_ok (store s) name value
               end in
  PropertySet name value s =
    if ok
    then (PROP_SUCCESS,
          mkServer (<[name := value]> (store s)) (persistent_properties_loaded s)
                   (accept_messages s) (paths_ s) (thread_started_ s)
                   (ptrace s
                      ++ (if persistent_properties_loaded s && StartsWith name "persist."
                          then [PvWritePersistentProperty name value] else [])
                      ++ (if accept_messages s
                          then [PvSendMessage (ChangedMessage name value)] else [])))
    else (fst (PropertySet name value s), s).
Proof.
  cbv zeta. unfold PropertySet.
  destruct (IsLegalPropertyName name); cbn [negb andb]; [|reflexivity].
  destruct (IsLegalPropertyValue name value); cbn [negb andb]; [|reflexivity].
  destruct (store s !! name) as [old|].
  - destruct (StartsWith name "ro."); cbn [negb]; [reflexivity|].
    cbv zeta. unfold SendPropertyChanged, pemit, set_store.
    cbn [store persistent_properties_loaded accept_messages paths_ thread_started_ ptrace].
    destruct (persistent_properties_loaded s && StartsWith name "persist.");
      cbn [store persistent_properties_loaded accept_messages paths_ thread_started_ ptrace];
      destruct (accept_messages s);
      cbn [store persistent_properties_loaded accept_messages paths_ thread_started_ ptrace];
      rewrite <- ?app_assoc, ?app_nil_r; reflexivity.
  - destruct (system_property_add_ok (store s) name value); [|reflexivity].
    cbv zeta. unfold SendPropertyChanged, pemit, set_store.
    cbn [store persistent_properties_loaded accept_messages paths_ thread_started_ ptrace].
    destruct (persistent_properties_loaded s && StartsWith name "persist.");
      cbn [store persistent_properties_loaded accept_messages paths_ thread_started_ ptrace];
      destruct (accept_messages s);
      cbn [store persistent_properties_loaded accept_messages paths_ thread_started_ ptrace];
      rewrite <- ?app_assoc, ?app_nil_r; reflexivity.
Qed.

End PropertySetCases.

Section RestoreconFacts.
Context `{P : PropertyPlatform}.

Lemma ThreadFunction_actions_order (q : list string) :
  forall pre n p post,
    ThreadFunction_actions q = pre ++ PvSetProperty n p :: post ->
    n = kRestoreconProperty /\ In p q /\ exists pre', pre = pre' ++ [PvRestorecon p].
Proof.
  induction q as [|p0 q IH]; intros pre n p post H.
  - destruct pre; discriminate H.
  - cbn [ThreadFunction_actions] in H.
    destruct pre as [|x [|y pre2]].
    + discriminate H.
    + cbn in H. inversion H; subst. split; [reflexivity|]. split; [left; reflexivity|].
      exists []. reflexivity.
    + cbn in H. inversion H as [[Hx Hy Hrest]].
      destruct (IH pre2 n p post Hrest) as (Hn & Hin & pre' & ->).
      split; [exact Hn|]. split; [right; exact Hin|].
      exists (PvRestorecon p0 :: PvSetProperty kRestoreconProperty p0 :: pre'). reflexivity.
Qed.

(** C7, as the code has it.  For every set request on the restorecon
    property that passes the permission and type checks, from a writer whose
    pid is not 1 and with a non-empty value: the handler returns success at
    once, does not touch the property store, queues the path and starts the
    worker unless one is running.  The worker, for each path it pops, runs
    the restorecon and only then issues the property write of that path; it
    touches the store only through that write.  That write comes from pid 1:
    when it passes the permission check the handler passes it on to
    [PropertySet] like any other property, so that the path is stored
    exactly when the value is legal and, the property not being there yet,
    the property area takes it; otherwise the write is rejected and the
    property service is left as it was. *)
Theorem restorecon_request_async (value source_context : string) (cr : ucred)
    (socket : option Z) (s : PropertyServer) :
  cr_pid cr <> 1 -> value <> "" ->
  CheckPermissions kRestoreconProperty value source_context = PROP_SUCCESS ->
  HandlePropertySet kRestoreconProperty value source_context cr socket s =
    (PROP_SUCCESS, TriggerRestorecon value s)
  /\ store (TriggerRestorecon value s) = store s
  /\ paths_ (TriggerRestorecon value s) = paths_ s ++ [value]
  /\ thread_started_ (TriggerRestorecon value s) = true
  /\ ptrace (TriggerRestorecon value s) =
       ptrace s ++ (if thread_started_ s then [] else [PvSpawnRestoreconThread])
  /\ (forall s0 : PropertyServer,
        store (ThreadFunction s0) = store s0
        /\ paths_ (ThreadFunction s0) = []
        /\ ptrace (ThreadFunction s0) = ptrace s0 ++ ThreadFunction_actions (paths_ s0)
        /\ forall pre n p post,
             ThreadFunction_actions (paths_ s0) = pre ++ PvSetProperty n p :: post ->
             n = kRestoreconProperty /\ In p (paths_ s0)
             /\ exists pre', pre = pre' ++ [PvRestorecon p])
  /\ (forall (path ctx : string) (cr1 : ucred) (sock : option Z) (s1 : PropertyServer),
        cr_pid cr1 = 1 ->
        CheckPermissions kRestoreconProperty path ctx = PROP_SUCCESS ->
        let r := HandlePropertySet kRestoreconProperty path ctx cr1 sock s1 in
        r = PropertySet kRestoreconProperty path s1
        /\ (fst r = PROP_SUCCESS <->
            IsLegalPropertyValue kRestoreconProperty path = true
            /\ (store s1 !! kRestoreconProperty = None ->
                system_property_add_ok (store s1) kRestoreconProperty path = true))
        /\ (fst r = PROP_SUCCESS ->
            store (snd r) = <[kRestoreconProperty := path]> (store s1)
            /\ store (snd r) !! kRestoreconProperty = Some path)
        /\ (fst r <> PROP_SUCCESS -> snd r = s1)).
Proof.
  intros Hpid Hval Hperm.
  split; [|split; [|split; [|split; [|split; [|split]]]]].
  - unfold HandlePropertySet. cbv zeta. rewrite Hperm.
    change (StartsWith kRestoreconProperty "ctl.") with false.
    change (String.eqb kRestoreconProperty "sys.powerctl") with false.
    change (String.eqb kRestoreconProperty kRestoreconProperty) with true.
    cbn [PropResult_eqb negb andb].
    destruct (Z.eqb_spec (cr_pid cr) 1); [contradiction|].
    destruct (String.eqb_spec value ""); [contradiction|]. reflexivity.
  - apply store_TriggerRestorecon.
  - unfold TriggerRestorecon. cbv zeta. destruct (negb _); reflexivity.
  - unfold TriggerRestorecon. cbv zeta. cbn [thread_started_].
    destruct (thread_started_ s); reflexivity.
  - unfold TriggerRestorecon. cbv zeta. cbn [thread_started_].
    destruct (thread_started_ s); cbn; [rewrite app_nil_r|]; reflexivity.
  - intros s0. split; [reflexivity|]. split; [reflexivity|]. split; [reflexivity|].
    apply ThreadFunction_actions_order.
  - intros path ctx cr1 sock s1 H1 Hp. cbv zeta.
    assert (E : HandlePropertySet kRestoreconProperty path ctx cr1 sock s1
                = PropertySet kRestoreconProperty path s1).
    { unfold HandlePropertySet. cbv zeta. rewrite Hp.
      change (StartsWith kRestoreconProperty "ctl.") with false.
      change (String.eqb kRestoreconProperty "sys.powerctl") with false.
      rewrite H1. cbn [PropResult_eqb negb andb Z.eqb Pos.eqb].
      rewrite andb_false_r. reflexivity. }
    rewrite E. split; [reflexivity|].
    assert (Ln : IsLegalPropertyName kRestoreconProperty = true).
    { revert Hp. unfold CheckPermissions.
      destruct (IsLegalPropertyName kRestoreconProperty); [reflexivity|discriminate]. }
    pose proof (PropertySet_cases kRestoreconProperty path s1) as C. cbv zeta in C.
    rewrite Ln in C. cbn [andb] in C.
    change (StartsWith kRestoreconProperty "ro.") with false in C. cbn [negb] in C.
    assert (F : IsLegalPropertyValue kRestoreconProperty path
                && match store s1 !! kRestoreconProperty with
                   | Some _ => true
                   | None => system_property_add_ok (store s1) kRestoreconProperty path
                   end = false ->
                fst (PropertySet kRestoreconProperty path s1) <> PROP_SUCCESS).
    { intros Hf. unfold PropertySet. rewrite Ln. cbn [negb].
      destruct (IsLegalPropertyValue kRestoreconProperty path); cbn [negb andb] in *;
        [|discriminate].
      destruct (store s1 !! kRestoreconProperty); [discriminate Hf|].
      rewrite Hf. discriminate. }
    destruct (IsLegalPropertyValue kRestoreconProperty path); cbn [andb] in C, F.
    + destruct (store s1 !! kRestoreconProperty) as [old|] eqn:L.
      * rewrite C. cbn [fst snd store]. split; [split; [intros _; split; [reflexivity|discriminate]|reflexivity]|].
        split; [intros _; split; [reflexivity|apply lookup_insert_eq]|intros N; contradiction].
      * destruct (system_property_add_ok (store s1) kRestoreconProperty path) eqn:A.
        -- rewrite C. cbn [fst snd store].
           split; [split; [intros _; split; reflexivity|reflexivity]|].
           split; [intros _; split; [reflexivity|apply lookup_insert_eq]|intros N; contradiction].
        -- specialize (F eq_refl). rewrite C. cbn [snd].
           split; [split; [intros N; contradiction|intros (_ & N); specialize (N eq_refl); discriminate N]|].
           split; [intros N; contradiction|reflexivity].
    + specialize (F eq_refl). rewrite C. cbn [snd].
      split; [split; [intros N; contradiction|intros (N & _); discriminate N]|].
      split; [intros N; contradiction|reflexivity].
Qed.

End RestoreconFacts.

Lemma restorecon_request_async_witness :
  cr_pid (mkUcred 1234 1000 1000) <> 1 /\ "/data/dir" <> "" /\
  @CheckPermissions sample_platform kRestoreconProperty "/data/dir" "u:r:system_server:s0"
    = PROP_SUCCESS /\
  @HandlePropertySet sample_platform kRestoreconProperty "/data/dir" "u:r:system_server:s0"
     (mkUcred 1234 1000 1000) None (sample_server true) =
    (PROP_SUCCESS, mkServer ∅ true true ["/data/dir"] true [PvSpawnRestoreconThread]) /\
  store (snd (@HandlePropertySet sample_platform kRestoreconProperty "/data/dir"
                "u:r:init:s0" (mkUcred 1 0 0) None
                (ThreadFunction
                   (mkServer ∅ true true ["/data/dir"] true [PvSpawnRestoreconThread]))))
    !! kRestoreconProperty = Some "/data/dir".
Proof.
  split; [discriminate|]. split; [discriminate|]. split; [reflexivity|].
  pose proof (@restorecon_request_async sample_platform "/data/dir"
                "u:r:system_server:s0" (mkUcred 1234 1000 1000) None (sample_server true)
                ltac:(discriminate) ltac:(discriminate) eq_refl) as H.
  split; [rewrite (proj1 H); reflexivity|].
  destruct H as (_ & _ & _ & _ & _ & _ & H).
  destruct (H "/data/dir" "u:r:init:s0" (mkUcred 1 0 0) None
              (ThreadFunction
                 (mkServer ∅ true true ["/data/dir"] true [PvSpawnRestoreconThread]))
              eq_refl eq_refl) as (_ & S & St & _).
  apply St. apply S. split; [reflexivity|]. intros _. reflexivity.
Defined.

(** C7 as stated fails for a writer the policy does not allow: the handler
    returns [PROP_ERROR_PERMISSION_DENIED] and queues nothing. *)
Lemma restorecon_request_denied :
  cr_pid (mkUcred 1234 10001 10001) <> 1 /\ "/data/dir" <> "" /\
  @HandlePropertySet sample_platform kRestoreconProperty "/data/dir"
     "u:r:untrusted_app:s0" (mkUcred 1234 10001 10001) None (sample_server true) =
    (PROP_ERROR_PERMISSION_DENIED, sample_server true) /\
  PROP_ERROR_PERMISSION_DENIED <> PROP_SUCCESS.
Proof.
  split; [discriminate|]. split; [discriminate|]. split; [reflexivity|discriminate].
Qed.

(** A path of 92 bytes is too long for a property value: the request is
    answered with success and the path queued, the worker restores the
    context and issues the write, and that write is rejected, so that the
    path is never stored. *)
Lemma restorecon_long_path_never_stored :
  let path := string_repeat 92 "a"%char in
  let s1 := snd (@HandlePropertySet sample_platform kRestoreconProperty path
                   "u:r:system_server:s0" (mkUcred 1234 1000 1000) None
                   (sample_server true)) in
  fst (@HandlePropertySet sample_platform kRestoreconProperty path
         "u:r:system_server:s0" (mkUcred 1234 1000 1000) None (sample_server true))
    = PROP_SUCCESS
  /\ paths_ s1 = [path]
  /\ ptrace (ThreadFunction s1) =
       [PvSpawnRestoreconThread; PvRestorecon path; PvSetProperty kRestoreconProperty path]
  /\ @HandlePropertySet sample_platform kRestoreconProperty path "u:r:init:s0"
       (mkUcred 1 0 0) None (ThreadFunction s1)
     = (PROP_ERROR_INVALID_VALUE, ThreadFunction s1)
  /\ store (ThreadFunction s1) !! kRestoreconProperty = None.
Proof.
  cbv zeta. repeat split; vm_compute; reflexivity.
Qed.

(** ** The client socket: length-prefixed strings *)

Lemma PollIn_loop_total (o : SocketOracle) (fuel : nat) :
  forall c t, (Z.to_nat t < fuel)%nat -> exists r, PollIn_loop fuel o c t = Some r.
Proof.
  induction fuel as [|fuel IH]; intros c t Hf; [lia|].
  cbn [PollIn_loop]. destruct (Z.gtb_spec t 0) as [Hpos|Hle]; [|eauto].
  cbv zeta.
  set (m := poll_millis _ mod 2 ^ 64).
  assert (Hm : 0 <= m) by (apply Z.mod_pos_bound; lia).
  destruct (poll_nr _ >? 0); [eauto|].
  destruct (poll_nr _ =? 0); [eauto|].
  destruct (negb _); [eauto|].
  apply IH.
  destruct (Z.gtb_spec m t);
    match goal with |- context [?x >? 0] => destruct (Z.gtb_spec x 0) end; lia.
Qed.

Lemma PollIn_total (o : SocketOracle) (c : Conn) (t : Z) :
  exists r, PollIn o c t = Some r.
Proof. apply PollIn_loop_total. lia. Qed.

Lemma RecvFully_loop_total (o : SocketOracle) (fuel : nat) :
  forall c n data t, (n < fuel)%nat -> exists r, RecvFully_loop fuel o c n data t = Some r.
Proof.
  induction fuel as [|fuel IH]; intros c n data t Hf; [lia|].
  cbn [RecvFully_loop].
  destruct ((t >? 0) && negb (n =? 0)%nat) eqn:G; [|eauto].
  destruct (PollIn_total o c t) as ([[b c1] t1] & ->).
  destruct b; [|eauto]. cbv zeta.
  destruct (recv_answer o (recvs_done c1)) as [chunk|]; [|eauto].
  destruct (Nat.eqb_spec (String.length (take_bytes n chunk)) 0); [eauto|].
  apply IH. apply andb_prop in G. destruct G as [_ G].
  destruct (Nat.eqb_spec n 0); [discriminate G|]. lia.
Qed.

Lemma RecvFully_total (o : SocketOracle) (c : Conn) (n : nat) (t : Z) :
  exists r, RecvFully o c n t = Some r.
Proof. apply RecvFully_loop_total. lia. Qed.

Lemma length_take_bytes (n : nat) (s : string) :
  String.length (take_bytes n s) = Nat.min n (String.length s).
Proof.
  revert s. induction n as [|n IH]; intros [|ch s]; cbn; try reflexivity.
  rewrite IH. reflexivity.
Qed.

Lemma length_append (a b : string) :
  String.length (a +:+ b) = (String.length a + String.length b)%nat.
Proof. induction a as [|ch a IH]; simpl; [reflexivity|]. f_equal. exact IH. Qed.

(** Whatever [RecvFully] returns as data has exactly the size asked for. *)
Lemma RecvFully_loop_length (o : SocketOracle) (fuel : nat) :
  forall c n data t v c' t',
    RecvFully_loop fuel o c n data t = Some (Some v, c', t') ->
    String.length v = (String.length data + n)%nat.
Proof.
  induction fuel as [|fuel IH]; intros c n data t v c' t' H; [discriminate H|].
  cbn [RecvFully_loop] in H.
  destruct ((t >? 0) && negb (n =? 0)%nat).
  - destruct (PollIn o c t) as [[[b c1] t1]|]; [|discriminate H].
    destruct b; [|discriminate H]. cbv zeta in H.
    destruct (recv_answer o (recvs_done c1)) as [chunk|]; [|discriminate H].
    destruct (Nat.eqb_spec (String.length (take_bytes n chunk)) 0); [discriminate H|].
    apply IH in H. rewrite H, length_append, length_take_bytes. lia.
  - destruct (Nat.eqb_spec n 0) as [->|]; [|discriminate H].
    inversion H; subst. lia.
Qed.

Lemma RecvFully_length (o : SocketOracle) (c : Conn) (n : nat) (t : Z) v c' t' :
  RecvFully o c n t = Some (Some v, c', t') -> String.length v = n.
Proof. intros H. apply RecvFully_loop_length in H. exact H. Qed.

(** ** Reads that arrive in pieces *)

Lemma append_assoc (a b c : string) : (a +:+ b) +:+ c = a +:+ (b +:+ c).
Proof.
  induction a as [|ch a IH]; [reflexivity|].
  change (String ch a +:+ b) with (String ch (a +:+ b)).
  change (String ch (a +:+ b) +:+ c) with (String ch ((a +:+ b) +:+ c)).
  rewrite IH. reflexivity.
Qed.

Lemma append_empty (a : string) : a +:+ EmptyString = a.
Proof.
  induction a as [|ch a IH]; [reflexivity|].
  change (String ch a +:+ EmptyString) with (String ch (a +:+ EmptyString)).
  rewrite IH. reflexivity.
Qed.

Lemma take_bytes_fits (n : nat) (s : string) :
  (String.length s <= n)%nat -> take_bytes n s = s.
Proof.
  revert s. induction n as [|n IH]; intros [|ch s] H; cbn in *; try reflexivity; try lia.
  rewrite IH by lia. reflexivity.
Qed.

Lemma delivers_budget (o : SocketOracle) (pieces : list string) :
  forall p r t, delivers o p r t pieces ->
    0 <= t -> 0 <= budget_after o p t (List.length pieces) <= t
    /\ (pieces <> [] -> 0 < budget_after o p t (List.length pieces) /\ 0 < t).
Proof.
  induction pieces as [|x rest IH]; intros p r t D Ht.
  - cbn. split; [lia|]. intros H. contradiction.
  - cbn [delivers] in D. destruct D as (_ & M & _ & _ & D).
    cbn [List.length budget_after].
    destruct (IH (S p) (S r) _ D ltac:(lia)) as (A & B).
    split; [lia|]. intros _. split; [|lia].
    destruct rest as [|y rest']; [cbn; lia|]. apply B. discriminate.
Qed.

Lemma delivers_app (o : SocketOracle) (a b : list string) :
  forall p r t,
    delivers o p r t (a ++ b) <->
    delivers o p r t a
    /\ delivers o (p + List.length a) (r + List.length a)
         (budget_after o p t (List.length a)) b.
Proof.
  induction a as [|x a IH]; intros p r t.
  - cbn. rewrite !Nat.add_0_r. tauto.
  - cbn [app delivers List.length budget_after].
    rewrite IH. rewrite !Nat.add_succ_r. cbn [Nat.add]. tauto.
Qed.

Lemma budget_after_app (o : SocketOracle) (p : nat) (t : Z) (j k : nat) :
  budget_after o p t (j + k) = budget_after o (p + j) (budget_after o p t j) k.
Proof.
  revert p t. induction j as [|j IH]; intros p t.
  - cbn. rewrite Nat.add_0_r. reflexivity.
  - cbn [Nat.add budget_after]. rewrite IH. rewrite Nat.add_succ_r. reflexivity.
Qed.

Lemma PollIn_ready (o : SocketOracle) (c : Conn) (t : Z) :
  0 < poll_nr (poll_answer o (polls_done c)) ->
  0 <= poll_millis (poll_answer o (polls_done c)) < t -> t < 2 ^ 64 ->
  PollIn o c t = Some (true, mkConn (S (polls_done c)) (recvs_done c),
                       t - poll_millis (poll_answer o (polls_done c))).
Proof.
  intros Hn Hm Ht. unfold PollIn. cbn [PollIn_loop].
  destruct (Z.gtb_spec t 0); [|lia]. cbv zeta.
  rewrite (Z.mod_small (poll_millis _)) by lia.
  destruct (Z.gtb_spec (poll_millis (poll_answer o (polls_done c))) t); [lia|].
  destruct (Z.gtb_spec (poll_nr (poll_answer o (polls_done c))) 0); [reflexivity|lia].
Qed.

(** The loop of [RecvFully] takes the pieces a peer delivers one after the
    other and appends each to what it has. *)
Lemma RecvFully_loop_pieces (o : SocketOracle) (pieces : list string) :
  forall fuel c n data t,
    (n < fuel)%nat -> t < 2 ^ 64 ->
    delivers o (polls_done c) (recvs_done c) t pieces ->
    (String.length (joined pieces) <= n)%nat ->
    RecvFully_loop fuel o c n data t =
      RecvFully_loop (fuel - List.length pieces) o
        (mkConn (polls_done c + List.length pieces) (recvs_done c + List.length pieces))
        (n - String.length (joined pieces)) (data +:+ joined pieces)
        (budget_after o (polls_done c) t (List.length pieces))
    /\ (n - String.length (joined pieces) < fuel - List.length pieces)%nat.
Proof.
  induction pieces as [|x rest IH]; intros fuel c n data t Hf Ht D Hl.
  - cbn [joined List.length budget_after String.length].
    rewrite !Nat.sub_0_r, !Nat.add_0_r.
    rewrite append_empty.
    destruct c. split; [reflexivity|exact Hf].
  - cbn [delivers] in D. destruct D as (Hn & Hm & Hr & Hx & D).
    cbn [joined] in Hl. rewrite length_append in Hl.
    assert (Lx : (0 < String.length x)%nat) by (destruct x; [contradiction|cbn; lia]).
    destruct fuel as [|fuel]; [lia|]. cbn [RecvFully_loop].
    destruct (Z.gtb_spec t 0); [|lia].
    destruct (Nat.eqb_spec n 0); [lia|]. cbn [negb andb].
    rewrite (PollIn_ready o c t Hn Hm Ht). cbv zeta. cbn [recvs_done polls_done].
    rewrite Hr. rewrite take_bytes_fits by lia.
    destruct (Nat.eqb_spec (String.length x) 0); [lia|].
    destruct (IH fuel (mkConn (S (polls_done c)) (S (recvs_done c)))
                (n - String.length x)%nat (data +:+ x)
                (t - poll_millis (poll_answer o (polls_done c))))
      as (E & F); [lia|lia|exact D|lia|].
    rewrite E. cbn [polls_done recvs_done List.length joined budget_after].
    rewrite length_append, append_assoc.
    replace (S fuel - S (List.length rest))%nat with (fuel - List.length rest)%nat by lia.
    replace (n - String.length x - String.length (joined rest))%nat
      with (n - (String.length x + String.length (joined rest)))%nat by lia.
    rewrite !Nat.add_succ_r. cbn [Nat.add].
    split; [reflexivity|]. lia.
Qed.

Lemma RecvFully_pieces (o : SocketOracle) (c : Conn) (n : nat) (t : Z)
    (pieces : list string) :
  t < 2 ^ 64 ->
  delivers o (polls_done c) (recvs_done c) t pieces ->
  String.length (joined pieces) = n ->
  RecvFully o c n t =
    Some (Some (joined pieces),
          mkConn (polls_done c + List.length pieces) (recvs_done c + List.length pieces),
          budget_after o (polls_done c) t (List.length pieces)).
Proof.
  intros Ht D Hl. unfold RecvFully.
  destruct (RecvFully_loop_pieces o pieces (S n) c n "" t) as (E & F);
    [lia|exact Ht|exact D|lia|].
  rewrite E. rewrite Hl, Nat.sub_diag in *.
  destruct (S n - List.length pieces)%nat as [|f]; [lia|].
  cbn [RecvFully_loop]. rewrite andb_false_r. reflexivity.
Qed.

Lemma RecvFully_short (o : SocketOracle) (c : Conn) (n : nat) (t : Z)
    (pieces : list string) :
  0 < t < 2 ^ 64 ->
  delivers o (polls_done c) (recvs_done c) t pieces ->
  (String.length (joined pieces) < n)%nat ->
  gone o (polls_done c + List.length pieces) (recvs_done c + List.length pieces) ->
  exists c' t', RecvFully o c n t = Some (None, c', t').
Proof.
  intros Ht D Hl G. unfold RecvFully.
  destruct (RecvFully_loop_pieces o pieces (S n) c n "" t) as (E & F);
    [lia|lia|exact D|lia|].
  rewrite E.
  destruct (delivers_budget o pieces _ _ t D ltac:(lia)) as (B1 & B2).
  assert (Bpos : 0 < budget_after o (polls_done c) t (List.length pieces)).
  { destruct pieces as [|x rest]; [cbn; lia|]. apply B2. discriminate. }
  set (b := budget_after o (polls_done c) t (List.length pieces)) in *.
  set (c1 := mkConn _ _) in *.
  destruct (S n - List.length pieces)%nat as [|f]; [lia|].
  cbn [RecvFully_loop].
  destruct (Z.gtb_spec b 0); [|lia].
  destruct (Nat.eqb_spec (n - String.length (joined pieces)) 0); [lia|]. cbn [negb andb].
  destruct G as [(G1 & G2)|(G1 & G2)].
  - unfold PollIn. cbn [PollIn_loop]. destruct (Z.gtb_spec b 0); [|lia]. cbv zeta.
    subst c1. cbn [polls_done recvs_done].
    destruct (Z.gtb_spec (poll_nr (poll_answer o (polls_done c + List.length pieces))) 0);
      [lia|].
    destruct (Z.eqb_spec (poll_nr (poll_answer o (polls_done c + List.length pieces))) 0);
      [eauto|].
    rewrite G2 by lia. cbn [negb]. eauto.
  - unfold PollIn. cbn [PollIn_loop]. destruct (Z.gtb_spec b 0); [|lia]. cbv zeta.
    subst c1. cbn [polls_done recvs_done].
    destruct (Z.gtb_spec (poll_nr (poll_answer o (polls_done c + List.length pieces))) 0);
      [|lia].
    cbn [polls_done recvs_done].
    destruct G2 as [-> | ->]; [eauto|].
    destruct (n - String.length (joined pieces))%nat; [lia|]. cbn. eauto.
Qed.

(** C8.  [RecvString] always returns.  Once the length prefix is read: a
    declared length of 0 yields the empty string; a declared length above
    65535 makes the receive fail without reading further; a declared length
    between 1 and 65535 passes the check, the receive then is the read of
    exactly that many bytes, and a string it returns has exactly the declared
    length.  A peer that delivers the prefix and a string of 1 to 65535
    bytes in time, in any number of pieces, has its string read in full:
    the pieces are put together in the order received, with one [poll] and
    one [recv] per piece, each poll's time taken off the budget.  A peer
    that is gone before the declared length has arrived makes the receive
    fail. *)
Theorem RecvString_length_limit (o : SocketOracle) (c : Conn) (timeout_ms : Z) :
  (exists r, RecvString o c timeout_ms = Some r)
  /\ (forall len c1 t1,
        RecvUint32 o c timeout_ms = Some (Some len, c1, t1) ->
        (len = 0 -> RecvString o c timeout_ms = Some (Some "", c1, t1))
        /\ (65535 < len -> RecvString o c timeout_ms = Some (None, c1, t1))
        /\ (0 < len <= 65535 ->
            RecvString o c timeout_ms = RecvChars o c1 (Z.to_nat len) t1
            /\ forall v c2 t2,
                 RecvString o c timeout_ms = Some (Some v, c2, t2) ->
                 String.length v = Z.to_nat len))
  /\ (forall prefix pieces,
        timeout_ms < 2 ^ 32 ->
        delivers o (polls_done c) (recvs_done c) timeout_ms (prefix ++ pieces) ->
        String.length (joined prefix) = 4%nat ->
        decode_le (joined prefix) = Z.of_nat (String.length (joined pieces)) ->
        0 < Z.of_nat (String.length (joined pieces)) <= 65535 ->
        RecvString o c timeout_ms =
          Some (Some (joined pieces),
                mkConn (polls_done c + List.length (prefix ++ pieces))
                       (recvs_done c + List.length (prefix ++ pieces)),
                budget_after o (polls_done c) timeout_ms (List.length (prefix ++ pieces))))
  /\ (forall prefix pieces,
        timeout_ms < 2 ^ 32 ->
        delivers o (polls_done c) (recvs_done c) timeout_ms (prefix ++ pieces) ->
        String.length (joined prefix) = 4%nat ->
        0 < decode_le (joined prefix) <= 65535 ->
        Z.of_nat (String.length (joined pieces)) < decode_le (joined prefix) ->
        gone o (polls_done c + List.length (prefix ++ pieces))
               (recvs_done c + List.length (prefix ++ pieces)) ->
        exists c' t', RecvString o c timeout_ms = Some (None, c', t')).
Proof.
  assert (P64 : 2 ^ 32 < 2 ^ 64) by (vm_compute; reflexivity).
  split; [|split; [|split]].
  - unfold RecvString, RecvUint32.
    destruct (RecvFully_total o c 4 timeout_ms) as ([[[d|] c1] t1] & ->); [|eauto].
    destruct (decode_le d =? 0); [eauto|].
    destruct (decode_le d >? 65535); [eauto|].
    apply RecvFully_total.
  - intros len c1 t1 H. unfold RecvString. rewrite H.
    split; [|split].
    + intros ->. reflexivity.
    + intros Hl. destruct (Z.eqb_spec len 0); [lia|].
      destruct (Z.gtb_spec len 65535); [reflexivity|lia].
    + intros Hl. destruct (Z.eqb_spec len 0); [lia|].
      destruct (Z.gtb_spec len 65535); [lia|].
      split; [reflexivity|]. intros v c2 t2 Hv. apply RecvFully_length in Hv. exact Hv.
  - intros prefix pieces Ht D Hp Hd Hl.
    apply delivers_app in D. destruct D as (D1 & D2).
    unfold RecvString, RecvUint32.
    rewrite (RecvFully_pieces o c 4 timeout_ms prefix) by first [assumption | lia].
    rewrite Hd.
    destruct (Z.eqb_spec (Z.of_nat (String.length (joined pieces))) 0); [lia|].
    destruct (Z.gtb_spec (Z.of_nat (String.length (joined pieces))) 65535); [lia|].
    unfold RecvChars. rewrite Nat2Z.id.
    assert (Hne : prefix <> []) by (intros ->; discriminate Hp).
    destruct (delivers_budget o prefix _ _ timeout_ms D1) as (B1 & B2).
    { destruct prefix as [|x rest]; [contradiction|].
      cbn [delivers] in D1. lia. }
    rewrite (RecvFully_pieces o _ (String.length (joined pieces)) _ pieces);
      cbn [polls_done recvs_done]; [|lia|exact D2|reflexivity].
    rewrite length_app, budget_after_app, !Nat.add_assoc. reflexivity.
  - intros prefix pieces Ht D Hp Hd Hl G.
    apply delivers_app in D. destruct D as (D1 & D2).
    unfold RecvString, RecvUint32.
    rewrite (RecvFully_pieces o c 4 timeout_ms prefix) by first [assumption | lia].
    destruct (Z.eqb_spec (decode_le (joined prefix)) 0); [lia|].
    destruct (Z.gtb_spec (decode_le (joined prefix)) 65535); [lia|].
    unfold RecvChars.
    assert (Hne : prefix <> []) by (intros ->; discriminate Hp).
    destruct (delivers_budget o prefix _ _ timeout_ms D1) as (B1 & B2).
    { destruct prefix as [|x rest]; [contradiction|].
      cbn [delivers] in D1. lia. }
    destruct (B2 Hne) as (B3 & B4).
    apply (RecvFully_short o _ _ _ pieces); cbn [polls_done recvs_done].
    + lia.
    + exact D2.
    + lia.
    + rewrite length_app, !Nat.add_assoc in G. exact G.
Qed.

Lemma length_string_repeat (n : nat) (c : ascii) : String.length (string_repeat n c) = n.
Proof. induction n as [|n IH]; [reflexivity|]. cbn. rewrite IH. reflexivity. Qed.

Lemma RecvString_length_limit_witness :
  RecvString (piecewise_peer 1 [header_of 255 255 0 0;
                                string_repeat (Z.to_nat 65000) "a"%char;
                                string_repeat (Z.to_nat 535) "a"%char])
             (mkConn 0 0) 2000
    = Some (Some (joined [string_repeat (Z.to_nat 65000) "a"%char;
                          string_repeat (Z.to_nat 535) "a"%char]),
            mkConn 3 3, 1997)
  /\ RecvString (piecewise_peer 1 [header_of 0 0 1 0]) (mkConn 0 0) 2000
    = Some (None, mkConn 1 1, 1999).
Proof.
  split.
  - rewrite (proj1 (proj2 (proj2 (RecvString_length_limit
               (piecewise_peer 1 [header_of 255 255 0 0;
                                  string_repeat (Z.to_nat 65000) "a"%char;
                                  string_repeat (Z.to_nat 535) "a"%char])
               (mkConn 0 0) 2000)))
             [header_of 255 255 0 0]
             [string_repeat (Z.to_nat 65000) "a"%char;
              string_repeat (Z.to_nat 535) "a"%char]).
    + reflexivity.
    + reflexivity.
    + cbn [app delivers piecewise_peer poll_answer recv_answer poll_nr poll_millis
           polls_done recvs_done nth_error].
      repeat split; try lia; try discriminate;
        intros H; apply (f_equal String.length) in H;
        rewrite length_string_repeat in H; cbn in H; lia.
    + reflexivity.
    + cbn [joined]. rewrite !length_append, !length_string_repeat. reflexivity.
    + cbn [joined]. rewrite !length_append, !length_string_repeat. cbn. lia.
  - apply (proj1 (proj2 (proj1 (proj2 (RecvString_length_limit
             (piecewise_peer 1 [header_of 0 0 1 0]) (mkConn 0 0) 2000))
             65536 (mkConn 1 1) 1999 eq_refl))).
    lia.
Defined.

(* ================================================================== *)
(** * Further properties of the supervisor *)
(* ================================================================== *)

(** Bits of the flag word after [Reap] has cleared RUNNING (and EXEC). *)
Lemma reap_cleared_bit (e : Env) (w : World) (b : Z) :
  single_bit b ->
  has (flag_clear (flags (Reap_prologue e w)) SVC_RUNNING) b =
    if (b =? SVC_RUNNING) || (b =? SVC_EXEC) then false else has (flags w) b.
Proof.
  intros Hb. rewrite has_flag_clear, prologue_bit by exact Hb.
  rewrite (has_single SVC_RUNNING b) by auto with flags.
  destruct (Z.eqb_spec b SVC_RUNNING) as [->|]; [has_closed; apply andb_false_r|].
  destruct (Z.eqb_spec b SVC_EXEC); cbn [orb negb]; [reflexivity|apply andb_true_r].
Qed.

Lemma Reap_stopped_path (e : Env) (w : World) :
  has (flags w) SVC_TEMPORARY = false ->
  has (flags w) SVC_DISABLED || has (flags w) SVC_RESET
    || has (flags w) SVC_ONESHOT && negb (has (flags w) SVC_RESTART) = true ->
  exists w',
    Reap e w = Returned Ok w'
    /\ pid_ (svc w') = 0 /\ start_order_ (svc w') = 0
    /\ crash_count_ (svc w') = crash_count_ (svc w)
    /\ time_crashed_ (svc w') = time_crashed_ (svc w)
    /\ (forall b, single_bit b ->
          has (flags w') b =
            if (b =? SVC_RUNNING) || (b =? SVC_EXEC) then false
            else if b =? SVC_DISABLED
            then has (flags w) SVC_DISABLED
                 || has (flags w) SVC_ONESHOT && negb (has (flags w) SVC_RESTART)
                    && negb (has (flags w) SVC_RESET)
            else has (flags w) b)
    /\ trace w' =
         trace w ++
           (if negb (has (flags w) SVC_ONESHOT) || has (flags w) SVC_RESTART
            then kill_events w SIGKILL else [])
           ++ [EvCleanDescriptors; EvReapCallbacks; state_property w "stopped"].
Proof.
  intros Htmp HD.
  pose proof (Reap_prologue_frame e w) as Hp. cbv zeta in Hp.
  destruct Hp as (_ & _ & Hname & Hcc & Htc & _ & _ & Htr).
  rewrite Reap_unfold. cbv zeta.
  rewrite (prologue_bit e w SVC_TEMPORARY) by auto with flags. has_closed. cbv iota.
  rewrite Htmp.
  cbn [flags upd svc set_flags set_pid set_start_order flags_].
  fold (flags (Reap_prologue e w)).
  rewrite !(reap_cleared_bit e w) by auto with flags. has_closed. cbn [orb]. cbv iota.
  set (w2 := upd (set_start_order 0) _).
  assert (F2 : flags w2 = flag_clear (flags (Reap_prologue e w)) SVC_RUNNING) by reflexivity.
  set (c := has (flags w) SVC_ONESHOT && negb (has (flags w) SVC_RESTART)
            && negb (has (flags w) SVC_RESET)) in *.
  set (w3 := if c then _ else w2).
  assert (F3 : forall b, single_bit b ->
            has (flags w3) b =
              if (b =? SVC_RUNNING) || (b =? SVC_EXEC) then false
              else if b =? SVC_DISABLED then has (flags w) SVC_DISABLED || c
              else has (flags w) b).
  { intros b Hb. subst w3. destruct c.
    - rewrite flags_upd_set_flags, has_flag_set, (reap_cleared_bit e w) by exact Hb.
      rewrite (has_single SVC_DISABLED b) by auto with flags.
      destruct (Z.eqb_spec b SVC_RUNNING) as [->|]; [reflexivity|].
      destruct (Z.eqb_spec b SVC_EXEC) as [->|]; [reflexivity|].
      destruct (Z.eqb_spec b SVC_DISABLED) as [->|]; has_cases; reflexivity.
    - rewrite F2, (reap_cleared_bit e w) by exact Hb.
      destruct (Z.eqb_spec b SVC_RUNNING) as [->|]; [reflexivity|].
      destruct (Z.eqb_spec b SVC_EXEC) as [->|]; [reflexivity|].
      destruct (Z.eqb_spec b SVC_DISABLED) as [->|]; has_cases; reflexivity. }
  assert (S3 : pid_ (svc w3) = 0 /\ start_order_ (svc w3) = 0
               /\ crash_count_ (svc w3) = crash_count_ (svc (Reap_prologue e w))
               /\ time_crashed_ (svc w3) = time_crashed_ (svc (Reap_prologue e w))
               /\ name_ (svc w3) = name_ (svc (Reap_prologue e w))
               /\ trace w3 = trace (Reap_prologue e w)).
  { subst w3. destruct c; repeat split. }
  destruct S3 as (S1 & S2 & S4 & S5 & S6 & S7).
  clearbody w3. 
  rewrite has_lor, !F3 by auto with flags. has_closed. cbn [orb]. cbv iota.
  assert (HD' : has (flags w) SVC_DISABLED || c || has (flags w) SVC_RESET = true).
  { subst c. revert HD.
    destruct (has (flags w) SVC_DISABLED), (has (flags w) SVC_RESET),
             (has (flags w) SVC_ONESHOT), (has (flags w) SVC_RESTART); cbn; auto. }
  rewrite HD'.
  eexists. split; [reflexivity|].
  rewrite svc_NotifyStateChange, flags_NotifyStateChange.
  split; [exact S1|]. split; [exact S2|].
  split; [rewrite S4; exact Hcc|]. split; [rewrite S5; exact Htc|].
  split; [exact F3|].
  rewrite trace_NotifyStateChange by discriminate.
  unfold publish, state_property. rewrite (F3 SVC_TEMPORARY) by auto with flags.
  has_closed. cbn [orb]. cbv iota. rewrite Htmp, S6, S7, Htr, Hname, <- !app_assoc.
  reflexivity.
Qed.

Lemma Reap_restarting_path (e : Env) (w : World) :
  has (flags w) SVC_TEMPORARY = false ->
  has (flags w) SVC_DISABLED = false -> has (flags w) SVC_RESET = false ->
  has (flags w) SVC_ONESHOT && negb (has (flags w) SVC_RESTART) = false ->
  crash_guard e w = false ->
  exists w',
    Reap e w = Returned Ok w'
    /\ pid_ (svc w') = 0 /\ start_order_ (svc w') = 0
    /\ crash_count_ (svc w') = crash_count_ (svc w)
    /\ time_crashed_ (svc w') = time_crashed_ (svc w)
    /\ (forall b, single_bit b ->
          has (flags w') b =
            if (b =? SVC_RUNNING) || (b =? SVC_EXEC) || (b =? SVC_RESTART) then false
            else if b =? SVC_RESTARTING then true
            else has (flags w) b)
    /\ trace w' =
         trace w ++ kill_events w SIGKILL
           ++ [EvCleanDescriptors; EvReapCallbacks; EvOnRestart;
               state_property w "restarting"].
Proof.
  intros Htmp Hd Hr Hos Hg.
  pose proof (Reap_prologue_frame e w) as Hp. cbv zeta in Hp.
  destruct Hp as (_ & _ & Hname & Hcc & Htc & Hpa & _ & Htr).
  assert (Hk : negb (has (flags w) SVC_ONESHOT) || has (flags w) SVC_RESTART = true).
  { revert Hos. destruct (has (flags w) SVC_ONESHOT), (has (flags w) SVC_RESTART);
      cbn; auto. }
  rewrite Hk in Htr.
  rewrite Reap_unfold. cbv zeta.
  rewrite (prologue_bit e w SVC_TEMPORARY) by auto with flags. has_closed. cbv iota.
  rewrite Htmp.
  cbn [flags upd svc set_flags set_pid set_start_order flags_].
  fold (flags (Reap_prologue e w)).
  rewrite !(reap_cleared_bit e w) by auto with flags. has_closed. cbn [orb]. cbv iota.
  assert (Hos' : has (flags w) SVC_ONESHOT && negb (has (flags w) SVC_RESTART)
                 && negb (has (flags w) SVC_RESET) = false) by (rewrite Hos; reflexivity).
  rewrite Hos'.
  set (w2 := upd (set_start_order 0) _).
  assert (F2 : flags w2 = flag_clear (flags (Reap_prologue e w)) SVC_RUNNING) by reflexivity.
  rewrite has_lor, F2, !(reap_cleared_bit e w) by auto with flags.
  has_closed. cbn [orb]. cbv iota. rewrite Hd, Hr. cbn [orb].
  assert (G : Reap_crash_policy e w2 = inr w2).
  { unfold Reap_crash_policy. cbv zeta.
    rewrite F2, !(reap_cleared_bit e w) by auto with flags. has_closed. cbn [orb]. cbv iota.
    change (pre_apexd_ (svc w2)) with (pre_apexd_ (svc (Reap_prologue e w))).
    rewrite Hpa. unfold crash_guard in Hg. rewrite Hg. reflexivity. }
  rewrite G.
  eexists. split; [reflexivity|].
  rewrite svc_NotifyStateChange, flags_NotifyStateChange.
  split; [reflexivity|]. split; [reflexivity|].
  split; [exact Hcc|]. split; [exact Htc|].
  assert (FB : forall b, single_bit b ->
          has (flag_set (flag_clear (flags w2) SVC_RESTART) SVC_RESTARTING) b =
            if (b =? SVC_RUNNING) || (b =? SVC_EXEC) || (b =? SVC_RESTART) then false
            else if b =? SVC_RESTARTING then true
            else has (flags w) b).
  { intros b Hb. rewrite has_flag_set, has_flag_clear, F2, (reap_cleared_bit e w) by exact Hb.
    rewrite (has_single SVC_RESTART b), (has_single SVC_RESTARTING b) by auto with flags.
    destruct (Z.eqb_spec b SVC_RUNNING) as [->|]; [has_closed; has_cases; reflexivity|].
    destruct (Z.eqb_spec b SVC_EXEC) as [->|]; [has_closed; has_cases; reflexivity|].
    destruct (Z.eqb_spec b SVC_RESTART) as [->|]; [has_closed; has_cases; reflexivity|].
    destruct (Z.eqb_spec b SVC_RESTARTING) as [->|]; has_closed; has_cases; reflexivity. }
  split; [exact FB|].
  rewrite trace_NotifyStateChange by discriminate.
  unfold publish, state_property.
  cbn [emit upd svc trace flags flags_ set_flags name_].
  fold (flags w2). rewrite (FB SVC_TEMPORARY) by auto with flags.
  has_closed. cbn [orb]. cbv iota. rewrite Htmp.
  change (trace w2) with (trace (Reap_prologue e w)).
  change (name_ (svc w2)) with (name_ (svc (Reap_prologue e w))).
  rewrite Htr, Hname, <- !app_assoc. reflexivity.
Qed.

Lemma StopOrReset_crash_fields (e : Env) (how : Z) (w : World) :
  crash_count_ (svc (StopOrReset e how w)) = crash_count_ (svc w)
  /\ time_crashed_ (svc (StopOrReset e how w)) = time_crashed_ (svc w).
Proof.
  unfold StopOrReset. cbv zeta.
  repeat match goal with
  | |- context [if ?c then _ else _] => destruct c
  end; rewrite ?svc_NotifyStateChange, ?svc_KillProcessGroup;
  repeat match goal with
  | |- context [if ?c then _ else _] => destruct c
  end; repeat split.
Qed.

(** After [StopOrReset] the TEMPORARY flag is as before. *)
Lemma StopOrReset_keeps_bit (e : Env) (how : Z) (w : World) (b : Z) :
  single_bit b ->
  b <> SVC_RESTARTING -> b <> SVC_DISABLED_START -> b <> SVC_RESTART ->
  b <> SVC_DISABLED -> b <> SVC_RESET ->
  has (flags (StopOrReset e how w)) b = has (flags w) b.
Proof.
  intros Hb H1 H2 H3 H4 H5. rewrite StopOrReset_flags_bit by exact Hb.
  destruct (Z.eqb_spec b SVC_RESTARTING); [contradiction|].
  destruct (Z.eqb_spec b SVC_DISABLED_START); [contradiction|].
  destruct (Z.eqb_spec b SVC_RESTART); [contradiction|].
  destruct (Z.eqb_spec b SVC_DISABLED); [contradiction|].
  destruct (Z.eqb_spec b SVC_RESET); [contradiction|].
  cbn [orb]. split_ifs; reflexivity.
Qed.

Lemma StopOrReset_then_Reap (e1 e2 : Env) (how : Z) (w : World) :
  has (flags w) SVC_TEMPORARY = false ->
  how <> SVC_RESTART ->
  exists w',
    Reap e2 (StopOrReset e1 how w) = Returned Ok w'
    /\ pid_ (svc w') = 0
    /\ has (flags w') SVC_RUNNING = false
    /\ has (flags w') SVC_RESTARTING = false
    /\ has (flags w') SVC_RESTART = false
    /\ has (flags w') SVC_DISABLED || has (flags w') SVC_RESET = true
    /\ crash_count_ (svc w') = crash_count_ (svc w)
    /\ time_crashed_ (svc w') = time_crashed_ (svc w)
    /\ trace w' =
         trace (StopOrReset e1 how w)
           ++ (if has (flags w) SVC_ONESHOT then []
               else kill_events (StopOrReset e1 how w) SIGKILL)
           ++ [EvCleanDescriptors; EvReapCallbacks; state_property w "stopped"].
Proof.
  intros Htmp Hhow.
  set (w1 := StopOrReset e1 how w).
  assert (B : forall b, single_bit b -> has (flags w1) b = _)
    by (intros b Hb; apply (StopOrReset_flags_bit e1 how w b Hb)).
  assert (T1 : has (flags w1) SVC_TEMPORARY = false).
  { subst w1. rewrite StopOrReset_keeps_bit by bitne. exact Htmp. }
  assert (O1 : has (flags w1) SVC_ONESHOT = has (flags w) SVC_ONESHOT).
  { subst w1. rewrite StopOrReset_keeps_bit by bitne. reflexivity. }
  assert (Hrst : has (flags w1) SVC_RESTART = false).
  { rewrite B by auto with flags. has_closed. cbn [orb]. cbv iota.
    destruct (how =? SVC_RESET); [reflexivity|].
    destruct (Z.eqb_spec how SVC_RESTART); [contradiction|reflexivity]. }
  assert (Hing : has (flags w1) SVC_RESTARTING = false).
  { rewrite B by auto with flags. has_closed. reflexivity. }
  assert (HD : has (flags w1) SVC_DISABLED || has (flags w1) SVC_RESET = true).
  { rewrite !B by auto with flags. has_closed. cbn [orb]. cbv iota.
    destruct (how =? SVC_RESET).
    - has_cases; reflexivity.
    - destruct (Z.eqb_spec how SVC_RESTART); [contradiction|reflexivity]. }
  destruct (Reap_stopped_path e2 w1 T1) as (w' & E & P & _ & C & T & Bits & Tr).
  { rewrite HD. reflexivity. }
  exists w'. split; [exact E|]. split; [exact P|].
  split; [rewrite Bits by auto with flags; reflexivity|].
  split; [rewrite Bits by auto with flags; has_closed; exact Hing|].
  split; [rewrite Bits by auto with flags; has_closed; exact Hrst|].
  split.
  { rewrite !Bits by auto with flags. has_closed. cbn [orb]. cbv iota.
    revert HD. has_cases; cbn; auto. }
  destruct (svc_StopOrReset_frame e1 how w) as (_ & Hn & _ & Hc).
  split; [rewrite C; exact Hc|].
  split; [rewrite T; apply StopOrReset_crash_fields|].
  rewrite Tr, Hrst, O1. unfold state_property. fold w1 in Hn. rewrite Hn.
  destruct (has (flags w) SVC_ONESHOT); reflexivity.
Qed.

(** X1.  For every service without TEMPORARY and every [how] other than
    SVC_RESTART (illegal values included, which count as SVC_DISABLED): when
    the process is reaped after [StopOrReset how], [Reap] returns with pid 0,
    RUNNING, RESTARTING and RESTART clear and DISABLED or RESET set, the
    crash accounting untouched, and its actions are the group kill (skipped
    for a ONESHOT service), the descriptor clean-up, the callbacks and the
    publication of "stopped": the onrestart commands do not run and the
    service is not restarted. *)
Theorem stopped_service_stays_down (e1 e2 : Env) (how : Z) (w : World) :
  has (flags w) SVC_TEMPORARY = false ->
  how <> SVC_RESTART ->
  exists w',
    Reap e2 (StopOrReset e1 how w) = Returned Ok w'
    /\ pid_ (svc w') = 0
    /\ has (flags w') SVC_RUNNING = false
    /\ has (flags w') SVC_RESTARTING = false
    /\ has (flags w') SVC_RESTART = false
    /\ has (flags w') SVC_DISABLED || has (flags w') SVC_RESET = true
    /\ crash_count_ (svc w') = crash_count_ (svc w)
    /\ time_crashed_ (svc w') = time_crashed_ (svc w)
    /\ trace w' =
         trace (StopOrReset e1 how w)
           ++ (if has (flags w) SVC_ONESHOT then []
               else kill_events (StopOrReset e1 how w) SIGKILL)
           ++ [EvCleanDescriptors; EvReapCallbacks; state_property w "stopped"].
Proof. exact (StopOrReset_then_Reap e1 e2 how w). Qed.

Lemma stopped_service_stays_down_witness :
  has (flags (sample_world SVC_RUNNING 100)) SVC_TEMPORARY = false /\
  SVC_DISABLED <> SVC_RESTART /\
  exists w', Reap sample_env (StopOrReset sample_env SVC_DISABLED (sample_world SVC_RUNNING 100))
             = Returned Ok w' /\ pid_ (svc w') = 0.
Proof.
  split; [reflexivity|]. split; [discriminate|].
  destruct (stopped_service_stays_down sample_env sample_env SVC_DISABLED
              (sample_world SVC_RUNNING 100) eq_refl ltac:(discriminate))
    as (w' & E & P & _).
  exists w'. split; [exact E|exact P].
Defined.

(** X2.  For every running service without TEMPORARY, [Restart] followed by
    the [Reap] of its process leaves the service RESTARTING with pid 0 and
    neither DISABLED nor RESET, whether or not it is ONESHOT or CRITICAL; the
    exit is not counted as a crash (crash_count and time_crashed are
    unchanged), the onrestart commands run and "restarting" is published. *)
Theorem manual_restart_is_no_crash (e1 e2 : Env) (w : World) :
  has (flags w) SVC_TEMPORARY = false ->
  has (flags w) SVC_RUNNING = true ->
  exists w1 w',
    Restart e1 w = Returned Ok w1
    /\ Reap e2 w1 = Returned Ok w'
    /\ pid_ (svc w') = 0
    /\ has (flags w') SVC_RUNNING = false
    /\ has (flags w') SVC_RESTARTING = true
    /\ has (flags w') SVC_RESTART = false
    /\ has (flags w') SVC_DISABLED = false
    /\ has (flags w') SVC_RESET = false
    /\ crash_count_ (svc w') = crash_count_ (svc w)
    /\ time_crashed_ (svc w') = time_crashed_ (svc w)
    /\ trace w' =
         trace w1 ++ kill_events w1 SIGKILL
           ++ [EvCleanDescriptors; EvReapCallbacks; EvOnRestart;
               state_property w "restarting"].
Proof.
  intros Htmp Hrun.
  set (w1 := StopOrReset e1 SVC_RESTART w).
  assert (B : forall b, single_bit b -> has (flags w1) b = _)
    by (intros b Hb; apply (StopOrReset_flags_bit e1 SVC_RESTART w b Hb)).
  assert (T1 : has (flags w1) SVC_TEMPORARY = false).
  { subst w1. rewrite StopOrReset_keeps_bit by bitne. exact Htmp. }
  assert (Hrst : has (flags w1) SVC_RESTART = true).
  { rewrite B by auto with flags. has_closed. reflexivity. }
  assert (Hd : has (flags w1) SVC_DISABLED = false).
  { rewrite B by auto with flags. has_closed. reflexivity. }
  assert (Hr : has (flags w1) SVC_RESET = false).
  { rewrite B by auto with flags. has_closed. reflexivity. }
  destruct (Reap_restarting_path e2 w1 T1 Hd Hr) as (w' & E & P & _ & C & T & Bits & Tr).
  { rewrite Hrst. apply andb_false_r. }
  { unfold crash_guard. rewrite Hrst. apply andb_false_r. }
  exists w1, w'.
  split; [unfold Restart; rewrite Hrun; reflexivity|].
  split; [exact E|]. split; [exact P|].
  split; [rewrite Bits by auto with flags; reflexivity|].
  split; [rewrite Bits by auto with flags; reflexivity|].
  split; [rewrite Bits by auto with flags; reflexivity|].
  split; [rewrite Bits by auto with flags; has_closed; exact Hd|].
  split; [rewrite Bits by auto with flags; has_closed; exact Hr|].
  destruct (svc_StopOrReset_frame e1 SVC_RESTART w) as (_ & Hn & _ & Hc).
  split; [rewrite C; exact Hc|].
  split; [rewrite T; apply StopOrReset_crash_fields|].
  rewrite Tr. unfold state_property. fold w1 in Hn. rewrite Hn. reflexivity.
Qed.

Lemma manual_restart_is_no_crash_witness :
  has (flags (sample_world SVC_RUNNING 100)) SVC_TEMPORARY = false /\
  has (flags (sample_world SVC_RUNNING 100)) SVC_RUNNING = true /\
  exists w1 w', Restart sample_env (sample_world SVC_RUNNING 100) = Returned Ok w1
                /\ Reap sample_env w1 = Returned Ok w'
                /\ has (flags w') SVC_RESTARTING = true.
Proof.
  split; [reflexivity|]. split; [reflexivity|].
  destruct (manual_restart_is_no_crash sample_env sample_env
              (sample_world SVC_RUNNING 100) eq_refl eq_refl)
    as (w1 & w' & E1 & E2 & _ & _ & R & _).
  exists w1, w'. split; [exact E1|]. split; [exact E2|exact R].
Defined.

(** X3.  When the process of a ONESHOT service (not TEMPORARY, RESTART not
    requested) exits, [Reap] sends no signal to the process group, clears
    RUNNING and the pid, sets DISABLED unless RESET is set, leaves
    RESTARTING and the crash count as they were and publishes "stopped". *)
Theorem oneshot_exit_disables (e : Env) (w : World) :
  has (flags w) SVC_TEMPORARY = false ->
  has (flags w) SVC_ONESHOT = true ->
  has (flags w) SVC_RESTART = false ->
  exists w',
    Reap e w = Returned Ok w'
    /\ pid_ (svc w') = 0
    /\ has (flags w') SVC_RUNNING = false
    /\ has (flags w') SVC_RESTARTING = has (flags w) SVC_RESTARTING
    /\ has (flags w') SVC_DISABLED = has (flags w) SVC_DISABLED || negb (has (flags w) SVC_RESET)
    /\ crash_count_ (svc w') = crash_count_ (svc w)
    /\ trace w' =
         trace w ++ [EvCleanDescriptors; EvReapCallbacks; state_property w "stopped"].
Proof.
  intros Htmp Hone Hrst.
  destruct (Reap_stopped_path e w Htmp) as (w' & E & P & _ & C & _ & Bits & Tr).
  { rewrite Hone, Hrst. apply orb_true_r. }
  exists w'. split; [exact E|]. split; [exact P|].
  split; [rewrite Bits by auto with flags; reflexivity|].
  split; [rewrite Bits by auto with flags; reflexivity|].
  split; [rewrite Bits by auto with flags; has_closed; rewrite Hone, Hrst; reflexivity|].
  split; [exact C|].
  rewrite Tr, Hone, Hrst. reflexivity.
Qed.

Lemma oneshot_exit_disables_witness :
  has (flags (sample_world (Z.lor SVC_RUNNING SVC_ONESHOT) 100)) SVC_TEMPORARY = false /\
  has (flags (sample_world (Z.lor SVC_RUNNING SVC_ONESHOT) 100)) SVC_ONESHOT = true /\
  has (flags (sample_world (Z.lor SVC_RUNNING SVC_ONESHOT) 100)) SVC_RESTART = false /\
  exists w', Reap sample_env (sample_world (Z.lor SVC_RUNNING SVC_ONESHOT) 100)
             = Returned Ok w'
             /\ has (flags w') SVC_DISABLED = true.
Proof.
  split; [reflexivity|]. split; [reflexivity|]. split; [reflexivity|].
  destruct (oneshot_exit_disables sample_env
              (sample_world (Z.lor SVC_RUNNING SVC_ONESHOT) 100) eq_refl eq_refl eq_refl)
    as (w' & E & _ & _ & _ & D & _).
  exists w'. split; [exact E|exact D].
Defined.
Lemma has_start_cleared (f b : Z) :
  single_bit b ->
  has (flag_clear f start_cleared) b =
    if (b =? SVC_DISABLED) || (b =? SVC_RESTARTING) || (b =? SVC_RESET)
       || (b =? SVC_RESTART) || (b =? SVC_DISABLED_START)
    then false else has f b.
Proof.
  intros Hb. unfold start_cleared. solve_bits b.
Qed.

Lemma world_NotifyStateChange (e : Env) (st : string) (w : World) :
  next_start_order_ (NotifyStateChange e st w) = next_start_order_ w
  /\ is_exec_service_running_ (NotifyStateChange e st w) = is_exec_service_running_ w.
Proof. unfold NotifyStateChange. split_ifs; split; reflexivity. Qed.

Lemma trace_NotifyStateChange_running (e : Env) (w : World) :
  trace (NotifyStateChange e "running" w) =
    trace w ++
      (if has (flags w) SVC_TEMPORARY then []
       else state_property w "running"
            :: (if boottime_unset e
                then [EvPropertySet ("ro.boottime." +:+ name_ (svc w))
                                    (pretty (time_started_ (svc w) mod 2 ^ 64))]
                else [])).
Proof.
  unfold NotifyStateChange, state_property.
  destruct (has (flags w) SVC_TEMPORARY); [symmetry; apply app_nil_r|].
  change (String.eqb "running" "running") with true. cbv iota.
  destruct (boottime_unset e); cbn [emit trace]; [|reflexivity].
  rewrite <- app_assoc. reflexivity.
Qed.

(** [Start] of a service that passes the tests, with a fork that succeeds. *)
Lemma Start_stopped_ok (e : Env) (w : World) :
  reaches_fork e w = true ->
  0 < fork_ret e ->
  exists w',
    Start e w = Returned Ok w'
    /\ pid_ (svc w') = fork_ret e
    /\ (forall b, single_bit b ->
          has (flags w') b =
            if b =? SVC_RUNNING then true
            else if (b =? SVC_DISABLED) || (b =? SVC_RESTARTING) || (b =? SVC_RESET)
                    || (b =? SVC_RESTART) || (b =? SVC_DISABLED_START)
            then false else has (flags w) b)
    /\ start_order_ (svc w') = next_start_order_ w
    /\ next_start_order_ w' = (next_start_order_ w + 1) mod 2 ^ 64
    /\ process_cgroup_empty_ (svc w') = false
    /\ time_started_ (svc w') = now e
    /\ post_data_ (svc w') = is_post_data e
    /\ pre_apexd_ (svc w') = pre_apexd_ (svc w) || negb (runtime_apex_ready e)
    /\ is_exec_service_running_ w' = is_exec_service_running_ w
    /\ trace w' = trace w ++ start_events e w.
Proof.
  unfold reaches_fork, start_context. intros H Hf.
  apply andb_prop in H as [H Hctx]. apply andb_prop in H as [H Hstat].
  apply andb_prop in H as [H Hcon]. apply andb_prop in H as [Hupd Hrun].
  apply negb_true_iff in Hupd, Hrun, Hcon, Hstat.
  unfold Start. rewrite Hupd. cbv zeta. fold start_cleared.
  rewrite !flags_upd_set_flags.
  rewrite !has_start_cleared by auto with flags. has_closed. cbn [orb]. cbv iota.
  rewrite Hrun.
  set (w1 := upd (set_flags (flag_clear (flags w) start_cleared)) w).
  set (w2 := if has (flags w) SVC_CONSOLE && String.eqb (console_ (svc w1)) ""
             then upd (set_console default_console) w1 else w1).
  assert (E2 : flags w2 = flag_clear (flags w) start_cleared
               /\ seclabel_ (svc w2) = seclabel_ (svc w)
               /\ pre_apexd_ (svc w2) = pre_apexd_ (svc w)
               /\ namespace_flags_ (svc w2) = namespace_flags_ (svc w)
               /\ oom_score_adjust_ (svc w2) = oom_score_adjust_ (svc w)
               /\ uid_ (svc w2) = uid_ (svc w)
               /\ use_memcg_ (svc w2) = use_memcg_ (svc w)
               /\ name_ (svc w2) = name_ (svc w)
               /\ next_start_order_ w2 = next_start_order_ w
               /\ is_exec_service_running_ w2 = is_exec_service_running_ w
               /\ trace w2 = trace w).
  { subst w2. destruct (has (flags w) SVC_CONSOLE && String.eqb _ _); repeat split; reflexivity. }
  destruct E2 as (F2 & S2 & A2 & N2 & O2 & U2 & M2 & Nm2 & C2 & X2 & T2).
  clearbody w2.
  rewrite Hcon, Hstat, S2.
  destruct (if negb (String.eqb (seclabel_ (svc w)) "") then _ else _) as [scon|msg];
    [|discriminate Hctx].
  set (w3 := upd (set_post_data (is_post_data e)) _).
  assert (E3 : flags w3 = flag_clear (flags w) start_cleared
               /\ pre_apexd_ (svc w3) = pre_apexd_ (svc w) || negb (runtime_apex_ready e)
               /\ post_data_ (svc w3) = is_post_data e
               /\ namespace_flags_ (svc w3) = namespace_flags_ (svc w)
               /\ oom_score_adjust_ (svc w3) = oom_score_adjust_ (svc w)
               /\ uid_ (svc w3) = uid_ (svc w)
               /\ use_memcg_ (svc w3) = use_memcg_ (svc w)
               /\ name_ (svc w3) = name_ (svc w)
               /\ next_start_order_ w3 = next_start_order_ w
               /\ is_exec_service_running_ w3 = is_exec_service_running_ w
               /\ trace w3 = trace w).
  { subst w3. rewrite <- A2.
    destruct (runtime_apex_ready e), (pre_apexd_ (svc w2)) eqn:Hp;
      cbn [negb andb orb]; rewrite ?Hp; repeat split; assumption. }
  destruct E3 as (F3 & A3 & P3 & N3 & O3 & U3 & M3 & Nm3 & C3 & X3 & T3).
  clearbody w3.
  unfold Start_fork. cbv zeta.
  destruct (Z.eqb_spec (fork_ret e) 0) as [E0|_]; [lia|].
  destruct (Z.ltb_spec (fork_ret e) 0) as [Lt|_]; [lia|].
  match goal with |- context [NotifyStateChange e "running" ?x] => set (w4 := x) end.
  assert (E4 : pid_ (svc w4) = fork_ret e
               /\ flags w4 = flag_set (flags w3) SVC_RUNNING
               /\ start_order_ (svc w4) = next_start_order_ w3
               /\ next_start_order_ w4 = (next_start_order_ w3 + 1) mod 2 ^ 64
               /\ process_cgroup_empty_ (svc w4) = false
               /\ time_started_ (svc w4) = now e
               /\ post_data_ (svc w4) = post_data_ (svc w3)
               /\ pre_apexd_ (svc w4) = pre_apexd_ (svc w3)
               /\ is_exec_service_running_ w4 = is_exec_service_running_ w3
               /\ name_ (svc w4) = name_ (svc w3)
               /\ trace w4 = trace w3 ++
                    [if negb (namespace_flags_ (svc w3) =? 0)
                     then EvClone (namespace_flags_ (svc w3)) else EvFork]
                    ++ (if negb (oom_score_adjust_ (svc w3) =? -1000)
                        then [EvWriteOomScoreAdj (fork_ret e) (oom_score_adjust_ (svc w3))]
                        else [])
                    ++ [EvCreateProcessGroup (uid_ (svc w3)) (fork_ret e)
                          (use_memcg_ (svc w3))]).
  { subst w4.
    destruct (negb (namespace_flags_ (svc w3) =? 0));
      destruct (negb (oom_score_adjust_ (svc _) =? -1000));
      cbn [emit upd svc trace next_start_order_ is_exec_service_running_
           set_process_cgroup_empty set_start_order set_flags set_pid set_time_started
           pid_ flags flags_ start_order_ process_cgroup_empty_ time_started_ post_data_
           pre_apexd_ name_ uid_ use_memcg_ oom_score_adjust_ namespace_flags_];
      rewrite <- ?app_assoc; repeat split; reflexivity. }
  destruct E4 as (P4 & F4 & S4 & C4 & G4 & T4 & D4 & A4 & X4 & Nm4 & Tr4).
  clearbody w4.
  destruct (world_NotifyStateChange e "running" w4) as (Wn & We).
  eexists. split; [reflexivity|].
  rewrite !svc_NotifyStateChange, flags_NotifyStateChange.
  split; [exact P4|].
  split.
  { intros b Hb. rewrite F4, has_flag_set, F3, has_start_cleared by exact Hb.
    rewrite (has_single SVC_RUNNING b) by auto with flags.
    destruct (Z.eqb_spec b SVC_RUNNING) as [->|]; [apply orb_true_r|apply orb_false_r]. }
  split; [rewrite S4; exact C3|].
  split; [rewrite Wn, C4, C3; reflexivity|].
  split; [exact G4|]. split; [exact T4|].
  split; [rewrite D4; exact P3|]. split; [rewrite A4; exact A3|].
  split; [rewrite We, X4; exact X3|].
  rewrite trace_NotifyStateChange_running, Tr4, T3, N3, O3, U3, M3.
  unfold start_events, state_property. rewrite Nm4, Nm3, T4.
  replace (has (flags w4) SVC_TEMPORARY) with (has (flags w) SVC_TEMPORARY).
  2: { rewrite F4, has_flag_set, F3, has_start_cleared by auto with flags.
       has_closed. cbn [orb]. cbv iota. symmetry. apply orb_false_r. }
  rewrite <- !app_assoc. reflexivity.
Qed.

Lemma config_kept_refl (w : World) : config_kept w w.
Proof. repeat split; auto. Qed.

Lemma config_kept_trans (w1 w2 w3 : World) :
  config_kept w1 w2 -> config_kept w2 w3 -> config_kept w1 w3.
Proof.
  intros (A & B & C) (A' & B' & C'). split; [congruence|]. split; auto.
Qed.

Lemma config_kept_svc (w w' : World) : svc w' = svc w -> config_kept w w'.
Proof. intros E. unfold config_kept. rewrite E. repeat split; auto. Qed.

Lemma config_kept_NotifyStateChange (e : Env) (st : string) (w : World) :
  config_kept w (NotifyStateChange e st w).
Proof. apply config_kept_svc, svc_NotifyStateChange. Qed.

Lemma config_kept_KillProcessGroup (e : Env) (signal : Z) (w : World) :
  config_kept w (KillProcessGroup e signal w).
Proof.
  unfold KillProcessGroup. split_ifs; repeat split; auto.
Qed.

Lemma config_kept_StopOrReset (e : Env) (how : Z) (w : World) :
  config_kept w (StopOrReset e how w).
Proof.
  unfold StopOrReset. cbv zeta.
  match goal with |- config_kept _ (if _ then NotifyStateChange _ _ (KillProcessGroup _ _ ?x)
                                    else _) => set (w1 := x) end.
  assert (K : config_kept w w1) by (subst w1; split_ifs; repeat split; auto).
  clearbody w1.
  destruct (negb _).
  - eapply config_kept_trans; [exact K|].
    eapply config_kept_trans; [apply config_kept_KillProcessGroup|].
    apply config_kept_NotifyStateChange.
  - eapply config_kept_trans; [exact K|apply config_kept_NotifyStateChange].
Qed.

Lemma config_kept_Start (e : Env) (w : World) :
  config_kept w (final_world (Start e w)).
Proof.
  unfold Start.
  destruct (updatable_ (svc w) && negb (services_updated e)); [repeat split; auto|].
  cbv zeta.
  set (w1 := upd (set_flags (flag_clear _ _)) w).
  assert (K1 : config_kept w w1) by (repeat split; auto).
  apply (config_kept_trans _ _ _ K1). clearbody w1. clear K1.
  destruct (has (flags w1) SVC_RUNNING).
  { cbn [final_world]. destruct (_ && _); repeat split; auto. }
  set (w2 := if _ && String.eqb _ _ then _ else w1).
  assert (K2 : config_kept w1 w2).
  { subst w2. destruct (_ && _); repeat split; auto. }
  apply (config_kept_trans _ _ _ K2). clearbody w2. clear K2.
  destruct (_ && (open_console_ret e <? 0)); [repeat split; auto|].
  destruct (stat_ret e =? -1); [repeat split; auto|].
  destruct (if negb _ then _ else _) as [scon|msg]; [|apply config_kept_refl].
  match goal with |- config_kept _ (final_world (Start_fork e ?x)) => set (w3 := x) end.
  assert (K3 : config_kept w2 w3).
  { subst w3. destruct (_ && _); cbn; repeat split; auto. }
  apply (config_kept_trans _ _ _ K3). clearbody w3. clear K3.
  unfold Start_fork. cbv zeta.
  destruct (fork_ret e =? 0); [split_ifs; repeat split; auto|].
  destruct (fork_ret e <? 0); [split_ifs; repeat split; auto|].
  cbn [final_world].
  eapply config_kept_trans; [|apply config_kept_NotifyStateChange].
  split_ifs; repeat split; auto.
Qed.

Lemma config_kept_Reap (e : Env) (w : World) :
  config_kept w (final_world (Reap e w)).
Proof.
  unfold Reap. cbv zeta.
  set (w0 := if negb (has (flags w) SVC_ONESHOT) || has (flags w) SVC_RESTART
             then KillProcessGroup e SIGKILL w else w).
  assert (K0 : config_kept w w0).
  { subst w0. destruct (_ || _);
      [apply config_kept_KillProcessGroup|apply config_kept_refl]. }
  apply (config_kept_trans _ _ _ K0). clearbody w0. clear K0.
  set (w1 := if has (flags (emit EvReapCallbacks (emit EvCleanDescriptors w0))) SVC_EXEC
             then _ else _).
  assert (K1 : config_kept w0 w1).
  { subst w1. destruct (has _ SVC_EXEC); repeat split; auto. }
  apply (config_kept_trans _ _ _ K1). clearbody w1. clear K1.
  destruct (has (flags w1) SVC_TEMPORARY); [apply config_kept_refl|].
  match goal with |- context [NotifyStateChange e "stopped" ?x] => set (w2 := x) end.
  assert (K2 : config_kept w1 w2).
  { subst w2. destruct (_ && _); repeat split; auto. }
  apply (config_kept_trans _ _ _ K2). clearbody w2. clear K2.
  destruct (has (flags w2) _).
  { apply config_kept_NotifyStateChange. }
  unfold Reap_crash_policy. cbv zeta.
  destruct (_ && negb (has (flags w2) SVC_RESTART)).
  - destruct (_ || negb (boot_completed e)).
    + destruct (_ >? 4).
      * destruct (has _ SVC_CRITICAL); cbn [final_world].
        -- repeat split; auto.
        -- eapply config_kept_trans; [|apply config_kept_NotifyStateChange].
           repeat split; auto.
      * cbn [final_world].
        eapply config_kept_trans; [|apply config_kept_NotifyStateChange].
        repeat split; auto.
    + cbn [final_world].
      eapply config_kept_trans; [|apply config_kept_NotifyStateChange].
      repeat split; auto.
  - cbn [final_world].
    eapply config_kept_trans; [|apply config_kept_NotifyStateChange].
    repeat split; auto.
Qed.

Lemma config_kept_run_op (op : Op) (e : Env) (w : World) :
  config_kept w (final_world (run_op op e w)).
Proof.
  destruct op; cbn [run_op final_world].
  - apply config_kept_Start.
  - unfold ExecStart.
    destruct (updatable_ (svc w) && negb (services_updated e)); [apply config_kept_refl|].
    cbv zeta. set (w1 := upd _ w).
    assert (K : config_kept w w1) by (repeat split; auto).
    apply (config_kept_trans _ _ _ K).
    pose proof (config_kept_Start e w1) as M.
    destruct (Start e w1) as [[|er] w2|w2|w2]; exact M.
  - unfold StartIfNotDisabled. destruct (negb _); [apply config_kept_Start|].
    repeat split; auto.
  - unfold Enable. cbv zeta. set (w1 := upd _ w).
    assert (K : config_kept w w1) by (repeat split; auto).
    apply (config_kept_trans _ _ _ K).
    destruct (has (flags w1) SVC_DISABLED_START);
      [apply config_kept_Start|apply config_kept_refl].
  - apply config_kept_StopOrReset.
  - unfold ResetIfPostData. destruct (post_data_ (svc w)); [|apply config_kept_refl].
    eapply config_kept_trans; [|apply config_kept_StopOrReset].
    destruct (has (flags w) SVC_RUNNING); repeat split; auto.
  - unfold StartIfPostData.
    destruct (running_at_post_data_reset_ (svc w));
      [apply config_kept_Start|apply config_kept_refl].
  - apply config_kept_StopOrReset.
  - unfold Terminate. cbv zeta. destruct (negb _); [|repeat split; auto].
    eapply config_kept_trans; [|apply config_kept_NotifyStateChange].
    eapply config_kept_trans; [|apply config_kept_KillProcessGroup].
    repeat split; auto.
  - unfold Timeout. destruct (negb _); [|apply config_kept_refl].
    eapply config_kept_trans; [|apply config_kept_NotifyStateChange].
    apply config_kept_KillProcessGroup.
  - unfold Restart. destruct (has (flags w) SVC_RUNNING).
    + apply config_kept_StopOrReset.
    + destruct (negb (has (flags w) SVC_RESTARTING)); [|apply config_kept_refl].
      pose proof (config_kept_Start e w) as M.
      destruct (Start e w) as [r w2|w2|w2]; exact M.
  - apply config_kept_StopOrReset.
  - apply config_kept_Reap.
Qed.

(** X12.  Over any sequence of lifecycle operations, whatever the operating
    system answers and however each operation ends, the configuration of the
    service (name, uid, updatable, seclabel, namespace flags, oom_score_adjust,
    memory control, arguments) does not change, and the marks pre_apexd and
    running_at_post_data_reset, once set, stay set. *)
Theorem permanent_marks (w w' : World) :
  reachable_from w w' -> config_kept w w'.
Proof.
  induction 1 as [|w1 op e R IH]; [apply config_kept_refl|].
  eapply config_kept_trans; [exact IH|apply config_kept_run_op].
Qed.

Lemma permanent_marks_witness :
  reachable_from post_data_world (final_world (run_op OpStop sample_env post_data_world)) /\
  name_ (svc (final_world (run_op OpStop sample_env post_data_world))) = "svc".
Proof.
  assert (R : reachable_from post_data_world
                (final_world (run_op OpStop sample_env post_data_world)))
    by (apply from_step, from_here).
  split; [exact R|].
  pose proof (proj1 (permanent_marks _ _ R)) as C.
  exact (f_equal (fun c => fst (fst (fst (fst (fst (fst (fst c))))))) C).
Defined.

Lemma Start_failure_cases (e : Env) (w : World) (err : StartError) (w' : World) :
  Start e w = Returned (Err err) w' ->
  pid_ (svc w') = match err with ErrFork => 0 | _ => pid_ (svc w) end
  /\ has (flags w') SVC_RUNNING = has (flags w) SVC_RUNNING
  /\ has (flags w') SVC_DISABLED =
       match err with
       | ErrDelayed | ErrNotUpdated => has (flags w) SVC_DISABLED
       | ErrConsole | ErrStat => true
       | ErrContext _ | ErrFork => false
       end
  /\ start_order_ (svc w') = start_order_ (svc w)
  /\ next_start_order_ w' = next_start_order_ w
  /\ is_exec_service_running_ w' = is_exec_service_running_ w
  /\ trace w' =
       trace w ++ match err with
                  | ErrDelayed => [EvDelayService (name_ (svc w))]
                  | ErrFork => [fork_event w]
                  | _ => []
                  end.
Proof.
  unfold Start.
  destruct (updatable_ (svc w) && negb (services_updated e)).
  { intros H. injection H as <- <-. repeat split; reflexivity. }
  cbv zeta. fold start_cleared. rewrite !flags_upd_set_flags.
  rewrite !has_start_cleared by auto with flags. has_closed. cbn [orb]. cbv iota.
  destruct (has (flags w) SVC_RUNNING) eqn:Hr; [discriminate|].
  set (w1 := upd (set_flags (flag_clear (flags w) start_cleared)) w).
  set (w2 := if has (flags w) SVC_CONSOLE && String.eqb (console_ (svc w1)) ""
             then upd (set_console default_console) w1 else w1).
  assert (E2 : flags w2 = flag_clear (flags w) start_cleared
               /\ pid_ (svc w2) = pid_ (svc w)
               /\ namespace_flags_ (svc w2) = namespace_flags_ (svc w)
               /\ start_order_ (svc w2) = start_order_ (svc w)
               /\ next_start_order_ w2 = next_start_order_ w
               /\ is_exec_service_running_ w2 = is_exec_service_running_ w
               /\ trace w2 = trace w).
  { subst w2. destruct (has (flags w) SVC_CONSOLE && String.eqb _ _);
      repeat split; reflexivity. }
  destruct E2 as (F2 & P2 & N2 & S2 & C2 & X2 & T2). clearbody w2.
  assert (D2 : forall b, single_bit b ->
            has (flags (upd (set_flags (flag_set (flags w2) SVC_DISABLED)) w2)) b
            = has (flag_clear (flags w) start_cleared) b || (b =? SVC_DISABLED)).
  { intros b Hb. rewrite flags_upd_set_flags, has_flag_set, F2.
    rewrite (has_single SVC_DISABLED b) by auto with flags. reflexivity. }
  destruct (has (flags w) SVC_CONSOLE && (open_console_ret e <? 0)).
  { intros H. injection H as <- <-.
    rewrite !D2, !has_start_cleared by auto with flags. has_closed.
    cbn [orb]. cbv iota. rewrite Hr, app_nil_r. repeat split; assumption. }
  destruct (stat_ret e =? -1).
  { intros H. injection H as <- <-.
    rewrite !D2, !has_start_cleared by auto with flags. has_closed.
    cbn [orb]. cbv iota. rewrite Hr, app_nil_r. repeat split; assumption. }
  destruct (if negb _ then _ else _) as [scon|msg].
  2: { intros H. injection H as <- <-.
       rewrite F2, !has_start_cleared by auto with flags. has_closed.
       cbn [orb]. cbv iota. rewrite Hr, app_nil_r. repeat split; assumption. }
  set (w3 := upd (set_post_data (is_post_data e)) _).
  assert (E3 : flags w3 = flag_clear (flags w) start_cleared
               /\ pid_ (svc w3) = pid_ (svc w)
               /\ namespace_flags_ (svc w3) = namespace_flags_ (svc w)
               /\ start_order_ (svc w3) = start_order_ (svc w)
               /\ next_start_order_ w3 = next_start_order_ w
               /\ is_exec_service_running_ w3 = is_exec_service_running_ w
               /\ trace w3 = trace w).
  { subst w3. destruct (negb (runtime_apex_ready e) && _); repeat split; assumption. }
  destruct E3 as (F3 & P3 & N3 & S3 & C3 & X3 & T3). clearbody w3.
  unfold Start_fork. cbv zeta.
  destruct (fork_ret e =? 0); [discriminate|].
  destruct (fork_ret e <? 0); [|discriminate].
  intros H. injection H as <- <-. unfold fork_event. rewrite <- N3.
  destruct (negb (namespace_flags_ (svc w3) =? 0));
    cbn [emit upd svc trace next_start_order_ is_exec_service_running_ set_pid
         pid_ flags flags_ start_order_];
    fold (flags w3); rewrite F3, !has_start_cleared by auto with flags; has_closed;
    cbn [orb]; cbv iota; rewrite Hr, T3; repeat split; assumption.
Qed.

(** [Start] leaves alone every flag it does not name. *)
Lemma Start_keeps_bit (e : Env) (w : World) (b : Z) :
  single_bit b ->
  b <> SVC_DISABLED -> b <> SVC_RESTARTING -> b <> SVC_RESET -> b <> SVC_RESTART ->
  b <> SVC_DISABLED_START -> b <> SVC_RUNNING ->
  has (flags (final_world (Start e w))) b = has (flags w) b.
Proof.
  intros Hb N1 N2 N3 N4 N5 N6.
  assert (Q : forall c, c <> b -> (b =? c) = false) by (intros c Hc; apply Z.eqb_neq; congruence).
  assert (Hc : has (flag_clear (flags w) start_cleared) b = has (flags w) b).
  { rewrite has_start_cleared by exact Hb. rewrite !Q by congruence. reflexivity. }
  assert (Hs : forall f m, single_bit m -> m <> b -> has (flag_set f m) b = has f b).
  { intros f m Hm Hne. rewrite has_flag_set, (has_single m b) by assumption.
    rewrite Q by exact Hne. apply orb_false_r. }
  unfold Start.
  destruct (updatable_ (svc w) && negb (services_updated e)); [reflexivity|].
  cbv zeta. fold start_cleared. rewrite !flags_upd_set_flags.
  destruct (has (flag_clear (flags w) start_cleared) SVC_RUNNING).
  { cbn [final_world]. destruct (_ && _).
    - rewrite flags_upd_set_flags, Hs by (auto with flags). exact Hc.
    - exact Hc. }
  set (w1 := upd (set_flags (flag_clear (flags w) start_cleared)) w).
  set (w2 := if _ && String.eqb (console_ (svc w1)) ""
             then upd (set_console default_console) w1 else w1).
  assert (F2 : flags w2 = flag_clear (flags w) start_cleared).
  { subst w2. destruct (_ && String.eqb _ _); reflexivity. }
  clearbody w2.
  destruct (_ && (open_console_ret e <? 0)).
  { cbn [final_world]. rewrite flags_upd_set_flags, Hs, F2 by (auto with flags). exact Hc. }
  destruct (stat_ret e =? -1).
  { cbn [final_world]. rewrite flags_upd_set_flags, Hs, F2 by (auto with flags). exact Hc. }
  destruct (if negb _ then _ else _) as [scon|msg].
  2: { cbn [final_world]. rewrite F2. exact Hc. }
  set (w3 := upd (set_post_data (is_post_data e)) _).
  assert (F3 : flags w3 = flag_clear (flags w) start_cleared).
  { subst w3. destruct (negb (runtime_apex_ready e) && _); exact F2. }
  clearbody w3.
  unfold Start_fork. cbv zeta.
  destruct (fork_ret e =? 0).
  { cbn [final_world]. destruct (negb (namespace_flags_ (svc w3) =? 0));
      change (flags (emit ?ev w3)) with (flags w3); rewrite F3; exact Hc. }
  destruct (fork_ret e <? 0).
  { cbn [final_world]. destruct (negb (namespace_flags_ (svc w3) =? 0));
      change (flags (upd (set_pid 0) (emit ?ev w3))) with (flags w3); rewrite F3; exact Hc. }
  cbn [final_world]. rewrite flags_NotifyStateChange.
  destruct (negb (namespace_flags_ (svc w3) =? 0));
    destruct (negb (oom_score_adjust_ (svc _) =? -1000));
    cbn [flags emit upd svc set_process_cgroup_empty set_start_order set_flags set_pid
         set_time_started flags_];
    fold (flags w3); rewrite Hs, F3 by (auto with flags); exact Hc.
Qed.


(** X10.  Whenever [ExecStart] returns: on success ONESHOT and EXEC are set
    and the class-wide mark that an exec service is running is set; on
    failure EXEC and that mark are unchanged, but ONESHOT stays set unless
    the service was refused as updatable before the APEX configurations were
    loaded. *)
Theorem ExecStart_marks (e : Env) (w : World) (r : Result) (w' : World) :
  ExecStart e w = Returned r w' ->
  match r with
  | Ok =>
      has (flags w') SVC_ONESHOT = true /\ has (flags w') SVC_EXEC = true
      /\ is_exec_service_running_ w' = true
  | Err err =>
      has (flags w') SVC_EXEC = has (flags w) SVC_EXEC
      /\ is_exec_service_running_ w' = is_exec_service_running_ w
      /\ (err <> ErrNotUpdated -> has (flags w') SVC_ONESHOT = true)
  end.
Proof.
  unfold ExecStart.
  destruct (updatable_ (svc w) && negb (services_updated e)).
  { intros H. injection H as <- <-. repeat split. intros N. contradiction. }
  cbv zeta. set (w1 := upd (set_flags (flag_set (flags w) SVC_ONESHOT)) w).
  assert (O1 : has (flags w1) SVC_ONESHOT = true).
  { subst w1. rewrite flags_upd_set_flags, has_flag_set. has_closed. apply orb_true_r. }
  assert (X1 : has (flags w1) SVC_EXEC = has (flags w) SVC_EXEC).
  { subst w1. rewrite flags_upd_set_flags, has_flag_set. has_closed. apply orb_false_r. }
  pose proof (Start_keeps_bit e w1 SVC_ONESHOT) as KO.
  pose proof (Start_keeps_bit e w1 SVC_EXEC) as KX.
  pose proof (Start_failure_cases e w1) as KF.
  destruct (Start e w1) as [[|err] w2|w2|w2]; [| |discriminate|discriminate];
    cbn [final_world] in KO, KX; intros H; injection H as <- <-.
  - cbn [flags svc upd set_flags flags_]. fold (flags w2).
    rewrite !has_flag_set, KO by (auto with flags || bitne). has_closed.
    rewrite O1. repeat split; apply orb_true_r.
  - destruct (KF err w2 eq_refl) as (_ & _ & _ & _ & _ & X & _).
    rewrite KX, KO by (auto with flags || bitne).
    split; [exact X1|]. split; [exact X|]. intros _. exact O1.
Qed.

Lemma ExecStart_marks_witness :
  ExecStart env_missing_binary (sample_world SVC_TEMPORARY 0)
    = Returned (Err ErrStat)
        (final_world (ExecStart env_missing_binary (sample_world SVC_TEMPORARY 0))) /\
  has (flags (final_world (ExecStart env_missing_binary (sample_world SVC_TEMPORARY 0))))
      SVC_ONESHOT = true.
Proof.
  split; [reflexivity|].
  apply (proj2 (proj2 (ExecStart_marks env_missing_binary (sample_world SVC_TEMPORARY 0)
                         (Err ErrStat) _ eq_refl))).
  discriminate.
Defined.

(** X11.  [KillProcessGroup] marks the process group empty exactly when it
    already was or the kill returned 0; once it is marked empty, every later
    [KillProcessGroup], with any signal, does nothing; and while it is not,
    a later call with a signal other than SIGTERM sends that signal to the
    group again. *)
Theorem KillProcessGroup_once_emptied (e1 e2 : Env) (s1 s2 : Z) (w : World) :
  process_cgroup_empty_ (svc (KillProcessGroup e1 s1 w))
    = process_cgroup_empty_ (svc w) || (kill_ret e1 =? 0)
  /\ (process_cgroup_empty_ (svc w) || (kill_ret e1 =? 0) = true ->
      KillProcessGroup e2 s2 (KillProcessGroup e1 s1 w) = KillProcessGroup e1 s1 w)
  /\ (process_cgroup_empty_ (svc w) || (kill_ret e1 =? 0) = false ->
      s2 <> SIGTERM ->
      trace (KillProcessGroup e2 s2 (KillProcessGroup e1 s1 w))
        = trace (KillProcessGroup e1 s1 w)
            ++ [EvKillProcessGroup (uid_ (svc w)) (pid_ (svc w)) s2]).
Proof.
  assert (A : process_cgroup_empty_ (svc (KillProcessGroup e1 s1 w))
              = process_cgroup_empty_ (svc w) || (kill_ret e1 =? 0)).
  { rewrite svc_KillProcessGroup.
    destruct (process_cgroup_empty_ (svc w)) eqn:E; [exact E|].
    destruct (kill_ret e1 =? 0); [reflexivity|exact E]. }
  split; [exact A|]. split.
  - intros H. rewrite <- A in H.
    unfold KillProcessGroup at 1. rewrite H. reflexivity.
  - intros H Hs. rewrite trace_KillProcessGroup by exact Hs.
    unfold kill_events. rewrite A, H.
    rewrite svc_KillProcessGroup.
    apply orb_false_elim in H as [H1 H2]. rewrite H1, H2. reflexivity.
Qed.

Lemma KillProcessGroup_once_emptied_witness :
  KillProcessGroup sample_env SIGTERM
    (KillProcessGroup sample_env SIGKILL (sample_world SVC_RUNNING 100))
  = KillProcessGroup sample_env SIGKILL (sample_world SVC_RUNNING 100).
Proof.
  exact (proj1 (proj2 (KillProcessGroup_once_emptied sample_env sample_env SIGKILL SIGTERM
                         (sample_world SVC_RUNNING 100))) eq_refl).
Defined.

Lemma Terminate_bit (e : Env) (w : World) (b : Z) :
  single_bit b ->
  has (flags (Terminate e w)) b =
    if b =? SVC_DISABLED then true
    else if (b =? SVC_RESTARTING) || (b =? SVC_DISABLED_START) then false
    else has (flags w) b.
Proof.
  intros Hb. unfold Terminate. cbv zeta.
  assert (E : forall x, flags x = flag_set (flag_clear (flags w)
                 (Z.lor SVC_RESTARTING SVC_DISABLED_START)) SVC_DISABLED ->
              has (flags x) b = if b =? SVC_DISABLED then true
                                else if (b =? SVC_RESTARTING) || (b =? SVC_DISABLED_START)
                                then false else has (flags w) b).
  { intros x ->. solve_bits b. }
  destruct (negb _).
  - apply E. rewrite flags_NotifyStateChange, flags_KillProcessGroup. reflexivity.
  - apply E. reflexivity.
Qed.

Lemma Terminate_frame (e : Env) (w : World) :
  pid_ (svc (Terminate e w)) = pid_ (svc w)
  /\ name_ (svc (Terminate e w)) = name_ (svc w)
  /\ crash_count_ (svc (Terminate e w)) = crash_count_ (svc w)
  /\ time_crashed_ (svc (Terminate e w)) = time_crashed_ (svc w)
  /\ trace (Terminate e w) =
       trace w ++
         if pid_ (svc w) =? 0 then []
         else (if process_cgroup_empty_ (svc w) then []
               else [EvKillProcessGroupOnce (uid_ (svc w)) (pid_ (svc w)) SIGTERM])
              ++ publish w "stopping".
Proof.
  unfold Terminate. cbv zeta.
  set (w1 := upd (set_flags _) (upd (set_flags _) w)).
  assert (T1 : has (flags w1) SVC_TEMPORARY = has (flags w) SVC_TEMPORARY).
  { subst w1. rewrite !flags_upd_set_flags. has_norm. has_cases; reflexivity. }
  change (pid_ (svc w1)) with (pid_ (svc w)).
  destruct (pid_ (svc w) =? 0); cbn [negb].
  { rewrite app_nil_r. repeat split. }
  rewrite svc_NotifyStateChange, svc_KillProcessGroup.
  rewrite trace_NotifyStateChange by discriminate.
  unfold publish, state_property.
  rewrite flags_KillProcessGroup, name_KillProcessGroup, T1.
  unfold KillProcessGroup.
  change (process_cgroup_empty_ (svc w1)) with (process_cgroup_empty_ (svc w)).
  change (SIGTERM =? SIGTERM) with true. cbv iota.
  destruct (process_cgroup_empty_ (svc w)); [repeat split|].
  destruct (kill_ret e =? 0); cbn [emit upd trace svc];
    rewrite <- app_assoc; repeat split.
Qed.

(** X5.  [Terminate] signals the process group once with SIGTERM (through
    killProcessGroupOnce, and only when there is a pid and the group is not
    known to be empty) and publishes "stopping"; for every service without
    TEMPORARY the following [Reap] returns with pid 0, RUNNING and RESTARTING
    clear and DISABLED set, the crash accounting untouched, and publishes
    "stopped" without running the onrestart commands. *)
Theorem terminated_service_stays_down (e1 e2 : Env) (w : World) :
  has (flags w) SVC_TEMPORARY = false ->
  exists w',
    Reap e2 (Terminate e1 w) = Returned Ok w'
    /\ pid_ (svc w') = 0
    /\ has (flags w') SVC_RUNNING = false
    /\ has (flags w') SVC_RESTARTING = false
    /\ has (flags w') SVC_DISABLED = true
    /\ crash_count_ (svc w') = crash_count_ (svc w)
    /\ time_crashed_ (svc w') = time_crashed_ (svc w)
    /\ trace (Terminate e1 w) =
         trace w ++
           (if pid_ (svc w) =? 0 then []
            else (if process_cgroup_empty_ (svc w) then []
                  else [EvKillProcessGroupOnce (uid_ (svc w)) (pid_ (svc w)) SIGTERM])
                 ++ [state_property w "stopping"])
    /\ trace w' =
         trace (Terminate e1 w)
           ++ (if negb (has (flags w) SVC_ONESHOT) || has (flags w) SVC_RESTART
               then kill_events (Terminate e1 w) SIGKILL else [])
           ++ [EvCleanDescriptors; EvReapCallbacks; state_property w "stopped"].
Proof.
  intros Htmp.
  pose proof (Terminate_bit e1 w) as B.
  destruct (Terminate_frame e1 w) as (Hp & Hn & Hc & Ht & Htr).
  assert (T1 : has (flags (Terminate e1 w)) SVC_TEMPORARY = false).
  { rewrite B by auto with flags. has_closed. exact Htmp. }
  assert (D1 : has (flags (Terminate e1 w)) SVC_DISABLED = true).
  { rewrite B by auto with flags. reflexivity. }
  destruct (Reap_stopped_path e2 (Terminate e1 w) T1) as (w' & E & P & _ & C & T & Bits & Tr).
  { rewrite D1. reflexivity. }
  exists w'. split; [exact E|]. split; [exact P|].
  split; [rewrite Bits by auto with flags; reflexivity|].
  split; [rewrite Bits by auto with flags; has_closed; cbn [orb]; cbv iota;
          rewrite B by auto with flags; has_closed; reflexivity|].
  split; [rewrite Bits by auto with flags; has_closed; cbn [orb]; cbv iota;
          rewrite D1; reflexivity|].
  split; [congruence|]. split; [congruence|].
  split.
  { rewrite Htr. unfold publish. rewrite Htmp. reflexivity. }
  rewrite Tr. rewrite !B by auto with flags. has_closed. cbn [orb]. cbv iota.
  unfold state_property. rewrite Hn. reflexivity.
Qed.

Lemma terminated_service_stays_down_witness :
  has (flags (sample_world SVC_RUNNING 100)) SVC_TEMPORARY = false /\
  exists w', Reap sample_env (Terminate sample_env (sample_world SVC_RUNNING 100))
             = Returned Ok w'
             /\ has (flags w') SVC_DISABLED = true.
Proof.
  split; [reflexivity|].
  destruct (terminated_service_stays_down sample_env sample_env
              (sample_world SVC_RUNNING 100) eq_refl) as (w' & E & _ & _ & _ & D & _).
  exists w'. split; [exact E|exact D].
Defined.

(** X4.  When the process of a service exits that was not stopped (DISABLED
    and RESET clear), is not TEMPORARY, is not a ONESHOT without a restart
    request, and is outside the crash policy (neither CRITICAL nor updatable,
    or RESTART requested), [Reap] kills what is left of the process group,
    sets pid and start_order to 0, clears RUNNING, EXEC and RESTART, sets
    RESTARTING, keeps every other flag and the crash accounting, runs the
    onrestart commands and publishes "restarting". *)
Theorem unexpected_exit_restarts (e : Env) (w : World) :
  has (flags w) SVC_TEMPORARY = false ->
  has (flags w) SVC_DISABLED = false ->
  has (flags w) SVC_RESET = false ->
  has (flags w) SVC_ONESHOT && negb (has (flags w) SVC_RESTART) = false ->
  crash_guard e w = false ->
  exists w',
    Reap e w = Returned Ok w'
    /\ pid_ (svc w') = 0 /\ start_order_ (svc w') = 0
    /\ crash_count_ (svc w') = crash_count_ (svc w)
    /\ time_crashed_ (svc w') = time_crashed_ (svc w)
    /\ (forall b, single_bit b ->
          has (flags w') b =
            if (b =? SVC_RUNNING) || (b =? SVC_EXEC) || (b =? SVC_RESTART) then false
            else if b =? SVC_RESTARTING then true else has (flags w) b)
    /\ trace w' =
         trace w ++ kill_events w SIGKILL
           ++ [EvCleanDescriptors; EvReapCallbacks; EvOnRestart;
               state_property w "restarting"].
Proof. exact (Reap_restarting_path e w). Qed.

Lemma unexpected_exit_restarts_witness :
  crash_guard sample_env (sample_world SVC_RUNNING 100) = false /\
  exists w', Reap sample_env (sample_world SVC_RUNNING 100) = Returned Ok w'
             /\ pid_ (svc w') = 0.
Proof.
  split; [reflexivity|].
  destruct (unexpected_exit_restarts sample_env (sample_world SVC_RUNNING 100)
              eq_refl eq_refl eq_refl eq_refl eq_refl) as (w' & E & P & _).
  exists w'. split; [exact E|exact P].
Defined.

Lemma reaches_fork_flags (e : Env) (w : World) (f : Z) :
  has f SVC_RUNNING = has (flags w) SVC_RUNNING ->
  has f SVC_CONSOLE = has (flags w) SVC_CONSOLE ->
  reaches_fork e (upd (set_flags f) w) = reaches_fork e w.
Proof.
  intros Hr Hc. unfold reaches_fork, start_context.
  rewrite flags_upd_set_flags, Hr, Hc. reflexivity.
Qed.

Lemma start_events_flags (e : Env) (w : World) (f : Z) :
  has f SVC_TEMPORARY = has (flags w) SVC_TEMPORARY ->
  start_events e (upd (set_flags f) w) = start_events e w.
Proof.
  intros Ht. unfold start_events, state_property.
  rewrite flags_upd_set_flags, Ht. reflexivity.
Qed.

(** X9.  For every DISABLED service, [StartIfNotDisabled] starts nothing:
    it only sets DISABLED_START.  A later [Enable] then starts the service
    (given that it passes the tests of [Start] and the fork succeeds): the
    pid is recorded, RUNNING is set, DISABLED, RC_DISABLED, RESTARTING,
    RESET, RESTART and DISABLED_START are clear, every other flag is kept,
    and the actions are those of a successful start. *)
Theorem deferred_start (e1 e2 : Env) (w : World) :
  has (flags w) SVC_DISABLED = true ->
  reaches_fork e2 w = true ->
  0 < fork_ret e2 ->
  exists w1 w2,
    StartIfNotDisabled e1 w = Returned Ok w1
    /\ svc w1 = set_flags (flag_set (flags w) SVC_DISABLED_START) (svc w)
    /\ trace w1 = trace w
    /\ Enable e2 w1 = Returned Ok w2
    /\ pid_ (svc w2) = fork_ret e2
    /\ (forall b, single_bit b ->
          has (flags w2) b =
            if b =? SVC_RUNNING then true
            else if (b =? SVC_DISABLED) || (b =? SVC_RC_DISABLED) || (b =? SVC_RESTARTING)
                    || (b =? SVC_RESET) || (b =? SVC_RESTART) || (b =? SVC_DISABLED_START)
            then false else has (flags w) b)
    /\ trace w2 = trace w ++ start_events e2 w.
Proof.
  intros Hd Hrf Hf.
  set (w1 := upd (set_flags (flag_set (flags w) SVC_DISABLED_START)) w).
  set (f2 := flag_clear (flags w1) (Z.lor SVC_DISABLED SVC_RC_DISABLED)).
  assert (B2 : forall b, single_bit b ->
            has f2 b = if (b =? SVC_DISABLED) || (b =? SVC_RC_DISABLED) then false
                       else if b =? SVC_DISABLED_START then true else has (flags w) b).
  { intros b Hb. subst f2 w1. rewrite flags_upd_set_flags. solve_bits b. }
  assert (R2 : reaches_fork e2 (upd (set_flags f2) w) = true).
  { rewrite reaches_fork_flags; [exact Hrf| |]; rewrite B2 by auto with flags; reflexivity. }
  destruct (Start_stopped_ok e2 (upd (set_flags f2) w) R2 Hf)
    as (w2 & E & P & Bits & _ & _ & _ & _ & _ & _ & _ & Tr).
  exists w1, w2.
  split; [unfold StartIfNotDisabled; rewrite Hd; reflexivity|].
  split; [reflexivity|]. split; [reflexivity|].
  split.
  { unfold Enable. cbv zeta. fold f2.
    change (upd (set_flags f2) w1) with (upd (set_flags f2) w).
    rewrite flags_upd_set_flags, B2 by auto with flags. exact E. }
  split; [exact P|]. split.
  - intros b Hb. rewrite Bits by exact Hb. rewrite flags_upd_set_flags, B2 by exact Hb.
    destruct (Z.eqb_spec b SVC_RUNNING); [reflexivity|].
    destruct (Z.eqb_spec b SVC_DISABLED) as [->|?]; [reflexivity|].
    destruct (Z.eqb_spec b SVC_RC_DISABLED) as [->|?]; [reflexivity|].
    destruct (Z.eqb_spec b SVC_RESTARTING) as [->|?]; [reflexivity|].
    destruct (Z.eqb_spec b SVC_RESET) as [->|?]; [reflexivity|].
    destruct (Z.eqb_spec b SVC_RESTART) as [->|?]; [reflexivity|].
    destruct (Z.eqb_spec b SVC_DISABLED_START) as [->|?]; reflexivity.
  - rewrite Tr. rewrite start_events_flags; [reflexivity|].
    rewrite B2 by auto with flags. reflexivity.
Qed.

Lemma deferred_start_witness :
  has (flags (sample_world SVC_DISABLED 0)) SVC_DISABLED = true /\
  reaches_fork sample_env (sample_world SVC_DISABLED 0) = true /\
  0 < fork_ret sample_env /\
  exists w1 w2,
    StartIfNotDisabled sample_env (sample_world SVC_DISABLED 0) = Returned Ok w1
    /\ Enable sample_env w1 = Returned Ok w2
    /\ pid_ (svc w2) = 100.
Proof.
  split; [reflexivity|]. split; [reflexivity|]. split; [reflexivity|].
  destruct (deferred_start sample_env sample_env (sample_world SVC_DISABLED 0)
              eq_refl eq_refl eq_refl) as (w1 & w2 & E1 & _ & _ & E2 & P & _).
  exists w1, w2. split; [exact E1|]. split; [exact E2|exact P].
Defined.

(** X13.  For every running post-data service without TEMPORARY:
    after [ResetIfPostData] and the [Reap] of its process the service is down
    (pid 0, RUNNING and RESTARTING clear) and remembered as having been
    running at the reset, so that [StartIfPostData] is a [Start]. *)
Theorem post_data_reset_remembered (e1 e2 e3 : Env) (w : World) :
  post_data_ (svc w) = true ->
  has (flags w) SVC_RUNNING = true ->
  has (flags w) SVC_TEMPORARY = false ->
  exists w2,
    Reap e2 (ResetIfPostData e1 w) = Returned Ok w2
    /\ pid_ (svc w2) = 0
    /\ has (flags w2) SVC_RUNNING = false
    /\ has (flags w2) SVC_RESTARTING = false
    /\ running_at_post_data_reset_ (svc w2) = true
    /\ StartIfPostData e3 w2 = Start e3 w2.
Proof.
  intros Hpd Hrun Htmp. unfold ResetIfPostData. rewrite Hpd, Hrun.
  set (w0 := upd (set_running_at_post_data_reset true) w).
  destruct (StopOrReset_then_Reap e1 e2 SVC_RESET w0 Htmp)
    as (w2 & E & P & R & Rg & _); [discriminate|].
  assert (M : running_at_post_data_reset_ (svc w2) = true).
  { assert (K : config_kept w0 w2).
    { eapply config_kept_trans; [apply (config_kept_StopOrReset e1 SVC_RESET)|].
      pose proof (config_kept_Reap e2 (StopOrReset e1 SVC_RESET w0)) as K.
      rewrite E in K. exact K. }
    apply K. reflexivity. }
  exists w2. split; [exact E|]. split; [exact P|]. split; [exact R|]. split; [exact Rg|].
  split; [exact M|]. unfold StartIfPostData. rewrite M. reflexivity.
Qed.

Lemma post_data_reset_remembered_witness :
  post_data_ (svc post_data_world) = true /\
  has (flags post_data_world) SVC_RUNNING = true /\
  has (flags post_data_world) SVC_TEMPORARY = false /\
  exists w2, Reap sample_env (ResetIfPostData sample_env post_data_world) = Returned Ok w2
             /\ running_at_post_data_reset_ (svc w2) = true.
Proof.
  split; [reflexivity|]. split; [reflexivity|]. split; [reflexivity|].
  destruct (post_data_reset_remembered sample_env sample_env sample_env post_data_world
              eq_refl eq_refl eq_refl) as (w2 & E & _ & _ & _ & M & _).
  exists w2. split; [exact E|exact M].
Defined.

(** X6.  For every service that passes the tests of [Start] (not delayed,
    not running, console and executable present, a security context) and a
    fork that returns a positive pid: [Start] succeeds, records that pid,
    sets RUNNING, clears DISABLED, RESTARTING, RESET, RESTART and
    DISABLED_START and keeps every other flag; start_order becomes the old
    next_start_order_, which advances by one (modulo 2^64); the process
    group is marked not empty, time_started is now, post_data is what the
    service list says, pre_apexd is set when the runtime APEX is not ready;
    and the actions are, in order, the fork or clone, the oom_score_adj
    write (unless -1000), createProcessGroup and the publications of
    "running". *)
Theorem Start_of_stopped_service (e : Env) (w : World) :
  reaches_fork e w = true ->
  0 < fork_ret e ->
  exists w',
    Start e w = Returned Ok w'
    /\ pid_ (svc w') = fork_ret e
    /\ (forall b, single_bit b ->
          has (flags w') b =
            if b =? SVC_RUNNING then true
            else if (b =? SVC_DISABLED) || (b =? SVC_RESTARTING) || (b =? SVC_RESET)
                    || (b =? SVC_RESTART) || (b =? SVC_DISABLED_START)
            then false else has (flags w) b)
    /\ start_order_ (svc w') = next_start_order_ w
    /\ next_start_order_ w' = (next_start_order_ w + 1) mod 2 ^ 64
    /\ process_cgroup_empty_ (svc w') = false
    /\ time_started_ (svc w') = now e
    /\ post_data_ (svc w') = is_post_data e
    /\ pre_apexd_ (svc w') = pre_apexd_ (svc w) || negb (runtime_apex_ready e)
    /\ is_exec_service_running_ w' = is_exec_service_running_ w
    /\ trace w' = trace w ++ start_events e w.
Proof. exact (Start_stopped_ok e w). Qed.

Lemma Start_of_stopped_service_witness :
  reaches_fork sample_env (sample_world 0 0) = true /\
  0 < fork_ret sample_env /\
  exists w', Start sample_env (sample_world 0 0) = Returned Ok w'
             /\ pid_ (svc w') = 100 /\ start_order_ (svc w') = 1
             /\ next_start_order_ w' = 2.
Proof.
  split; [reflexivity|]. split; [reflexivity|].
  destruct (Start_of_stopped_service sample_env (sample_world 0 0) eq_refl eq_refl)
    as (w' & E & P & _ & S & N & _).
  exists w'. split; [exact E|]. split; [exact P|]. split; [exact S|exact N].
Defined.

(** X7.  Whenever [Start] returns an error: RUNNING, start_order and
    next_start_order_ are unchanged and no state property is published; the
    pid is unchanged, except that a failed fork sets it to 0; DISABLED is set
    by the console and stat failures, left alone for a delayed updatable
    service, and clear after a context or fork failure; the only actions are
    the queueing of the delayed service or the failed fork. *)
Theorem Start_failure_effects (e : Env) (w : World) (err : StartError) (w' : World) :
  Start e w = Returned (Err err) w' ->
  pid_ (svc w') = match err with ErrFork => 0 | _ => pid_ (svc w) end
  /\ has (flags w') SVC_RUNNING = has (flags w) SVC_RUNNING
  /\ has (flags w') SVC_DISABLED =
       match err with
       | ErrDelayed | ErrNotUpdated => has (flags w) SVC_DISABLED
       | ErrConsole | ErrStat => true
       | ErrContext _ | ErrFork => false
       end
  /\ start_order_ (svc w') = start_order_ (svc w)
  /\ next_start_order_ w' = next_start_order_ w
  /\ is_exec_service_running_ w' = is_exec_service_running_ w
  /\ trace w' =
       trace w ++ match err with
                  | ErrDelayed => [EvDelayService (name_ (svc w))]
                  | ErrFork => [fork_event w]
                  | _ => []
                  end.
Proof. exact (Start_failure_cases e w err w'). Qed.

Lemma Start_failure_effects_witness :
  Start env_missing_binary (sample_world 0 0)
    = Returned (Err ErrStat) (final_world (Start env_missing_binary (sample_world 0 0))) /\
  has (flags (final_world (Start env_missing_binary (sample_world 0 0)))) SVC_DISABLED = true.
Proof.
  split; [reflexivity|].
  exact (proj1 (proj2 (proj2 (Start_failure_effects env_missing_binary (sample_world 0 0)
                                ErrStat _ eq_refl)))).
Defined.

(** X8.  A service that is not running and fails one of the tests of
    [Start] is not forked: [Start] returns an error other than the fork
    failure, the pid is unchanged, and nothing happens except the queueing
    of a delayed updatable service. *)
Theorem Start_refused (e : Env) (w : World) :
  reaches_fork e w = false ->
  has (flags w) SVC_RUNNING = false ->
  exists err w',
    Start e w = Returned (Err err) w'
    /\ err <> ErrFork
    /\ pid_ (svc w') = pid_ (svc w)
    /\ trace w' = trace w ++ match err with
                            | ErrDelayed => [EvDelayService (name_ (svc w))]
                            | _ => []
                            end.
Proof.
  intros Hrf Hr. unfold reaches_fork, start_context in Hrf. rewrite Hr in Hrf.
  unfold Start.
  destruct (updatable_ (svc w) && negb (services_updated e)).
  { exists ErrDelayed. eexists. split; [reflexivity|]. split; [discriminate|].
    split; reflexivity. }
  cbv zeta. fold start_cleared. rewrite !flags_upd_set_flags.
  rewrite !has_start_cleared by auto with flags. has_closed. cbn [orb]. cbv iota.
  rewrite Hr.
  set (w1 := upd (set_flags (flag_clear (flags w) start_cleared)) w).
  set (w2 := if has (flags w) SVC_CONSOLE && String.eqb (console_ (svc w1)) ""
             then upd (set_console default_console) w1 else w1).
  assert (E2 : pid_ (svc w2) = pid_ (svc w) /\ seclabel_ (svc w2) = seclabel_ (svc w)
               /\ trace w2 = trace w).
  { subst w2. destruct (has (flags w) SVC_CONSOLE && String.eqb _ _);
      repeat split; reflexivity. }
  destruct E2 as (P2 & S2 & T2). clearbody w2.
  cbn [negb andb] in Hrf.
  destruct (has (flags w) SVC_CONSOLE && (open_console_ret e <? 0)).
  { exists ErrConsole. eexists. split; [reflexivity|]. split; [discriminate|].
    rewrite app_nil_r. split; assumption. }
  destruct (stat_ret e =? -1).
  { exists ErrStat. eexists. split; [reflexivity|]. split; [discriminate|].
    rewrite app_nil_r. split; assumption. }
  rewrite S2. cbn [negb andb] in Hrf.
  destruct (if negb (String.eqb (seclabel_ (svc w)) "") then _ else _) as [scon|msg];
    [discriminate Hrf|].
  exists (ErrContext msg). eexists. split; [reflexivity|]. split; [discriminate|].
  rewrite app_nil_r. split; assumption.
Qed.

Lemma Start_refused_witness :
  reaches_fork env_missing_binary (sample_world 0 0) = false /\
  has (flags (sample_world 0 0)) SVC_RUNNING = false /\
  exists err w', Start env_missing_binary (sample_world 0 0) = Returned (Err err) w'
                 /\ pid_ (svc w') = 0.
Proof.
  split; [reflexivity|]. split; [reflexivity|].
  destruct (Start_refused env_missing_binary (sample_world 0 0) eq_refl eq_refl)
    as (err & w' & E & _ & Q & _).
  exists err, w'. split; [exact E|exact Q].
Defined.

(** ** The security context of a service *)

(** X14.  Whenever [ComputeContextFromExecutable] succeeds, getcon and
    getfilecon succeeded and security_compute_create returned a value that is
    not negative; when it returned 0 the result is the computed context,
    which differs from init's own context; when it returned a positive value
    the result is the empty string. *)
Theorem computed_context_is_not_inits (e : Env) (c : string) :
  ComputeContextFromExecutable e = inl c ->
  exists mycon filecon,
    getcon_ret e = Some mycon /\ getfilecon_ret e = Some filecon
    /\ 0 <= fst (compute_create_ret e)
    /\ (if fst (compute_create_ret e) =? 0
        then c = snd (compute_create_ret e) /\ c <> mycon
        else c = "").
Proof.
  unfold ComputeContextFromExecutable.
  destruct (getcon_ret e) as [mycon|]; [|discriminate].
  destruct (getfilecon_ret e) as [filecon|]; [|discriminate].
  cbv zeta. intros H. exists mycon, filecon. split; [reflexivity|]. split; [reflexivity|].
  destruct (Z.eqb_spec (fst (compute_create_ret e)) 0) as [E|N].
  - cbn [andb] in H.
    destruct (String.eqb_spec (snd (compute_create_ret e)) mycon) as [Q|Q]; [discriminate|].
    destruct (Z.ltb_spec (fst (compute_create_ret e)) 0); [discriminate|].
    injection H as <-. split; [lia|]. split; [reflexivity|exact Q].
  - cbn [andb] in H.
    destruct (Z.ltb_spec (fst (compute_create_ret e)) 0); [discriminate|].
    injection H as <-. split; [lia|reflexivity].
Qed.

Lemma computed_context_is_not_inits_witness :
  ComputeContextFromExecutable sample_env = inl "u:r:svc:s0" /\
  exists mycon, getcon_ret sample_env = Some mycon /\ "u:r:svc:s0" <> mycon.
Proof.
  split; [reflexivity|].
  destruct (computed_context_is_not_inits sample_env "u:r:svc:s0" eq_refl)
    as (mycon & filecon & G & _ & _ & H).
  exists mycon. split; [exact G|]. exact (proj2 H).
Defined.

(** ** The memory limit *)

Lemma to_size_t_small (x : Z) : 0 <= x < 2 ^ 64 -> to_size_t x = x.
Proof. intros H. unfold to_size_t. apply Z.mod_small. exact H. Qed.

(** X15.  For positive page size and page count (as [long] values) and a
    limit_percent between 0 and 100, no step of the limit computation wraps
    around: max_mem is the size of physical memory when the page count is
    below SIZE_MAX / page_size and SIZE_MAX otherwise; the limit is the
    smaller of limit_in_bytes (as a size_t) and max_mem / 100 * limit_percent,
    which never exceeds max_mem; and with limit_in_bytes unset (-1) it is
    max_mem / 100 * limit_percent. *)
Theorem memory_limit_no_wrap (limit_in_bytes limit_percent page_size num_pages : Z) :
  0 < page_size < 2 ^ 63 ->
  0 < num_pages < 2 ^ 63 ->
  0 <= limit_percent <= 100 ->
  let physical := num_pages * page_size in
  let m := if num_pages <? SIZE_MAX / page_size then physical else SIZE_MAX in
  max_mem page_size num_pages = m
  /\ computed_limit_in_bytes limit_in_bytes limit_percent page_size num_pages None
     = Z.min (to_size_t limit_in_bytes) (m / 100 * limit_percent)
  /\ m / 100 * limit_percent <= m <= SIZE_MAX
  /\ (limit_in_bytes = -1 ->
      computed_limit_in_bytes limit_in_bytes limit_percent page_size num_pages None
      = m / 100 * limit_percent).
Proof.
  intros Hp Hn Hl physical m.
  assert (P64 : 2 ^ 63 < 2 ^ 64) by (vm_compute; reflexivity).
  assert (Hm : max_mem page_size num_pages = m).
  { unfold max_mem. rewrite !to_size_t_small by lia. subst m physical.
    destruct (Z.ltb_spec num_pages (SIZE_MAX / page_size)) as [L|G]; [|reflexivity].
    apply to_size_t_small. split; [nia|].
    assert (page_size * (SIZE_MAX / page_size) <= SIZE_MAX)
      by (apply Z.mul_div_le; lia).
    unfold SIZE_MAX in *. nia. }
  assert (Bm : 0 <= m <= SIZE_MAX).
  { subst m physical. destruct (Z.ltb_spec num_pages (SIZE_MAX / page_size)) as [L|G].
    - assert (page_size * (SIZE_MAX / page_size) <= SIZE_MAX)
        by (apply Z.mul_div_le; lia).
      split; nia.
    - unfold SIZE_MAX. lia. }
  assert (Bq : 0 <= m / 100 * limit_percent <= m).
  { assert (0 <= m / 100) by (apply Z.div_pos; lia).
    assert (100 * (m / 100) <= m) by (apply Z.mul_div_le; lia).
    split; nia. }
  assert (E : computed_limit_in_bytes limit_in_bytes limit_percent page_size num_pages None
              = Z.min (to_size_t limit_in_bytes) (m / 100 * limit_percent)).
  { unfold computed_limit_in_bytes. cbv zeta.
    destruct (Z.eqb_spec limit_percent (-1)); [lia|]. cbn [negb].
    destruct (Z.gtb_spec page_size 0); [|lia].
    destruct (Z.gtb_spec num_pages 0); [|lia]. cbn [andb].
    rewrite Hm. rewrite (to_size_t_small limit_percent) by lia.
    rewrite (to_size_t_small (m / 100 * limit_percent)); [reflexivity|].
    unfold SIZE_MAX in *. lia. }
  split; [exact Hm|]. split; [exact E|]. split; [lia|].
  intros ->. rewrite E.
  change (to_size_t (-1)) with SIZE_MAX. apply Z.min_r. lia.
Qed.

Lemma memory_limit_no_wrap_witness :
  0 < 4096 < 2 ^ 63 /\ 0 < 1000000 < 2 ^ 63 /\ 0 <= 50 <= 100 /\
  computed_limit_in_bytes (-1) 50 4096 1000000 None = 2048000000.
Proof.
  split; [split; reflexivity|]. split; [split; reflexivity|]. split; [lia|].
  rewrite (proj2 (proj2 (proj2 (memory_limit_no_wrap (-1) 50 4096 1000000
             (conj eq_refl eq_refl) (conj eq_refl eq_refl) ltac:(lia)))) eq_refl).
  reflexivity.
Defined.

(** ** exec services *)

Lemma first_dashes_bounds (args : list string) (i k : nat) :
  first_dashes i args = Some k -> (i <= k < i + List.length args)%nat.
Proof.
  revert i. induction args as [|a rest IH]; intros i H; [discriminate|].
  cbn in H. destruct (String.eqb a "--").
  - injection H as <-. cbn. lia.
  - apply IH in H. cbn. lia.
Qed.

Lemma decode_supp_gids_length (D : string -> option Z) (args : list string)
    (i n : nat) (gs : list Z) :
  decode_supp_gids D args i n = Some gs -> List.length gs = n.
Proof.
  revert i gs. induction n as [|n IH]; intros i gs H; cbn in H.
  - injection H as <-. reflexivity.
  - destruct (D (nth i args "")); [|discriminate].
    destruct (decode_supp_gids D args (S i) n) eqn:E; [|discriminate].
    injection H as <-. cbn. f_equal. eapply IH. exact E.
Qed.

(** X16.  Whenever [MakeTemporaryOneshotService] returns a service: its
    flag word is ONESHOT | TEMPORARY, pid, crash_count and start_order are 0
    (it is an initial state of the lifecycle), its arguments are the
    arguments from [command_arg] on and are not empty, it has
    command_arg - 5 supplementary groups, which is at most
    NR_SVC_SUPP_GIDS - 1, and the static counter advanced by one. *)
Theorem temporary_service_well_formed (NR : nat) (D : string -> option Z)
    (count : Z) (args : list string) (x : ExecService) (count' : Z) :
  MakeTemporaryOneshotService NR D count args = (Some x, count') ->
  let s := exec_service x in
  flags_ s = Z.lor SVC_ONESHOT SVC_TEMPORARY
  /\ pid_ s = 0 /\ crash_count_ s = 0 /\ start_order_ s = 0
  /\ args_ s = skipn (command_arg args) args
  /\ args_ s <> []
  /\ (List.length (exec_supp_gids x) <= NR - 1)%nat
  /\ List.length (exec_supp_gids x) = (command_arg args - 5)%nat
  /\ count' = (count + 1) mod 2 ^ 64
  /\ forall next exec_running tr, initial (mkWorld s next exec_running tr).
Proof.
  unfold MakeTemporaryOneshotService. cbv zeta.
  destruct (Nat.ltb_spec (4 + NR) (command_arg args)) as [|Hnr]; [discriminate|].
  destruct (Nat.leb_spec (List.length args) (command_arg args)) as [|Hlen]; [discriminate|].
  assert (Hne : skipn (command_arg args) args <> []).
  { intros E. apply (f_equal (@List.length string)) in E.
    rewrite length_skipn in E. cbn in E. lia. }
  destruct (if (3 <? command_arg args)%nat then _ else _) as [uid|]; [|discriminate].
  destruct (Nat.ltb_spec 4 (command_arg args)) as [H4|H4].
  - destruct (D (nth 3 args "")) as [gid|]; [|discriminate].
    destruct (decode_supp_gids D args 4 (command_arg args - 1 - 4)) as [gs|] eqn:E;
      [|discriminate].
    apply decode_supp_gids_length in E.
    intros H. injection H as <- <-. cbn [exec_service exec_supp_gids].
    repeat split; try reflexivity; try exact Hne; lia.
  - intros H. injection H as <- <-. cbn [exec_service exec_supp_gids].
    repeat split; try reflexivity; try exact Hne; cbn; lia.
Qed.

Lemma temporary_service_well_formed_witness :
  exists x c,
    MakeTemporaryOneshotService 12 sample_DecodeUid 0
      ["exec"; "-"; "shell"; "--"; "/system/bin/ls"] = (Some x, c)
    /\ args_ (exec_service x) = ["/system/bin/ls"]
    /\ uid_ (exec_service x) = 2000.
Proof.
  eexists. eexists. split; [reflexivity|].
  split.
  - exact (proj1 (proj2 (proj2 (proj2 (proj2
      (temporary_service_well_formed 12 sample_DecodeUid 0
         ["exec"; "-"; "shell"; "--"; "/system/bin/ls"] _ _ eq_refl)))))).
  - reflexivity.
Defined.

(** X17.  When no argument after the first is "--", every argument after
    the first is the command: [MakeTemporaryOneshotService] returns a service
    with these arguments, the default security context, uid 0, gid 0 and no
    supplementary groups, and [DecodeUid] is not consulted. *)
Theorem exec_without_dashes (NR : nat) (D : string -> option Z) (count : Z)
    (a0 : string) (cmd : list string) :
  cmd <> [] ->
  first_dashes 1 cmd = None ->
  MakeTemporaryOneshotService NR D count (a0 :: cmd) =
    (Some (mkExec (new_Service
                     ("exec " +:+ pretty ((count + 1) mod 2 ^ 64) +:+ " ("
                        +:+ Join cmd " " +:+ ")")
                     (Z.lor SVC_ONESHOT SVC_TEMPORARY) 0 0 "" cmd) 0 []),
     (count + 1) mod 2 ^ 64).
Proof.
  intros Hne Hd. unfold MakeTemporaryOneshotService, command_arg.
  cbn [tl]. rewrite Hd. cbv zeta.
  destruct cmd as [|c cmd']; [contradiction|].
  change (4 + NR <? 1)%nat with false. cbv iota.
  reflexivity.
Qed.

Lemma exec_without_dashes_witness :
  ["/system/bin/ls"; "-l"] <> [] /\
  first_dashes 1 ["/system/bin/ls"; "-l"] = None /\
  fst (MakeTemporaryOneshotService 12 sample_DecodeUid 0 ["exec"; "/system/bin/ls"; "-l"])
    = Some (mkExec (new_Service "exec 1 (/system/bin/ls -l)"
                      (Z.lor SVC_ONESHOT SVC_TEMPORARY) 0 0 "" ["/system/bin/ls"; "-l"])
                   0 []).
Proof.
  split; [discriminate|]. split; [reflexivity|].
  rewrite (exec_without_dashes 12 sample_DecodeUid 0 "exec" ["/system/bin/ls"; "-l"]
             ltac:(discriminate) eq_refl).
  vm_compute. reflexivity.
Defined.

(* ================================================================== *)
(** * Further properties of the property service *)
(* ================================================================== *)

Section PropertyServiceEffects.
Context `{P : PropertyPlatform}.

Lemma PropertySet_fails_unchanged (name value : string) (s : PropertyServer) :
  fst (PropertySet name value s) <> PROP_SUCCESS -> snd (PropertySet name value s) = s.
Proof.
  pose proof (PropertySet_cases name value s) as H. cbv zeta in H.
  destruct (_ && _ && _) in H; rewrite H; [cbn; congruence|reflexivity].
Qed.

(** X18.  A [PropertySet] that fails leaves the property service exactly as
    it was.  One that succeeds stores the value under the name and changes
    nothing else but the trace, to which it adds the write to the persistent
    store exactly when the persistent properties are loaded and the name
    starts with "persist.", and then the property-changed message exactly
    when messages are accepted.  It succeeds exactly when name and value are
    legal and either the name is not stored yet and the property area takes
    it, or it is stored and does not start with "ro.". *)
Theorem PropertySet_effects (name value : string) (s : PropertyServer) :
  let r := fst (PropertySet name value s) in
  let s' := snd (PropertySet name value s) in
  (r <> PROP_SUCCESS -> s' = s)
  /\ (r = PROP_SUCCESS ->
      store s' = <[name := value]> (store s)
      /\ persistent_properties_loaded s' = persistent_properties_loaded s
      /\ accept_messages s' = accept_messages s
      /\ paths_ s' = paths_ s /\ thread_started_ s' = thread_started_ s
      /\ ptrace s' =
           ptrace s
             ++ (if persistent_properties_loaded s && StartsWith name "persist."
                 then [PvWritePersistentProperty name value] else [])
             ++ (if accept_messages s
                 then [PvSendMessage (ChangedMessage name value)] else []))
  /\ (r = PROP_SUCCESS <->
      IsLegalPropertyName name = true /\ IsLegalPropertyValue name value = true
      /\ match store s !! name with
         | Some _ => StartsWith name "ro." = false
         | None => system_property_add_ok (store s) name value = true
         end).
Proof.
  cbv zeta. split; [apply PropertySet_fails_unchanged|].
  pose proof (PropertySet_cases name value s) as H. cbv zeta in H.
  destruct (IsLegalPropertyName name) eqn:Ln; cbn [andb] in H.
  2: { assert (F : fst (PropertySet name value s) = PROP_ERROR_INVALID_NAME)
         by (unfold PropertySet; rewrite Ln; reflexivity).
       split; [rewrite F; discriminate|]. rewrite F.
       split; [discriminate|]. intros (A & _). discriminate A. }
  destruct (IsLegalPropertyValue name value) eqn:Lv; cbn [andb] in H.
  2: { assert (F : fst (PropertySet name value s) = PROP_ERROR_INVALID_VALUE)
         by (unfold PropertySet; rewrite Ln, Lv; reflexivity).
       split; [rewrite F; discriminate|]. rewrite F.
       split; [discriminate|]. intros (_ & A & _). discriminate A. }
  assert (F : fst (PropertySet name value s) =
              match store s !! name with
              | Some _ => if StartsWith name "ro." then PROP_ERROR_READ_ONLY_PROPERTY
                          else PROP_SUCCESS
              | None => if system_property_add_ok (store s) name value
                        then PROP_SUCCESS else PROP_ERROR_SET_FAILED
              end).
  { unfold PropertySet. rewrite Ln, Lv. cbn [negb].
    destruct (store s !! name); [destruct (StartsWith name "ro.")
                                |destruct (system_property_add_ok _ _ _)]; reflexivity. }
  destruct (store s !! name) as [old|].
  - destruct (StartsWith name "ro."); cbn [negb] in H.
    + rewrite F. split; [discriminate|]. split; [discriminate|].
      intros (_ & _ & A). discriminate A.
    + rewrite H. cbn [fst snd store persistent_properties_loaded accept_messages paths_
                      thread_started_ ptrace].
      split; [intros _; repeat split|]. split; [intros _; repeat split|reflexivity].
  - destruct (system_property_add_ok (store s) name value).
    + rewrite H. cbn [fst snd store persistent_properties_loaded accept_messages paths_
                      thread_started_ ptrace].
      split; [intros _; repeat split|]. split; [intros _; repeat split|reflexivity].
    + rewrite F. split; [discriminate|]. split; [discriminate|].
      intros (_ & _ & A). discriminate A.
Qed.

(** Everything but the trace and the store is kept by [PropertySet]. *)
Lemma PropertySet_frame (name value : string) (s : PropertyServer) :
  let s' := snd (PropertySet name value s) in
  persistent_properties_loaded s' = persistent_properties_loaded s
  /\ accept_messages s' = accept_messages s
  /\ paths_ s' = paths_ s /\ thread_started_ s' = thread_started_ s
  /\ exists evs,
       ptrace s' = ptrace s ++ evs
       /\ (fst (PropertySet name value s) <> PROP_SUCCESS -> evs = [])
       /\ (persistent_properties_loaded s = false ->
           forall n v, ~ In (PvWritePersistentProperty n v) evs).
Proof.
  cbv zeta. pose proof (PropertySet_cases name value s) as H. cbv zeta in H.
  destruct (_ && _ && _) in H; rewrite H; cbn [fst snd persistent_properties_loaded
     accept_messages paths_ thread_started_ ptrace].
  - repeat split. eexists. split; [reflexivity|]. split; [congruence|].
    intros L n v. rewrite L. cbn [andb app].
    destruct (accept_messages s); cbn; [intros [Q|[]]; discriminate Q|intros []].
  - repeat split. exists []. split; [symmetry; apply app_nil_r|].
    split; [reflexivity|]. intros _ n v [].
Qed.

Lemma SendControlMessage_frame (msg name : string) (pid : Z) (socket : option Z)
    (s : PropertyServer) :
  let s' := snd (SendControlMessage msg name pid socket s) in
  store s' = store s
  /\ persistent_properties_loaded s' = persistent_properties_loaded s
  /\ accept_messages s' = accept_messages s
  /\ paths_ s' = paths_ s /\ thread_started_ s' = thread_started_ s
  /\ exists evs, ptrace s' = ptrace s ++ evs /\ forallb quiet evs = true.
Proof.
  cbv zeta. unfold SendControlMessage.
  destruct (negb (accept_messages s)).
  { repeat split. exists []. split; [symmetry; apply app_nil_r|reflexivity]. }
  cbv zeta.
  destruct socket as [sfd|];
    [destruct (SelinuxGetVendorAndroidVersion >? ANDROID_API_Q)|];
    destruct (negb (SendMessage_ok _)); cbn; repeat split;
    eexists; (split; [rewrite <- ?app_assoc; reflexivity|reflexivity]).
Qed.

Lemma HandlePropertySet_result (name value source_context : string) (cr : ucred)
    (socket : option Z) (s : PropertyServer) :
  let r := fst (HandlePropertySet name value source_context cr socket s) in
  r <> PROP_ERROR_READ_CMD /\ r <> PROP_ERROR_READ_DATA /\ r <> PROP_ERROR_INVALID_CMD.
Proof.
  cbv zeta. unfold HandlePropertySet. cbv zeta.
  destruct (PropResult_eqb (CheckPermissions name value source_context) PROP_SUCCESS) eqn:E;
    cbn [negb].
  2: { cbn [fst]. unfold CheckPermissions.
       repeat match goal with
       | |- context [if ?c then _ else _] => destruct c
       end; repeat split; discriminate. }
  destruct (StartsWith name "ctl.").
  { unfold SendControlMessage. cbv zeta.
    repeat match goal with
    | |- context [if ?c then _ else _] => destruct c
    end; repeat split; discriminate. }
  destruct (_ && negb (String.eqb value "")); [repeat split; discriminate|].
  unfold PropertySet.
  repeat match goal with
  | |- context [if ?c then _ else _] => destruct c
  | |- context [match ?c with Some _ => _ | None => _ end] => destruct c
  end; repeat split; discriminate.
Qed.

(** X19.  Whenever [HandlePropertySet] returns an error, the store, the two
    mode flags and the restorecon queue are unchanged, and nothing was written
    to the persistent store, announced to init as a property change or
    started as a worker (the only possible actions are those of a control
    message whose send failed and the log of a sys.powerctl writer); when the
    permission check itself fails the property service is left exactly as it
    was. *)
Theorem failed_request_keeps_state (name value source_context : string) (cr : ucred)
    (socket : option Z) (s : PropertyServer) :
  fst (HandlePropertySet name value source_context cr socket s) <> PROP_SUCCESS ->
  let s' := snd (HandlePropertySet name value source_context cr socket s) in
  store s' = store s
  /\ persistent_properties_loaded s' = persistent_properties_loaded s
  /\ accept_messages s' = accept_messages s
  /\ paths_ s' = paths_ s /\ thread_started_ s' = thread_started_ s
  /\ (exists evs, ptrace s' = ptrace s ++ evs /\ forallb quiet evs = true)
  /\ (CheckPermissions name value source_context <> PROP_SUCCESS -> s' = s).
Proof.
  cbv zeta. unfold HandlePropertySet. cbv zeta.
  destruct (PropResult_eqb (CheckPermissions name value source_context) PROP_SUCCESS) eqn:E;
    cbn [negb].
  2: { intros _. cbn [snd]. repeat split.
       exists []. split; [symmetry; apply app_nil_r|reflexivity]. }
  apply PropResult_eqb_eq in E.
  destruct (StartsWith name "ctl.").
  { intros _. destruct (SendControlMessage_frame (c_str (skip 4 name)) value (cr_pid cr)
                          socket s) as (A & B & C & D & F & G).
    repeat split; try assumption. intros N. contradiction. }
  destruct (_ && negb (String.eqb value "")); [cbn [fst]; congruence|].
  set (s0 := if String.eqb name "sys.powerctl" then _ else s).
  intros Hf. rewrite (PropertySet_fails_unchanged name value s0 Hf).
  subst s0. destruct (String.eqb name "sys.powerctl"); cbn; repeat split;
    try (intros N; contradiction).
  - eexists. split; reflexivity.
  - exists []. split; [symmetry; apply app_nil_r|reflexivity].
Qed.

(** What [HandlePropertySet] does to the restorecon queue. *)
Lemma HandlePropertySet_queue (name value source_context : string)
    (cr : ucred) (socket : option Z) (s : PropertyServer) :
  let s' := snd (HandlePropertySet name value source_context cr socket s) in
  let queued :=
    PropResult_eqb (CheckPermissions name value source_context) PROP_SUCCESS
    && String.eqb name kRestoreconProperty && negb (cr_pid cr =? 1)
    && negb (String.eqb value "") in
  paths_ s' = (if queued then paths_ s ++ [value] else paths_ s)
  /\ thread_started_ s' = (if queued then true else thread_started_ s)
  /\ (queued = true -> store s' = store s)
  /\ exists evs,
       ptrace s' = ptrace s ++ evs
       /\ (In PvSpawnRestoreconThread evs <-> queued = true /\ thread_started_ s = false).
Proof.
  cbv zeta. unfold HandlePropertySet. cbv zeta.
  destruct (PropResult_eqb (CheckPermissions name value source_context) PROP_SUCCESS) eqn:E;
    cbn [negb andb].
  2: { cbn [snd]. repeat split; try discriminate.
       exists []. split; [symmetry; apply app_nil_r|].
       split; [intros []|intros [A _]; discriminate A]. }
  destruct (StartsWith name "ctl.") eqn:C.
  { assert (N : String.eqb name kRestoreconProperty = false).
    { destruct (String.eqb_spec name kRestoreconProperty) as [->|]; [discriminate C|reflexivity]. }
    rewrite N. cbn [andb].
    destruct (SendControlMessage_frame (c_str (skip 4 name)) value (cr_pid cr) socket s)
      as (_ & _ & _ & D & F & evs & G & Q).
    split; [exact D|]. split; [exact F|]. split; [discriminate|].
    exists evs. split; [exact G|]. split; [|intros [A _]; discriminate A].
    intros H. rewrite forallb_forall in Q. specialize (Q _ H). discriminate Q. }
  destruct (String.eqb name kRestoreconProperty && negb (cr_pid cr =? 1)
            && negb (String.eqb value "")) eqn:Q.
  - apply andb_prop in Q as [Q _]. apply andb_prop in Q as [Q _].
    apply String.eqb_eq in Q. subst name.
    change (String.eqb kRestoreconProperty "sys.powerctl") with false. cbv iota.
    cbn [snd]. unfold TriggerRestorecon. cbv zeta.
    cbn [thread_started_ paths_ store persistent_properties_loaded accept_messages ptrace].
    destruct (thread_started_ s) eqn:T; cbn [negb]; cbv iota.
    + repeat split. exists []. split; [symmetry; apply app_nil_r|].
      split; [intros []|intros [_ A]; discriminate A].
    + repeat split. exists [PvSpawnRestoreconThread]. split; [reflexivity|].
      split; [intros _; split; reflexivity|intros _; left; reflexivity].
  - set (s0 := if String.eqb name "sys.powerctl" then _ else s).
    destruct (PropertySet_frame name value s0) as (_ & _ & D & F & _).
    pose proof (PropertySet_cases name value s0) as H. cbv zeta in H.
    assert (S0 : paths_ s0 = paths_ s /\ thread_started_ s0 = thread_started_ s
                 /\ exists pre, ptrace s0 = ptrace s ++ pre
                                /\ ~ In PvSpawnRestoreconThread pre).
    { subst s0. destruct (String.eqb name "sys.powerctl"); (split; [reflexivity|]);
        (split; [reflexivity|]).
      - eexists. split; [reflexivity|]. intros [A|[]]; discriminate A.
      - exists []. split; [symmetry; apply app_nil_r|]. intros []. }
    destruct S0 as (S1 & S2 & pre & S3 & S4).
    split; [rewrite D; exact S1|]. split; [rewrite F; exact S2|].
    split; [discriminate|].
    destruct (_ && _ && _) in H; rewrite H; cbn [snd ptrace].
    + eexists. split; [rewrite S3, <- app_assoc; reflexivity|].
      split; [|intros [A _]; discriminate A].
      rewrite !in_app_iff. intros [A|[A|A]].
      * contradiction.
      * destruct (_ && StartsWith name "persist.") in A;
          [destruct A as [A|[]]; discriminate A|destruct A].
      * destruct (accept_messages s0) in A;
          [destruct A as [A|[]]; discriminate A|destruct A].
    + exists pre. split; [exact S3|]. split; [contradiction|intros [A _]; discriminate A].
Qed.

(** X20.  [HandlePropertySet] appends the value to the restorecon queue
    exactly when the request passes the permission check, names the
    restorecon property, comes from a pid other than 1 and has a non-empty
    value; then the store is unchanged and the worker is marked started.  In
    every other case (init's own writes and empty values included) queue and
    worker mark are unchanged.  A worker is started exactly when a path is
    queued while none is marked started. *)
Theorem restorecon_queue_grows_only_on_request (name value source_context : string)
    (cr : ucred) (socket : option Z) (s : PropertyServer) :
  let s' := snd (HandlePropertySet name value source_context cr socket s) in
  let queued :=
    PropResult_eqb (CheckPermissions name value source_context) PROP_SUCCESS
    && String.eqb name kRestoreconProperty && negb (cr_pid cr =? 1)
    && negb (String.eqb value "") in
  paths_ s' = (if queued then paths_ s ++ [value] else paths_ s)
  /\ thread_started_ s' = (if queued then true else thread_started_ s)
  /\ (queued = true -> store s' = store s)
  /\ exists evs,
       ptrace s' = ptrace s ++ evs
       /\ (In PvSpawnRestoreconThread evs <-> queued = true /\ thread_started_ s = false).
Proof. exact (HandlePropertySet_queue name value source_context cr socket s). Qed.

End PropertyServiceEffects.

Lemma PropertySet_effects_witness :
  fst (@PropertySet sample_platform "persist.sys.locale" "en" (sample_server true))
    = PROP_SUCCESS /\
  ptrace (snd (@PropertySet sample_platform "persist.sys.locale" "en" (sample_server true)))
    = [PvWritePersistentProperty "persist.sys.locale" "en";
       PvSendMessage (ChangedMessage "persist.sys.locale" "en")].
Proof.
  assert (E : fst (@PropertySet sample_platform "persist.sys.locale" "en"
                     (sample_server true)) = PROP_SUCCESS) by (vm_compute; reflexivity).
  split; [exact E|].
  destruct (proj1 (proj2 (@PropertySet_effects sample_platform "persist.sys.locale" "en"
                            (sample_server true))) E) as (_ & _ & _ & _ & _ & T).
  rewrite T. reflexivity.
Defined.

Lemma failed_request_keeps_state_witness :
  fst (@HandlePropertySet sample_platform "ro.x" "1" "u:r:untrusted_app:s0"
         (mkUcred 1234 10001 10001) (Some 7) (sample_server true)) <> PROP_SUCCESS /\
  store (snd (@HandlePropertySet sample_platform "ro.x" "1" "u:r:untrusted_app:s0"
                (mkUcred 1234 10001 10001) (Some 7) (sample_server true))) = ∅.
Proof.
  assert (E : fst (@HandlePropertySet sample_platform "ro.x" "1" "u:r:untrusted_app:s0"
                     (mkUcred 1234 10001 10001) (Some 7) (sample_server true))
              <> PROP_SUCCESS) by (vm_compute; discriminate).
  split; [exact E|].
  exact (proj1 (@failed_request_keeps_state sample_platform "ro.x" "1"
                  "u:r:untrusted_app:s0" (mkUcred 1234 10001 10001) (Some 7)
                  (sample_server true) E)).
Defined.

Lemma restorecon_queue_grows_only_on_request_witness :
  paths_ (snd (@HandlePropertySet sample_platform kRestoreconProperty "/data" init_context
                 (mkUcred 1 0 0) None (sample_server true))) = [] /\
  paths_ (snd (@HandlePropertySet sample_platform kRestoreconProperty "/data" init_context
                 (mkUcred 1234 0 0) None (sample_server true))) = ["/data"].
Proof.
  split.
  - rewrite (proj1 (@restorecon_queue_grows_only_on_request sample_platform
                      kRestoreconProperty "/data" init_context (mkUcred 1 0 0) None
                      (sample_server true))).
    reflexivity.
  - rewrite (proj1 (@restorecon_queue_grows_only_on_request sample_platform
                      kRestoreconProperty "/data" init_context (mkUcred 1234 0 0) None
                      (sample_server true))).
    reflexivity.
Defined.

Section InitSideFacts.
Context `{P : PropertyPlatform}.
Variable kInitContext : string.

Lemma no_write_back_refl (s : PropertyServer) : no_write_back s s.
Proof.
  repeat split. exists []. split; [symmetry; apply app_nil_r|]. intros _ n v [].
Qed.

Lemma no_write_back_trans (s1 s2 s3 : PropertyServer) :
  no_write_back s1 s2 -> no_write_back s2 s3 -> no_write_back s1 s3.
Proof.
  intros (A1 & B1 & C1 & D1 & e1 & T1 & N1) (A2 & B2 & C2 & D2 & e2 & T2 & N2).
  split; [congruence|]. split; [congruence|]. split; [congruence|]. split; [congruence|].
  exists (e1 ++ e2). split; [rewrite T2, T1, app_assoc; reflexivity|].
  intros L n v H. apply in_app_or in H as [H|H].
  - exact (N1 L n v H).
  - apply (N2 (eq_trans A1 L) n v H).
Qed.

Lemma no_write_back_PropertySet (name value : string) (s : PropertyServer) :
  no_write_back s (snd (PropertySet name value s)).
Proof.
  destruct (PropertySet_frame name value s) as (A & B & C & D & evs & T & _ & N).
  repeat split; try assumption. exists evs. split; assumption.
Qed.

Lemma no_write_back_InitPropertySet (name value : string) (s : PropertyServer) :
  no_write_back s (snd (InitPropertySet kInitContext name value s)).
Proof.
  unfold InitPropertySet, HandlePropertySet. cbv zeta.
  destruct (negb (PropResult_eqb _ _)); [apply no_write_back_refl|].
  destruct (StartsWith name "ctl.").
  { destruct (SendControlMessage_frame (c_str (skip 4 name)) value 1 None s)
      as (_ & A & B & C & D & evs & T & Q).
    repeat split; try assumption. exists evs. split; [exact T|].
    intros _ n v H. rewrite forallb_forall in Q. specialize (Q _ H). discriminate Q. }
  cbn [cr_pid]. change (1 =? 1) with true. cbn [negb]. rewrite andb_false_r. cbn [andb].
  eapply no_write_back_trans; [|apply no_write_back_PropertySet].
  destruct (String.eqb name "sys.powerctl"); [|apply no_write_back_refl].
  repeat split. eexists. split; [reflexivity|].
  intros _ n v [H|[]]. discriminate H.
Qed.

Lemma no_write_back_set_each
    (set : string -> string -> PropertyServer -> PropResult * PropertyServer)
    (entries : list (string * string)) (s : PropertyServer) :
  (forall n v s0, no_write_back s0 (snd (set n v s0))) ->
  no_write_back s (set_each set entries s).
Proof.
  intros Hset. revert s. induction entries as [|[n v] rest IH]; intros s.
  - apply no_write_back_refl.
  - cbn [set_each]. eapply no_write_back_trans; [apply Hset|apply IH].
Qed.

(** X21.  While the persistent properties are not loaded, handling the
    message kLoadPersistentProperties (the override properties, every
    persistent record, then ro.persistent_properties.ready) writes nothing
    to the persistent store, leaves accept_messages and the restorecon queue
    alone, and ends with persistent_properties_loaded set. *)
Theorem loading_persistent_properties_writes_nothing_back
    (allow : bool) (local_prop persistent : list (string * string)) (s : PropertyServer) :
  persistent_properties_loaded s = false ->
  let s' := HandleInitSocket kInitContext allow local_prop persistent
              (Some kLoadPersistentProperties) s in
  persistent_properties_loaded s' = true
  /\ accept_messages s' = accept_messages s
  /\ paths_ s' = paths_ s /\ thread_started_ s' = thread_started_ s
  /\ exists evs,
       ptrace s' = ptrace s ++ evs
       /\ forall n v, ~ In (PvWritePersistentProperty n v) evs.
Proof.
  intros L. cbv zeta. unfold HandleInitSocket. cbv zeta.
  set (s1 := load_override_properties allow local_prop s).
  set (s2 := set_each (InitPropertySet kInitContext) persistent s1).
  set (s3 := snd (InitPropertySet kInitContext "ro.persistent_properties.ready" "true" s2)).
  assert (K : no_write_back s s3).
  { eapply no_write_back_trans; [|apply no_write_back_InitPropertySet].
    eapply no_write_back_trans;
      [|apply no_write_back_set_each; intros; apply no_write_back_InitPropertySet].
    subst s1. unfold load_override_properties.
    destruct allow; [|apply no_write_back_refl].
    apply no_write_back_set_each. intros. apply no_write_back_PropertySet. }
  destruct K as (_ & B & C & D & evs & T & N).
  split; [reflexivity|]. split; [exact B|]. split; [exact C|]. split; [exact D|].
  exists evs. split; [exact T|exact (N L)].
Qed.

Lemma only_changes_refl (Q : string -> bool) (s : PropertyServer) : only_changes Q s s.
Proof. intros n _. reflexivity. Qed.

Lemma only_changes_trans (Q : string -> bool) (s1 s2 s3 : PropertyServer) :
  only_changes Q s1 s2 -> only_changes Q s2 s3 -> only_changes Q s1 s3.
Proof. intros A B n H. rewrite (B n H). apply A, H. Qed.

Lemma only_changes_InitPropertySet (Q : string -> bool) (name value : string)
    (s : PropertyServer) :
  Q name = true -> only_changes Q s (snd (InitPropertySet kInitContext name value s)).
Proof.
  intros Hq n Hn. unfold InitPropertySet.
  assert (Hne : name <> n) by (intros ->; congruence).
  destruct (HandlePropertySet_store name value kInitContext (mkUcred 1 0 0) None s)
    as [E|E]; rewrite E; [reflexivity|].
  set (s0 := if String.eqb name "sys.powerctl" then _ else s).
  assert (S0 : store s0 = store s)
    by (subst s0; destruct (String.eqb name "sys.powerctl"); reflexivity).
  destruct (PropertySet_store name value s0) as [F|(_ & F & _)]; rewrite F, S0;
    [reflexivity|]. apply lookup_insert_ne. exact Hne.
Qed.

Lemma StartsWith_append (p x : string) : StartsWith (p +:+ x) p = true.
Proof.
  unfold StartsWith. induction p as [|a p IH].
  - destruct x; reflexivity.
  - change (String a p +:+ x) with (String a (p +:+ x)). cbn [String.prefix].
    destruct (ascii_dec a a) as [_|N]; [exact IH|contradiction].
Qed.

Lemma import_androidboot_spec (cmdline : list (string * string)) (b : bool)
    (s : PropertyServer) :
  fst (import_androidboot kInitContext cmdline b s)
    = b || existsb (fun kv => String.eqb (fst kv) "qemu") cmdline
  /\ only_changes (fun n => StartsWith n "ro.boot.") s
       (snd (import_androidboot kInitContext cmdline b s))
  /\ no_write_back s (snd (import_androidboot kInitContext cmdline b s)).
Proof.
  revert b s. induction cmdline as [|[key value] rest IH]; intros b s.
  - cbn. split; [symmetry; apply orb_false_r|].
    split; [apply only_changes_refl|apply no_write_back_refl].
  - cbn [import_androidboot existsb fst].
    destruct (String.eqb key "qemu").
    + destruct (IH true s) as (A & B & C). rewrite A. cbn [orb].
      split; [symmetry; apply orb_true_r|]. split; assumption.
    + cbn [orb]. destruct (StartsWith key "androidboot.").
      * destruct (IH b (snd (InitPropertySet kInitContext ("ro.boot." +:+ skip 12 key)
                               value s))) as (A & B & C).
        split; [exact A|]. split.
        -- eapply only_changes_trans; [|exact B].
           apply only_changes_InitPropertySet. apply StartsWith_append.
        -- eapply no_write_back_trans; [|exact C]. apply no_write_back_InitPropertySet.
      * apply IH.
Qed.

Lemma import_kernel_spec (cmdline : list (string * string)) (s : PropertyServer) :
  only_changes (fun n => StartsWith n "ro.kernel.") s
    (import_kernel kInitContext cmdline s)
  /\ no_write_back s (import_kernel kInitContext cmdline s).
Proof.
  revert s. induction cmdline as [|[key value] rest IH]; intros s.
  - split; [apply only_changes_refl|apply no_write_back_refl].
  - cbn [import_kernel].
    destruct (IH (snd (InitPropertySet kInitContext ("ro.kernel." +:+ key) value s)))
      as (B & C).
    split.
    + eapply only_changes_trans; [|exact B].
      apply only_changes_InitPropertySet. apply StartsWith_append.
    + eapply no_write_back_trans; [|exact C]. apply no_write_back_InitPropertySet.
Qed.

(** X22.  [ProcessKernelCmdline] changes the stored value of no name outside
    "ro.boot.", except names under "ro.kernel." when the command line has the
    key "qemu"; it leaves the restorecon queue and the mode flags alone. *)
Theorem kernel_cmdline_sets_only_boot_properties (cmdline : list (string * string))
    (s : PropertyServer) :
  let s' := ProcessKernelCmdline kInitContext cmdline s in
  let for_emulator := existsb (fun kv => String.eqb (fst kv) "qemu") cmdline in
  (forall n,
     StartsWith n "ro.boot." = false ->
     for_emulator && StartsWith n "ro.kernel." = false ->
     store s' !! n = store s !! n)
  /\ paths_ s' = paths_ s /\ thread_started_ s' = thread_started_ s
  /\ persistent_properties_loaded s' = persistent_properties_loaded s
  /\ accept_messages s' = accept_messages s.
Proof.
  cbv zeta. unfold ProcessKernelCmdline.
  destruct (import_androidboot_spec cmdline false s) as (A & B & C).
  destruct (import_androidboot kInitContext cmdline false s) as [fe s1].
  cbn [fst snd orb] in A, B, C. subst fe.
  destruct (existsb _ cmdline).
  - destruct (import_kernel_spec cmdline s1) as (B2 & C2).
    pose proof (no_write_back_trans _ _ _ C C2) as (K1 & K2 & K3 & K4 & _).
    split; [|repeat split; assumption].
    intros n H1 H2. cbn [andb] in H2. rewrite (B2 n H2). apply B, H1.
  - destruct C as (K1 & K2 & K3 & K4 & _).
    split; [|repeat split; assumption].
    intros n H1 _. apply B, H1.
Qed.

End InitSideFacts.

Lemma loading_persistent_properties_writes_nothing_back_witness :
  persistent_properties_loaded booting_server = false /\
  persistent_properties_loaded
    (@HandleInitSocket sample_platform init_context true [] sample_persistent
       (Some kLoadPersistentProperties) booting_server) = true.
Proof.
  split; [reflexivity|].
  exact (proj1 (@loading_persistent_properties_writes_nothing_back sample_platform
                  init_context true [] sample_persistent booting_server eq_refl)).
Defined.

Lemma kernel_cmdline_sets_only_boot_properties_witness :
  StartsWith "console" "ro.boot." = false /\
  store (@ProcessKernelCmdline sample_platform init_context sample_cmdline
           (sample_server true)) !! "console" = None.
Proof.
  split; [reflexivity|].
  rewrite (proj1 (@kernel_cmdline_sets_only_boot_properties sample_platform init_context
                    sample_cmdline (sample_server true)) "console" eq_refl eq_refl).
  reflexivity.
Defined.

(** ** The receive budget *)

Lemma PollIn_loop_budget (o : SocketOracle) (fuel : nat) :
  forall c t r c' t',
    0 <= t -> PollIn_loop fuel o c t = Some (r, c', t') ->
    0 <= t' <= t /\ (polls_done c <= polls_done c')%nat /\ recvs_done c' = recvs_done c.
Proof.
  induction fuel as [|fuel IH]; intros c t r c' t' Ht H; [discriminate H|].
  cbn [PollIn_loop] in H.
  destruct (Z.gtb_spec t 0) as [Hpos|Hle].
  2: { injection H as <- <- <-. repeat split; lia. }
  cbv zeta in H.
  set (m := poll_millis _ mod 2 ^ 64) in H.
  assert (Hm : 0 <= m) by (apply Z.mod_pos_bound; lia).
  set (t1 := if m >? t then 0 else t - m) in H.
  assert (H1 : 0 <= t1 <= t) by (subst t1; destruct (Z.gtb_spec m t); lia).
  destruct (poll_nr _ >? 0).
  { injection H as <- <- <-. cbn. repeat split; lia. }
  destruct (poll_nr _ =? 0).
  { injection H as <- <- <-. cbn. repeat split; lia. }
  destruct (negb _).
  { injection H as <- <- <-. cbn. repeat split; lia. }
  apply IH in H.
  - cbn [polls_done recvs_done] in H. destruct H as (A & B & C).
    destruct (Z.gtb_spec t1 0); repeat split; try lia; exact C.
  - destruct (Z.gtb_spec t1 0); lia.
Qed.

Lemma RecvFully_loop_budget (o : SocketOracle) (fuel : nat) :
  forall c n data t r c' t',
    0 <= t -> RecvFully_loop fuel o c n data t = Some (r, c', t') ->
    0 <= t' <= t /\ (polls_done c <= polls_done c')%nat
    /\ (recvs_done c <= recvs_done c')%nat.
Proof.
  induction fuel as [|fuel IH]; intros c n data t r c' t' Ht H; [discriminate H|].
  cbn [RecvFully_loop] in H.
  destruct ((t >? 0) && negb (n =? 0)%nat).
  2: { injection H as <- <- <-. repeat split; lia. }
  destruct (PollIn o c t) as [[[b c1] t1]|] eqn:Hp; [|discriminate H].
  apply PollIn_loop_budget in Hp; [|exact Ht]. destruct Hp as (A & B & C).
  destruct b.
  2: { injection H as <- <- <-. repeat split; lia. }
  cbv zeta in H.
  destruct (recv_answer o (recvs_done c1)) as [chunk|].
  2: { injection H as <- <- <-. cbn. repeat split; lia. }
  destruct (Nat.eqb_spec (String.length (take_bytes n chunk)) 0).
  { injection H as <- <- <-. cbn. repeat split; lia. }
  apply IH in H; [|lia]. cbn [polls_done recvs_done] in H.
  repeat split; lia.
Qed.

Lemma RecvFully_budget (o : SocketOracle) (c : Conn) (n : nat) (t : Z) r c' t' :
  0 <= t -> RecvFully o c n t = Some (r, c', t') ->
  0 <= t' <= t /\ (polls_done c <= polls_done c')%nat
  /\ (recvs_done c <= recvs_done c')%nat.
Proof. apply RecvFully_loop_budget. Qed.

Lemma RecvUint32_budget (o : SocketOracle) (c : Conn) (t : Z) r c' t' :
  0 <= t -> RecvUint32 o c t = Some (r, c', t') ->
  0 <= t' <= t /\ (polls_done c <= polls_done c')%nat
  /\ (recvs_done c <= recvs_done c')%nat.
Proof.
  intros Ht. unfold RecvUint32.
  destruct (RecvFully o c 4 t) as [[[[v|] c1] t1]|] eqn:E; [| |discriminate];
    intros H; injection H as <- <- <-; eapply RecvFully_budget; eassumption.
Qed.

Lemma receive_budget_helper (o : SocketOracle) (c : Conn) (t : Z)
    (r : option string) (c' : Conn) (t' : Z) :
  0 <= t -> RecvString o c t = Some (r, c', t') -> 0 <= t' <= t.
Proof.
  intros Ht. unfold RecvString.
  destruct (RecvUint32 o c t) as [[[[len|] c1] t1]|] eqn:E; [| |discriminate].
  - apply RecvUint32_budget in E; [|exact Ht].
    destruct (len =? 0); [intros H; injection H as <- <- <-; apply E|].
    destruct (len >? 65535); [intros H; injection H as <- <- <-; apply E|].
    intros H. apply RecvFully_budget in H; [|lia]. lia.
  - apply RecvUint32_budget in E; [|exact Ht].
    intros H; injection H as <- <- <-; apply E.
Qed.

(** X23.  Whenever [RecvString] returns, called with a budget that is not
    negative: the budget left is between 0 and the budget given, the numbers
    of [poll] and [recv] calls made did not decrease, and with a budget of 0
    it fails without any call. *)
Theorem receive_budget_never_grows (o : SocketOracle) (c : Conn) (t : Z)
    (r : option string) (c' : Conn) (t' : Z) :
  0 <= t ->
  RecvString o c t = Some (r, c', t') ->
  0 <= t' <= t
  /\ (polls_done c <= polls_done c')%nat /\ (recvs_done c <= recvs_done c')%nat
  /\ (t = 0 -> r = None /\ c' = c).
Proof.
  intros Ht H.
  assert (B : 0 <= t' <= t /\ (polls_done c <= polls_done c')%nat
              /\ (recvs_done c <= recvs_done c')%nat).
  { revert H. unfold RecvString.
    destruct (RecvUint32 o c t) as [[[[len|] c1] t1]|] eqn:E; [| |discriminate].
    - apply RecvUint32_budget in E; [|exact Ht].
      destruct (len =? 0); [intros H; injection H as <- <- <-; exact E|].
      destruct (len >? 65535); [intros H; injection H as <- <- <-; exact E|].
      intros H. apply RecvFully_budget in H; [|lia]. repeat split; lia.
    - apply RecvUint32_budget in E; [|exact Ht].
      intros H; injection H as <- <- <-; exact E. }
  destruct B as (B1 & B2 & B3). repeat split; try lia.
  - subst t. revert H. unfold RecvString, RecvUint32, RecvFully. cbn.
    intros H. injection H as <- _ _. reflexivity.
  - subst t. revert H. unfold RecvString, RecvUint32, RecvFully. cbn.
    intros H. injection H as _ <- _. reflexivity.
Qed.

Lemma receive_budget_never_grows_witness :
  0 <= 2000 /\
  exists r c' t',
    RecvString (prompt_peer (header_of 2 0 0 0) "ok" 3 4) (mkConn 0 0) 2000
      = Some (r, c', t')
    /\ 0 <= t' <= 2000.
Proof.
  split; [lia|].
  exists (Some "ok"), (mkConn 2 2), 1993.
  assert (E : RecvString (prompt_peer (header_of 2 0 0 0) "ok" 3 4) (mkConn 0 0) 2000
              = Some (Some "ok", mkConn 2 2, 1993)) by (vm_compute; reflexivity).
  split; [exact E|].
  exact (proj1 (receive_budget_never_grows
                  (prompt_peer (header_of 2 0 0 0) "ok" 3 4) (mkConn 0 0) 2000
                  (Some "ok") (mkConn 2 2) 1993 ltac:(lia) E)).
Defined.

(** ** The client request handler *)

Section ClientSocketFacts.
Context `{P : PropertyPlatform}.
Variables (PROP_MSG_SETPROP PROP_MSG_SETPROP2 : Z) (PROP_NAME_MAX PROP_VALUE_MAX : nat).

Lemma RecvUint32_total (o : SocketOracle) (c : Conn) (t : Z) :
  exists r, RecvUint32 o c t = Some r.
Proof.
  unfold RecvUint32. destruct (RecvFully_total o c 4 t) as ([[[v|] c1] t1] & ->); eauto.
Qed.

Lemma RecvString_total (o : SocketOracle) (c : Conn) (t : Z) :
  exists r, RecvString o c t = Some r.
Proof.
  unfold RecvString. destruct (RecvUint32_total o c t) as ([[[len|] c1] t1] & ->); [|eauto].
  destruct (len =? 0); [eauto|]. destruct (len >? 65535); [eauto|].
  apply RecvFully_total.
Qed.

(** X24.  [handle_property_set_fd] always returns, and sends the client at
    most one result code.  When [accept4] or the peer credentials fail it
    sends none and changes nothing; and whenever the code sent is
    PROP_ERROR_READ_CMD, PROP_ERROR_READ_DATA or PROP_ERROR_INVALID_CMD the
    property service is exactly as it was. *)
Theorem handler_answers_at_most_once (rq : Request) (s : PropertyServer) :
  exists s' replies,
    handle_property_set_fd PROP_MSG_SETPROP PROP_MSG_SETPROP2
      PROP_NAME_MAX PROP_VALUE_MAX rq s = Some (s', replies)
    /\ (List.length replies <= 1)%nat
    /\ (accept4_ret rq = None \/ peercred rq = None -> s' = s /\ replies = [])
    /\ (forall r, In r replies ->
          r = PROP_ERROR_READ_CMD \/ r = PROP_ERROR_READ_DATA \/ r = PROP_ERROR_INVALID_CMD ->
          s' = s).
Proof.
  assert (Same : forall rs : list PropResult,
            (List.length rs <= 1)%nat ->
            (accept4_ret rq = None \/ peercred rq = None -> rs = []) ->
            exists s' replies,
              Some (s, rs) = Some (s', replies)
              /\ (List.length replies <= 1)%nat
              /\ (accept4_ret rq = None \/ peercred rq = None -> s' = s /\ replies = [])
              /\ (forall r, In r replies ->
                    r = PROP_ERROR_READ_CMD \/ r = PROP_ERROR_READ_DATA
                    \/ r = PROP_ERROR_INVALID_CMD -> s' = s)).
  { intros rs L N. exists s, rs. split; [reflexivity|]. split; [exact L|].
    split; [intros H; split; [reflexivity|exact (N H)]|]. intros; reflexivity. }
  unfold handle_property_set_fd.
  destruct (accept4_ret rq) as [fd|]; [|apply Same; [cbn; lia|reflexivity]].
  destruct (peercred rq) as [cr|]; [|apply Same; [cbn; lia|reflexivity]].
  assert (No : forall (Q : Prop), (Some fd = None \/ Some cr = None -> Q))
    by (intros Q [H|H]; discriminate H).
  destruct (RecvUint32_total (peer rq) (mkConn 0 0) kDefaultSocketTimeout)
    as ([[[cmd|] c1] t1] & ->); [|apply Same; [cbn; lia|apply No]].
  destruct (cmd =? PROP_MSG_SETPROP).
  { unfold RecvChars.
    destruct (RecvFully_total (peer rq) c1 PROP_NAME_MAX t1) as ([[[pn|] c2] t2] & ->);
      [|apply Same; [cbn; lia|apply No]].
    destruct (RecvFully_total (peer rq) c2 PROP_VALUE_MAX t2) as ([[[pv|] c3] t3] & ->);
      [|apply Same; [cbn; lia|apply No]].
    destruct (peercon rq) as [ctx|]; [|apply Same; [cbn; lia|apply No]].
    eexists. exists []. split; [reflexivity|]. split; [cbn; lia|]. split; [apply No|].
    intros r []. }
  destruct (cmd =? PROP_MSG_SETPROP2); [|apply Same; [cbn; lia|apply No]].
  destruct (RecvString_total (peer rq) c1 t1) as ([[[name|] c2] t2] & ->);
    [|apply Same; [cbn; lia|apply No]].
  destruct (RecvString_total (peer rq) c2 t2) as ([[[value|] c3] t3] & ->);
    [|apply Same; [cbn; lia|apply No]].
  destruct (peercon rq) as [ctx|]; [|apply Same; [cbn; lia|apply No]].
  cbv zeta. eexists. eexists. split; [reflexivity|].
  destruct (HandlePropertySet_result name value ctx cr (Some fd) s) as (R1 & R2 & R3).
  destruct (socket_released fd s _).
  - split; [cbn; lia|]. split; [apply No|]. intros r [].
  - split; [cbn; lia|]. split; [apply No|].
    intros r [<-|[]] [H|[H|H]]; contradiction.
Qed.

(** X25.  A request whose command word is PROP_MSG_SETPROP is never
    answered.  The handler reads the name buffer of PROP_NAME_MAX bytes and
    then the value buffer of PROP_VALUE_MAX bytes; when either read fails,
    or the peer context is unavailable, nothing changes.  Otherwise the
    state is that of [HandlePropertySet] called with the bytes received, the
    name and the value being the C strings in the first PROP_NAME_MAX - 1 and
    PROP_VALUE_MAX - 1 bytes of the two buffers, with the peer's context and
    credentials and without a socket to hand over. *)
Theorem legacy_setprop_never_replies (rq : Request) (s : PropertyServer) (fd : Z)
    (cr : ucred) (c : Conn) (t : Z) :
  accept4_ret rq = Some fd ->
  peercred rq = Some cr ->
  RecvUint32 (peer rq) (mkConn 0 0) kDefaultSocketTimeout = Some (Some PROP_MSG_SETPROP, c, t) ->
  exists name_read c1 t1,
    RecvChars (peer rq) c PROP_NAME_MAX t = Some (name_read, c1, t1)
    /\ match name_read with
       | None =>
           handle_property_set_fd PROP_MSG_SETPROP PROP_MSG_SETPROP2
             PROP_NAME_MAX PROP_VALUE_MAX rq s = Some (s, [])
       | Some prop_name =>
           exists value_read c2 t2,
             RecvChars (peer rq) c1 PROP_VALUE_MAX t1 = Some (value_read, c2, t2)
             /\ match value_read with
                | None =>
                    handle_property_set_fd PROP_MSG_SETPROP PROP_MSG_SETPROP2
                      PROP_NAME_MAX PROP_VALUE_MAX rq s = Some (s, [])
                | Some prop_value =>
                    String.length prop_name = PROP_NAME_MAX
                    /\ String.length prop_value = PROP_VALUE_MAX
                    /\ handle_property_set_fd PROP_MSG_SETPROP PROP_MSG_SETPROP2
                         PROP_NAME_MAX PROP_VALUE_MAX rq s =
                       Some (match peercon rq with
                             | None => s
                             | Some source_context =>
                                 snd (HandlePropertySet
                                        (c_str (take_bytes (PROP_NAME_MAX - 1) prop_name))
                                        (c_str (take_bytes (PROP_VALUE_MAX - 1) prop_value))
                                        source_context cr None s)
                             end, [])
                end
       end.
Proof.
  intros Ha Hc Hr. unfold handle_property_set_fd. rewrite Ha, Hc, Hr, Z.eqb_refl.
  unfold RecvChars.
  destruct (RecvFully_total (peer rq) c PROP_NAME_MAX t) as ([[[pn|] c1] t1] & E1);
    rewrite E1; eexists; exists c1, t1; (split; [reflexivity|]); [|reflexivity].
  destruct (RecvFully_total (peer rq) c1 PROP_VALUE_MAX t1) as ([[[pv|] c2] t2] & E2);
    rewrite E2; eexists; exists c2, t2; (split; [reflexivity|]); [|reflexivity].
  split; [eapply RecvFully_length; exact E1|].
  split; [eapply RecvFully_length; exact E2|].
  unfold terminated. destruct (peercon rq); reflexivity.
Qed.

Lemma new_events_app (s s' : PropertyServer) (evs : list PEvent) :
  ptrace s' = ptrace s ++ evs -> new_events s s' = evs.
Proof.
  intros E. unfold new_events. rewrite E.
  rewrite skipn_app, skipn_all, Nat.sub_diag. reflexivity.
Qed.

Lemma socket_released_spec (name value source_context : string) (cr : ucred) (fd : Z)
    (s : PropertyServer) :
  socket_released fd s (snd (HandlePropertySet name value source_context cr (Some fd) s))
  = StartsWith name "ctl."
    && PropResult_eqb (CheckPermissions name value source_context) PROP_SUCCESS
    && accept_messages s && (SelinuxGetVendorAndroidVersion >? ANDROID_API_Q).
Proof.
  unfold socket_released, HandlePropertySet. cbv zeta.
  destruct (PropResult_eqb (CheckPermissions name value source_context) PROP_SUCCESS);
    cbn [negb snd].
  2: { rewrite (new_events_app s s []) by (symmetry; apply app_nil_r).
       rewrite andb_false_r. reflexivity. }
  rewrite andb_true_r.
  destruct (StartsWith name "ctl."); cbn [andb].
  - unfold SendControlMessage.
    destruct (accept_messages s); cbn [negb andb snd].
    2: { rewrite (new_events_app s s []) by (symmetry; apply app_nil_r). reflexivity. }
    cbv zeta.
    destruct (SelinuxGetVendorAndroidVersion >? ANDROID_API_Q);
      destruct (negb (SendMessage_ok _)); cbn [snd].
    + erewrite new_events_app by (cbn; rewrite <- !app_assoc; reflexivity).
      cbn. rewrite Z.eqb_refl. reflexivity.
    + erewrite new_events_app by (cbn; rewrite <- !app_assoc; reflexivity).
      cbn. rewrite Z.eqb_refl. reflexivity.
    + erewrite new_events_app by (cbn; reflexivity). reflexivity.
    + erewrite new_events_app by (cbn; reflexivity). reflexivity.
  - destruct (_ && negb (String.eqb value "")).
    + cbn [snd]. unfold TriggerRestorecon. cbv zeta.
      destruct (String.eqb name "sys.powerctl"); cbn [thread_started_ pemit];
        destruct (thread_started_ s); cbn [negb].
      * erewrite new_events_app by (cbn; reflexivity). reflexivity.
      * erewrite new_events_app by (cbn; rewrite <- !app_assoc; reflexivity). reflexivity.
      * erewrite new_events_app by (cbn; symmetry; apply app_nil_r). reflexivity.
      * erewrite new_events_app by (cbn; reflexivity). reflexivity.
    + set (s0 := if String.eqb name "sys.powerctl" then _ else s).
      pose proof (PropertySet_cases name value s0) as H. cbv zeta in H.
      assert (S0 : exists pre, ptrace s0 = ptrace s ++ pre
                   /\ existsb (fun ev => match ev with PvRelease n => n =? fd
                                                   | _ => false end) pre = false).
      { subst s0. destruct (String.eqb name "sys.powerctl").
        - eexists. split; [reflexivity|reflexivity].
        - exists []. split; [symmetry; apply app_nil_r|reflexivity]. }
      destruct S0 as (pre & S1 & S2).
      destruct (_ && _ && _) in H; rewrite H; cbn [snd].
      * erewrite new_events_app by (cbn [ptrace]; rewrite S1, <- app_assoc; reflexivity).
        rewrite !existsb_app, S2.
        destruct (_ && StartsWith name "persist."), (accept_messages s0); reflexivity.
      * rewrite (new_events_app s s0 pre S1). exact S2.
Qed.

(** X26.  For a PROP_MSG_SETPROP2 request whose command word, name and value
    are read and whose peer context is available: the request is handled by
    [HandlePropertySet] with the client socket, and its result is sent to the
    client, unless the socket was handed over to init, which happens exactly
    for a permitted "ctl." request while messages are accepted and the vendor
    API is above Q; the three reads together stay within the budget of
    2000 ms. *)
Theorem setprop2_reply (rq : Request) (s : PropertyServer) (fd : Z) (cr : ucred)
    (c1 c2 c3 : Conn) (t1 t2 t3 : Z) (name value source_context : string) :
  PROP_MSG_SETPROP2 <> PROP_MSG_SETPROP ->
  accept4_ret rq = Some fd ->
  peercred rq = Some cr ->
  RecvUint32 (peer rq) (mkConn 0 0) kDefaultSocketTimeout
    = Some (Some PROP_MSG_SETPROP2, c1, t1) ->
  RecvString (peer rq) c1 t1 = Some (Some name, c2, t2) ->
  RecvString (peer rq) c2 t2 = Some (Some value, c3, t3) ->
  peercon rq = Some source_context ->
  let r := HandlePropertySet name value source_context cr (Some fd) s in
  let handed_over :=
    StartsWith name "ctl."
    && PropResult_eqb (CheckPermissions name value source_context) PROP_SUCCESS
    && accept_messages s && (SelinuxGetVendorAndroidVersion >? ANDROID_API_Q) in
  handle_property_set_fd PROP_MSG_SETPROP PROP_MSG_SETPROP2 PROP_NAME_MAX PROP_VALUE_MAX rq s
    = Some (snd r, if handed_over then [] else [fst r])
  /\ 0 <= t3 <= kDefaultSocketTimeout.
Proof.
  intros Hne Ha Hc Hr Hn Hv Hp. cbv zeta. split.
  - unfold handle_property_set_fd. rewrite Ha, Hc, Hr.
    destruct (Z.eqb_spec PROP_MSG_SETPROP2 PROP_MSG_SETPROP); [contradiction|].
    rewrite Z.eqb_refl, Hn, Hv, Hp. cbv zeta.
    rewrite socket_released_spec. reflexivity.
  - apply RecvUint32_budget in Hr; [|unfold kDefaultSocketTimeout; lia].
    apply receive_budget_helper in Hn; [|lia].
    apply receive_budget_helper in Hv; [|lia]. lia.
Qed.

End ClientSocketFacts.

Lemma handler_answers_at_most_once_witness :
  exists s' replies,
    @handle_property_set_fd sample_platform 1 131073 32 92
      (mkRequest None None (prompt_pieces []) None) (sample_server true)
      = Some (s', replies)
    /\ s' = sample_server true /\ replies = [].
Proof.
  destruct (@handler_answers_at_most_once sample_platform 1 131073 32 92
              (mkRequest None None (prompt_pieces []) None) (sample_server true))
    as (s' & replies & E & _ & N & _).
  exists s', replies. split; [exact E|]. apply N. left. reflexivity.
Defined.

Lemma legacy_setprop_never_replies_witness :
  RecvUint32 (peer legacy_request) (mkConn 0 0) kDefaultSocketTimeout
    = Some (Some 1, mkConn 1 1, 1999) /\
  exists s',
    @handle_property_set_fd sample_platform 1 131073 32 92 legacy_request
      (sample_server true) = Some (s', [])
    /\ store s' !! "ro.x" = Some "1".
Proof.
  assert (E : RecvUint32 (peer legacy_request) (mkConn 0 0) kDefaultSocketTimeout
              = Some (Some 1, mkConn 1 1, 1999)) by (vm_compute; reflexivity).
  split; [exact E|].
  destruct (@legacy_setprop_never_replies sample_platform 1 131073 32 92 legacy_request
              (sample_server true) 7 (mkUcred 1234 1000 1000) (mkConn 1 1) 1999
              eq_refl eq_refl E) as (rn & c1 & t1 & E1 & H).
  assert (E1' : RecvChars (peer legacy_request) (mkConn 1 1) 32 1999
                = Some (Some ("ro.x" +:+ string_repeat 28 zero), mkConn 2 2, 1998))
    by (vm_compute; reflexivity).
  rewrite E1' in E1. injection E1 as <- <- <-.
  destruct H as (rv & c2 & t2 & E2 & H).
  assert (E2' : RecvChars (peer legacy_request) (mkConn 2 2) 92 1998
                = Some (Some ("1" +:+ string_repeat 91 zero), mkConn 3 3, 1997))
    by (vm_compute; reflexivity).
  rewrite E2' in E2. injection E2 as <- <- <-.
  destruct H as (_ & _ & H).
  eexists. split; [exact H|]. vm_compute. reflexivity.
Defined.

Lemma setprop2_reply_witness :
  131073 <> 1 /\
  RecvUint32 (peer setprop2_request) (mkConn 0 0) kDefaultSocketTimeout
    = Some (Some 131073, mkConn 1 1, 1999) /\
  RecvString (peer setprop2_request) (mkConn 1 1) 1999
    = Some (Some "ro.x", mkConn 3 3, 1997) /\
  RecvString (peer setprop2_request) (mkConn 3 3) 1997
    = Some (Some "1", mkConn 5 5, 1995) /\
  exists s',
    @handle_property_set_fd sample_platform 1 131073 32 92 setprop2_request
      (sample_server true) = Some (s', [PROP_SUCCESS]).
Proof.
  assert (E0 : RecvUint32 (peer setprop2_request) (mkConn 0 0) kDefaultSocketTimeout
               = Some (Some 131073, mkConn 1 1, 1999)) by (vm_compute; reflexivity).
  assert (E1 : RecvString (peer setprop2_request) (mkConn 1 1) 1999
               = Some (Some "ro.x", mkConn 3 3, 1997)) by (vm_compute; reflexivity).
  assert (E2 : RecvString (peer setprop2_request) (mkConn 3 3) 1997
               = Some (Some "1", mkConn 5 5, 1995)) by (vm_compute; reflexivity).
  split; [discriminate|]. split; [exact E0|]. split; [exact E1|]. split; [exact E2|].
  eexists.
  rewrite (proj1 (@setprop2_reply sample_platform 1 131073 32 92 setprop2_request
                    (sample_server true) 7 (mkUcred 1234 1000 1000)
                    (mkConn 1 1) (mkConn 3 3) (mkConn 5 5) 1999 1997 1995
                    "ro.x" "1" init_context ltac:(discriminate) eq_refl eq_refl
                    E0 E1 E2 eq_refl)).
  reflexivity.
Defined.

(** ** Property files *)

Section PropertyFilesFacts.
Context `{P : PropertyPlatform}.
Variable isspace : ascii -> bool.
Variables kInitContext kVendorContext : string.
Variable ExpandProps : string -> option string.
Variable ReadFile : string -> option string.

Lemma file_context_cases (filename : string) :
  file_context kInitContext kVendorContext filename = kInitContext
  \/ file_context kInitContext kVendorContext filename = kVendorContext.
Proof.
  unfold file_context. destruct (_ >=? _); [|left; reflexivity].
  destruct (_ || _); [right|left]; reflexivity.
Qed.

Lemma load_line_loadable load_file (context filter line : string) :
  context = kInitContext \/ context = kVendorContext ->
  (forall fn flt, adds_only (loadable kInitContext kVendorContext) (load_file fn flt)) ->
  adds_only (loadable kInitContext kVendorContext) (load_line isspace ExpandProps load_file context filter line).
Proof.
  intros Hc Hf p p' H k v L. unfold load_line in H. cbv zeta in H.
  assert (Same : Some p = Some p' -> p !! k = Some v \/ loadable kInitContext kVendorContext k v).
  { intros E. injection E as <-. left. exact L. }
  destruct (ltrim isspace line) as [|c rest] eqn:Hk.
  - cbn in H. exact (Same H).
  - destruct (Ascii.eqb_spec c "#"%char) as [->|Hc0]; [exact (Same H)|].
    assert (H' :
      (let key := trim_tail isspace (String c rest) in
       if String.prefix "import " key && (String.length filter =? 0)%nat
       then
         let fn := ltrim isspace (skip 7 key) in
         let '(fn, key) :=
           match split_at " "%char fn with
           | Some (fn, rest) => (fn, ltrim isspace rest)
           | None => (fn, EmptyString)
           end in
         match ExpandProps fn with
         | None => Some p
         | Some expanded_filename => load_file (c_str expanded_filename) key p
         end
       else
         match split_at "="%char key with
         | None => Some p
         | Some (key, value) =>
             let key := trim_tail isspace key in
             let value := ltrim isspace value in
             if negb (filter_matches filter key) then Some p
             else if disallowed key then Some p
             else if PropResult_eqb (CheckPermissions key value context) PROP_SUCCESS
             then Some (<[key := value]> p)
             else Some p
         end) = Some p').
    { revert H. destruct c as [[] [] [] [] [] [] [] []]; try (intros H; exact H).
      contradiction Hc0. reflexivity. }
    clear H. cbv zeta in H'.
    destruct (String.prefix "import " _ && _).
    + destruct (match split_at " "%char _ with Some _ => _ | None => _ end) as [fn key'].
      destruct (ExpandProps fn) as [e|]; [|exact (Same H')].
      exact (Hf _ _ _ _ H' k v L).
    + destruct (split_at "="%char _) as [[key value]|]; [|exact (Same H')].
      destruct (negb (filter_matches filter _)); [exact (Same H')|].
      destruct (disallowed _) eqn:D; [exact (Same H')|].
      destruct (PropResult_eqb _ PROP_SUCCESS) eqn:E; [|exact (Same H')].
      injection H' as <-. apply PropResult_eqb_eq in E.
      destruct (decide (trim_tail isspace key = k)) as [<-|Hne].
      * rewrite lookup_insert_eq in L. injection L as <-. right. split; [exact D|].
        destruct Hc as [->| ->]; [left|right]; exact E.
      * rewrite lookup_insert_ne in L by exact Hne. left. exact L.
Qed.

Lemma adds_only_bind (f g : gmap string string -> option (gmap string string)) :
  adds_only (loadable kInitContext kVendorContext) f -> adds_only (loadable kInitContext kVendorContext) g ->
  adds_only (loadable kInitContext kVendorContext) (fun p => match f p with Some q => g q | None => None end).
Proof.
  intros Hf Hg p p' H k v L. destruct (f p) as [q|] eqn:E; [|discriminate H].
  destruct (Hg q p' H k v L) as [A|A]; [|right; exact A].
  exact (Hf p q E k v A).
Qed.

Lemma load_lines_loadable load_file (context filter : string) (ls : list string) :
  context = kInitContext \/ context = kVendorContext ->
  (forall fn flt, adds_only (loadable kInitContext kVendorContext) (load_file fn flt)) ->
  adds_only (loadable kInitContext kVendorContext) (load_lines isspace ExpandProps load_file context filter ls).
Proof.
  intros Hc Hf. induction ls as [|l rest IH].
  - intros p p' H k v L. injection H as <-. left. exact L.
  - cbn [load_lines].
    apply (adds_only_bind
             (load_line isspace ExpandProps load_file context filter l)
             (load_lines isspace ExpandProps load_file context filter rest)).
    + apply load_line_loadable; assumption.
    + exact IH.
Qed.

Lemma load_file_loadable (fuel : nat) (filename filter : string) :
  adds_only (loadable kInitContext kVendorContext)
    (fun p => match load_properties_from_file isspace kInitContext kVendorContext
                      ExpandProps ReadFile fuel filename filter p with
              | Some (_, q) => Some q
              | None => None
              end).
Proof.
  revert filename filter. induction fuel as [|fuel IH]; intros filename filter.
  - intros p p' H. discriminate H.
  - intros p p' H k v L. cbn [load_properties_from_file] in H.
    destruct (ReadFile filename) as [contents|].
    2: { injection H as <-. left. exact L. }
    unfold LoadProperties in H.
    destruct (load_lines _ _ _ _ _ _ p) as [q|] eqn:E; [|discriminate H].
    injection H as <-.
    exact (load_lines_loadable _ _ _ _ (file_context_cases filename) IH p q E k v L).
Qed.

(** X27.  Whenever [load_properties_from_file] returns, imports
    included: every entry of the resulting map was in the map before or has a
    name that does not start with "ctl." and is neither sys.powerctl nor the
    restorecon property, and passed [CheckPermissions] for init or for the
    vendor init. *)
Theorem property_files_add_only_permitted_entries (fuel : nat) (filename filter : string)
    (properties properties' : gmap string string) (read : bool) :
  load_properties_from_file isspace kInitContext kVendorContext ExpandProps ReadFile
    fuel filename filter properties = Some (read, properties') ->
  forall k v,
    properties' !! k = Some v ->
    properties !! k = Some v
    \/ (StartsWith k "ctl." = false /\ k <> "sys.powerctl" /\ k <> kRestoreconProperty
        /\ (CheckPermissions k v kInitContext = PROP_SUCCESS
            \/ CheckPermissions k v kVendorContext = PROP_SUCCESS)).
Proof.
  intros H k v L.
  destruct (load_file_loadable fuel filename filter properties properties') with (k := k) (v := v)
    as [A|(D & C)]; [rewrite H; reflexivity|exact L|left; exact A|].
  right. unfold disallowed in D.
  apply orb_false_elim in D as [D D3]. apply orb_false_elim in D as [D1 D2].
  split; [exact D1|].
  split; [intros ->; discriminate D2|].
  split; [intros ->; discriminate D3|exact C].
Qed.

(** With a filter, a line is handled without [load_file]. *)
Lemma load_line_filtered load_file (context filter line : string)
    (p : gmap string string) :
  filter <> "" ->
  exists p',
    load_line isspace ExpandProps load_file context filter line p = Some p'
    /\ load_line isspace ExpandProps (fun _ _ _ => None) context filter line p = Some p'
    /\ forall k, filter_matches filter k = false -> p' !! k = p !! k.
Proof.
  intros Hf.
  assert (F0 : (String.length filter =? 0)%nat = false)
    by (destruct filter; [contradiction|reflexivity]).
  assert (Same : exists p', Some p = Some p' /\ Some p = Some p'
                            /\ forall k, filter_matches filter k = false -> p' !! k = p !! k).
  { exists p. repeat split. }
  unfold load_line. cbv zeta.
  destruct (ltrim isspace line) as [|c rest]; [cbn; exact Same|].
  set (rhs := fun lf : string -> string -> gmap string string -> option (gmap string string) =>
       if String.prefix "import " (trim_tail isspace (String c rest))
          && (String.length filter =? 0)%nat
       then
         let fn := ltrim isspace (skip 7 (trim_tail isspace (String c rest))) in
         let '(fn, key) :=
           match split_at " "%char fn with
           | Some (fn, rest) => (fn, ltrim isspace rest)
           | None => (fn, EmptyString)
           end in
         match ExpandProps fn with
         | None => Some p
         | Some expanded_filename => lf (c_str expanded_filename) key p
         end
       else
         match split_at "="%char (trim_tail isspace (String c rest)) with
         | None => Some p
         | Some (key, value) =>
             if negb (filter_matches filter (trim_tail isspace key)) then Some p
             else if disallowed (trim_tail isspace key) then Some p
             else if PropResult_eqb
                       (CheckPermissions (trim_tail isspace key) (ltrim isspace value) context)
                       PROP_SUCCESS
             then Some (<[trim_tail isspace key := ltrim isspace value]> p)
             else Some p
         end).
  assert (R : exists p', rhs load_file = Some p' /\ rhs (fun _ _ _ => None) = Some p'
                         /\ forall k, filter_matches filter k = false -> p' !! k = p !! k).
  { subst rhs. cbv beta. rewrite F0, andb_false_r.
    destruct (split_at "="%char _) as [[key value]|]; [|exact Same].
    destruct (filter_matches filter (trim_tail isspace key)) eqn:M; cbn [negb];
      [|exact Same].
    destruct (disallowed _); [exact Same|].
    destruct (PropResult_eqb _ _); [|exact Same].
    eexists. split; [reflexivity|]. split; [reflexivity|].
    intros k Hk. apply lookup_insert_ne. intros <-. congruence. }
  destruct (Ascii.eqb_spec c "#"%char) as [->|Hc0]; [exact Same|].
  destruct c as [[] [] [] [] [] [] [] []]; try exact R.
  contradiction Hc0. reflexivity.
Qed.

Lemma load_lines_filtered load_file (context filter : string) (ls : list string) :
  filter <> "" ->
  forall p, exists p',
    load_lines isspace ExpandProps load_file context filter ls p = Some p'
    /\ load_lines isspace ExpandProps (fun _ _ _ => None) context filter ls p = Some p'
    /\ forall k, filter_matches filter k = false -> p' !! k = p !! k.
Proof.
  intros Hf. induction ls as [|l rest IH]; intros p.
  - exists p. repeat split.
  - cbn [load_lines].
    destruct (load_line_filtered load_file context filter l p Hf) as (q & -> & -> & Hq).
    destruct (IH q) as (p' & A & B & C).
    exists p'. split; [exact A|]. split; [exact B|].
    intros k Hk. rewrite (C k Hk). apply Hq, Hk.
Qed.

(** X28.  With a non-empty filter [LoadProperties] always returns and never
    calls [load_properties_from_file] (import lines are not followed); every
    key that does not match the filter keeps its entry, and when the filter
    does not end in a star every key other than the filter itself does. *)
Theorem filtered_load_follows_no_import load_file (data filter filename : string)
    (properties : gmap string string) :
  filter <> "" ->
  exists properties',
    LoadProperties isspace kInitContext kVendorContext ExpandProps load_file
      data filter filename properties = Some properties'
    /\ LoadProperties isspace kInitContext kVendorContext ExpandProps (fun _ _ _ => None)
         data filter filename properties = Some properties'
    /\ (forall k, filter_matches filter k = false ->
          properties' !! k = properties !! k)
    /\ (last_char filter <> Some "*"%char ->
        forall k, k <> filter -> properties' !! k = properties !! k).
Proof.
  intros Hf. unfold LoadProperties.
  destruct (load_lines_filtered load_file
              (file_context kInitContext kVendorContext filename) filter
              (lines (c_str data)) Hf properties) as (p' & A & B & C).
  exists p'. split; [exact A|]. split; [exact B|]. split; [exact C|].
  intros Hs k Hk. apply C. unfold filter_matches.
  destruct filter as [|f0 frest]; [contradiction|]. cbn [String.length Nat.eqb].
  destruct (last_char (String f0 frest)) as [a|].
  - destruct (Ascii.eqb_spec a "*"%char) as [->|Ha]; [contradiction Hs; reflexivity|].
    assert (E : (k =? String f0 frest)%string = false) by (apply String.eqb_neq; exact Hk).
    destruct a as [[] [] [] [] [] [] [] []]; try exact E.
    contradiction Ha. reflexivity.
  - apply String.eqb_neq. exact Hk.
Qed.

Lemma lines_newline_nonempty (d r : string) :
  lines (d +:+ String newline r) <> [].
Proof.
  induction d as [|c d IH].
  - cbn. discriminate.
  - change (String c d +:+ String newline r) with (String c (d +:+ String newline r)).
    cbn [lines]. destruct (Ascii.eqb c newline); [discriminate|].
    destruct (lines (d +:+ String newline r)); [contradiction|discriminate].
Qed.

Lemma lines_app (d r : string) :
  lines (d +:+ String newline r) = lines (d +:+ String newline EmptyString) ++ lines r.
Proof.
  induction d as [|c d IH].
  - reflexivity.
  - change (String c d +:+ String newline ?x) with (String c (d +:+ String newline x)).
    cbn [lines]. destruct (Ascii.eqb c newline).
    + rewrite IH. reflexivity.
    + rewrite IH.
      pose proof (lines_newline_nonempty d EmptyString) as N.
      destruct (lines (d +:+ String newline EmptyString)); [contradiction|reflexivity].
Qed.

Lemma c_str_app (d r : string) : no_nul d = true -> c_str (d +:+ r) = d +:+ c_str r.
Proof.
  induction d as [|c d IH]; intros H; [reflexivity|].
  cbn [no_nul] in H. apply andb_prop in H as [H1 H2].
  change (String c d +:+ ?x) with (String c (d +:+ x)). cbn [c_str].
  destruct (Ascii.eqb c zero); [discriminate H1|]. rewrite IH by exact H2. reflexivity.
Qed.

Lemma load_lines_app load_file (context filter : string) (l1 l2 : list string)
    (p : gmap string string) :
  load_lines isspace ExpandProps load_file context filter (l1 ++ l2) p =
    match load_lines isspace ExpandProps load_file context filter l1 p with
    | Some q => load_lines isspace ExpandProps load_file context filter l2 q
    | None => None
    end.
Proof.
  revert p. induction l1 as [|l l1 IH]; intros p; [reflexivity|].
  cbn [app load_lines]. destruct (load_line _ _ _ _ _ _ p); [apply IH|reflexivity].
Qed.

(** X29.  Loading a buffer whose first part holds no NUL and ends in a
    newline is loading that part and then loading the rest on the resulting
    map: the lines are handled one by one, in order, so that a later line
    overrides an earlier one. *)
Theorem property_file_is_read_line_by_line load_file (head tail filter filename : string)
    (properties : gmap string string) :
  no_nul head = true ->
  LoadProperties isspace kInitContext kVendorContext ExpandProps load_file
    (head +:+ String newline tail) filter filename properties =
  match LoadProperties isspace kInitContext kVendorContext ExpandProps load_file
          (head +:+ String newline EmptyString) filter filename properties with
  | Some loaded =>
      LoadProperties isspace kInitContext kVendorContext ExpandProps load_file
        tail filter filename loaded
  | None => None
  end.
Proof.
  intros Hn. unfold LoadProperties.
  rewrite !c_str_app by exact Hn.
  change (c_str (String newline ?x)) with (String newline (c_str x)).
  change (c_str EmptyString) with EmptyString.
  rewrite lines_app. apply load_lines_app.
Qed.

End PropertyFilesFacts.

Lemma property_files_add_only_permitted_entries_witness :
  exists loaded,
    @load_properties_from_file sample_platform c_isspace init_context vendor_context
      Some sample_files 2 "/system/build.prop" "" ∅ = Some (true, loaded)
    /\ loaded !! "ro.a" = Some "2"
    /\ (forall v, loaded !! "ctl.start" = Some v -> False).
Proof.
  assert (E : @load_properties_from_file sample_platform c_isspace init_context
                vendor_context Some sample_files 2 "/system/build.prop" "" ∅
              = Some (true, {["ro.a" := "2"]})) by (vm_compute; reflexivity).
  exists {["ro.a" := "2"]}. split; [exact E|]. split; [reflexivity|].
  intros v L.
  destruct (@property_files_add_only_permitted_entries sample_platform c_isspace
              init_context vendor_context Some sample_files 2 "/system/build.prop" ""
              ∅ _ true E "ctl.start" v L) as [A|(A & _)]; discriminate A.
Defined.

Lemma filtered_load_follows_no_import_witness :
  "ro.*" <> "" /\
  exists loaded,
    @LoadProperties sample_platform c_isspace init_context vendor_context Some
      (fun _ _ _ => None)
      ("import /vendor/build.prop" +:+ String newline ("sys.x=1" +:+ String newline ""))
      "ro.*" "/factory/factory.prop" ∅ = Some loaded
    /\ loaded !! "sys.x" = None.
Proof.
  split; [discriminate|].
  destruct (@filtered_load_follows_no_import sample_platform c_isspace init_context
              vendor_context Some (fun _ _ _ => None)
              ("import /vendor/build.prop" +:+ String newline ("sys.x=1" +:+ String newline ""))
              "ro.*" "/factory/factory.prop" ∅ ltac:(discriminate))
    as (loaded & E & _ & C & _).
  exists loaded. split; [exact E|]. rewrite (C "sys.x" eq_refl). reflexivity.
Defined.

Lemma property_file_is_read_line_by_line_witness :
  no_nul "ro.a=1" = true /\
  @LoadProperties sample_platform c_isspace init_context vendor_context Some
    (fun _ _ _ => None) ("ro.a=1" +:+ String newline ("ro.a=2" +:+ String newline ""))
    "" "/system/build.prop" ∅
  = @LoadProperties sample_platform c_isspace init_context vendor_context Some
      (fun _ _ _ => None) ("ro.a=2" +:+ String newline "") "" "/system/build.prop"
      {["ro.a" := "1"]}.
Proof.
  split; [reflexivity|].
  rewrite (@property_file_is_read_line_by_line sample_platform c_isspace init_context
             vendor_context Some (fun _ _ _ => None) "ro.a=1"
             ("ro.a=2" +:+ String newline "") "" "/system/build.prop" ∅ eq_refl).
  reflexivity.
Defined.

(** ** The restorecon queue *)

Section RestoreconQueueFacts.
Context `{P : PropertyPlatform}.

Lemma queue_served_HandlePropertySet (name value source_context : string) (cr : ucred)
    (socket : option Z) (s : PropertyServer) :
  queue_served s ->
  queue_served (snd (HandlePropertySet name value source_context cr socket s)).
Proof.
  intros Q.
  destruct (HandlePropertySet_queue name value source_context cr socket s)
    as (A & B & _). cbv zeta in A, B.
  unfold queue_served. rewrite A, B.
  destruct (_ && _ && _ && _); [reflexivity|exact Q].
Qed.

Lemma queue_served_step (s s' : PropertyServer) :
  server_step s s' -> queue_served s -> queue_served s'.
Proof.
  intros St Q. destruct St as [name value s|name value ctx cr socket s|s|loaded accept s].
  - destruct (PropertySet_frame name value s) as (_ & _ & A & B & _).
    unfold queue_served. rewrite A, B. exact Q.
  - apply queue_served_HandlePropertySet, Q.
  - intros H. contradiction H. reflexivity.
  - exact Q.
Qed.

(** X30.  Starting from a state in which every queued restorecon path has a
    worker, and whatever the property service does (set requests from
    clients and from init, runs of the worker, mode switches), a path is
    never left in the queue without a worker marked started; and a run of
    the worker empties the queue, clears the mark and handles the queued
    paths in order. *)
Theorem queued_paths_have_a_worker (s s' : PropertyServer) :
  queue_served s ->
  rtc server_step s s' ->
  queue_served s'
  /\ paths_ (ThreadFunction s') = [] /\ thread_started_ (ThreadFunction s') = false
  /\ ptrace (ThreadFunction s') = ptrace s' ++ ThreadFunction_actions (paths_ s').
Proof.
  intros Q St. split; [|repeat split].
  induction St as [s|s1 s2 s3 S12 _ IH]; [exact Q|].
  apply IH. eapply queue_served_step; eassumption.
Qed.

End RestoreconQueueFacts.

Lemma queued_paths_have_a_worker_witness :
  queue_served (sample_server true) /\
  queue_served (snd (@HandlePropertySet sample_platform kRestoreconProperty "/data"
                       "u:r:init:s0" (mkUcred 1234 0 0) None (sample_server true))).
Proof.
  assert (Q : queue_served (sample_server true)) by (intros H; contradiction H; reflexivity).
  split; [exact Q|].
  apply (@queued_paths_have_a_worker sample_platform (sample_server true) _ Q).
  apply rtc_once. apply step_HandlePropertySet.
Defined.
